(** * ROMA_STORE: the query-interpretation and ranking pipeline

    A shallow embedding of [src/budget_analyzer.py], [src/config.py],
    [src/mock_database.py], [src/shopping_processor.py] and the two
    views of [app.py], and the properties of the specification checked
    against it.

    Conventions of the embedding.
    - A Python [str] is a list of code points.  The alphabet is Latin-1
      (code points 0..255, Rocq's [ascii]); on it [str.lower], [str.isspace],
      [str.split], [str.strip] and the regular-expression classes [\s] and
      [\d] are written out as CPython defines them.  The rupee sign of the
      budget patterns lies outside that alphabet and is a pattern atom that
      matches no character.
    - A Python [float] is an IEEE-754 binary64 value, [spec_float] with
      precision 53 and maximal exponent 1024, rounded to nearest even.
    - A Python [int] is a [Z].
    - A computation that may raise is a value of [M]; one that also works
      on the repository is a [DB], and [try ... except Exception] is
      [try_db].  Calls of the logger change no result and are left out.
    - The repository object owns a mutable product list; operations on it
      take the list and return the list they leave behind.  A product is
      a record with the keys of the catalog's JSON objects, the price an
      int and the rating a float.
    - [list.sort] and [sorted] are any [sorter]: a function that returns
      a permutation of its list, and the stable sort where [<] orders
      the elements.  What CPython does with keys [<] does not order, a
      NaN among them, is left open; every statement about an order
      carries the guard it needs.
    - [jsonify] writes a body unless one of its ints has more digits
      than [int.__repr__] allows, 4300, and raises [ValueError] then. *)

From Stdlib Require Import List Bool Ascii String ZArith NArith Lia.
From Stdlib Require Import Permutation Sorted.
From Stdlib Require Import Floats.SpecFloat.
Import ListNotations.

Set Implicit Arguments.

(* ================================================================== *)
(** * Python values *)
(* ================================================================== *)

Module Py.

(** ** Strings *)

Definition str := list ascii.

Definition txt (s : string) : str := list_ascii_of_string s.

Definition code (c : ascii) : N := N_of_ascii c.

Definition in_range (lo hi n : N) : bool := ((lo <=? n) && (n <=? hi))%N.

(** [str.isspace] on one code point, also the class [\s]. *)
Definition isspace (c : ascii) : bool :=
  let n := code c in
  in_range 9 13 n || in_range 28 32 n || (n =? 133)%N || (n =? 160)%N.

(** The class [\d]. *)
Definition isdigit (c : ascii) : bool := in_range 48 57 (code c).

(** [str.lower] on one code point: A-Z and the Latin-1 capitals
    (all of 192..222 but the multiplication sign 215) move up by 32. *)
Definition lower_char (c : ascii) : ascii :=
  let n := code c in
  if in_range 65 90 n || (in_range 192 222 n && negb (n =? 215)%N)
  then ascii_of_N (n + 32) else c.

Definition lower (s : str) : str := map lower_char s.

Definition ascii_eqb (a b : ascii) : bool := Ascii.eqb a b.

Fixpoint str_eqb (a b : str) : bool :=
  match a, b with
  | [], [] => true
  | x :: a', y :: b' => ascii_eqb x y && str_eqb a' b'
  | _, _ => false
  end.

(** [s.startswith(p)] *)
Fixpoint startswith (p s : str) : bool :=
  match p, s with
  | [], _ => true
  | x :: p', y :: s' => ascii_eqb x y && startswith p' s'
  | _ :: _, [] => false
  end.

(** [p in s] for strings *)
Fixpoint contains (p s : str) : bool :=
  startswith p s ||
  match s with
  | [] => false
  | _ :: s' => contains p s'
  end.

(** [any(k in s for k in ks)] *)
Definition any_in (ks : list str) (s : str) : bool :=
  existsb (fun k => contains k s) ks.

Fixpoint dropwhile (p : ascii -> bool) (s : str) : str :=
  match s with
  | [] => []
  | c :: s' => if p c then dropwhile p s' else s
  end.

Fixpoint takewhile (p : ascii -> bool) (s : str) : str :=
  match s with
  | [] => []
  | c :: s' => if p c then c :: takewhile p s' else []
  end.

(** [s.strip()] *)
Definition strip (s : str) : str :=
  rev (dropwhile isspace (rev (dropwhile isspace s))).

(** [s.split()]: the maximal runs of non-whitespace, in order.  [cur] is
    the run being read, reversed. *)
Fixpoint split_aux (cur : str) (s : str) : list str :=
  match s with
  | [] => match cur with [] => [] | _ => [rev cur] end
  | c :: s' =>
      if isspace c
      then match cur with
           | [] => split_aux [] s'
           | _ => rev cur :: split_aux [] s'
           end
      else split_aux (c :: cur) s'
  end.

Definition split (s : str) : list str := split_aux [] s.

(** [s.replace(',', '')] *)
Definition remove_char (c : ascii) (s : str) : str :=
  filter (fun x => negb (ascii_eqb x c)) s.

(** ** Exceptions *)

Inductive exn :=
| OverflowError (msg : string)
| ZeroDivisionError (msg : string)
| ValueError (msg : string)
| IndexError (msg : string)
| OtherException (msg : string).

(** [str(e)] *)
Definition exn_message (e : exn) : string :=
  match e with
  | OverflowError m | ZeroDivisionError m | ValueError m | IndexError m
  | OtherException m => m
  end.

Inductive M (A : Type) :=
| Ok (a : A)
| Raise (e : exn).
Arguments Ok {A} a.
Arguments Raise {A} e.

Definition bind {A B} (m : M A) (k : A -> M B) : M B :=
  match m with
  | Ok a => k a
  | Raise e => Raise e
  end.

(** ** Floats *)

Definition float := spec_float.

Definition prec : Z := 53.
Definition emax : Z := 1024.

Definition fadd : float -> float -> float := SFadd prec emax.
Definition fsub : float -> float -> float := SFsub prec emax.
Definition fmul : float -> float -> float := SFmul prec emax.
Definition fltb : float -> float -> bool := SFltb.
Definition fleb : float -> float -> bool := SFleb.
Definition feqb : float -> float -> bool := SFeqb.
Definition fneg : float -> float := SFopp.

(** The quotient [n / d] of two integers, [n >= 0] and [d > 0], rounded to
    the nearest binary64 value (an infinity when it is out of range). *)
Definition round_quotient (n d : Z) : float :=
  match n with
  | Z0 => S754_zero false
  | _ =>
      let '(mz, ez, lz) := SFdiv_core_binary prec emax n 0 d 0 in
      binary_round_aux prec emax false mz ez lz
  end.

Definition with_sign (neg : bool) (x : float) : float :=
  if neg then fneg x else x.

(** The nearest binary64 value to an integer. *)
Definition nearest_float (n : Z) : float :=
  binary_normalize prec emax n 0 false.

Definition is_infinite (x : float) : bool :=
  match x with S754_infinity _ => true | _ => false end.

(** [float(n)] for an int, also the implicit conversion of an int operand
    of a mixed operation. *)
Definition float_of_int (n : Z) : M float :=
  let x := nearest_float n in
  if is_infinite x
  then Raise (OverflowError "int too large to convert to float")
  else Ok x.

(** [n / d] for two ints (true division). *)
Definition int_truediv (n d : Z) : M float :=
  if (d =? 0)%Z then Raise (ZeroDivisionError "division by zero")
  else
    let x := round_quotient (Z.abs n) (Z.abs d) in
    if is_infinite x
    then Raise (OverflowError "integer division result too large for a float")
    else Ok (with_sign (xorb (n <? 0)%Z (d <? 0)%Z) x).

(** [int(x)] for a float: truncation towards zero. *)
Definition int_of_float (x : float) : M Z :=
  match x with
  | S754_zero _ => Ok 0%Z
  | S754_finite s m e =>
      let a := match e with
               | Zneg p => Z.shiftr (Zpos m) (Zpos p)
               | _ => Z.shiftl (Zpos m) e
               end in
      Ok (if s then Z.opp a else a)
  | S754_infinity _ =>
      Raise (OverflowError "cannot convert float infinity to integer")
  | S754_nan =>
      Raise (ValueError "cannot convert float NaN to integer")
  end.

(** The value of a string of decimal digits. *)
Definition digit_value (c : ascii) : Z := Z.of_N (code c - 48).

Definition digits_value (s : str) : Z :=
  fold_left (fun acc c => (10 * acc + digit_value c)%Z) s 0%Z.

(** A literal [digits] or [digits.digits], cut into its integer and
    fraction digits. *)
Definition decimal_parts (s : str) : option (str * str) :=
  let ip := takewhile isdigit s in
  match ip, dropwhile isdigit s with
  | _ :: _, [] => Some (ip, [])
  | _ :: _, dot :: fp =>
      if ascii_eqb dot "."%char && forallb isdigit fp
         && negb (Nat.eqb (List.length fp) 0)
      then Some (ip, fp) else None
  | [], _ => None
  end.

(** [float(s)], on the strings the budget patterns can capture: the
    decimal value of [digits] or [digits.digits] rounded to nearest, a
    [ValueError] for a string that is not such a literal. *)
Definition float_of_str (s : str) : M float :=
  match decimal_parts s with
  | Some (ip, fp) =>
      Ok (round_quotient (digits_value (ip ++ fp))
                         (10 ^ Z.of_nat (List.length fp)))
  | None => Raise (ValueError "could not convert string to float")
  end.

(** ** [list.sort] and [sorted]

    CPython's sort compares with [<] only and moves the elements it is
    given: what it returns is always the list in another order.  It is
    stable, so where [<] orders the elements, as it does numbers and
    tuples of numbers, it returns what every stable sort returns: the
    list [stable_sort] below computes.  Where [<] does not order them, as
    with a NaN among floats, the outcome depends on the runs and merges
    of the algorithm, which differ between versions of the interpreter
    and are not modelled.  A [sorter] is any sort with these two
    properties, and the program is modelled for every sorter. *)

Section Sort.
Variable A : Type.
Variable lt : A -> A -> bool.

(** [x] goes in front of the first element it is smaller than. *)
Fixpoint insert (x : A) (l : list A) : list A :=
  match l with
  | [] => [x]
  | y :: l' => if lt x y then x :: l else y :: insert x l'
  end.

(** The stable sort: each element, from left to right, is inserted
    behind the elements already placed that are not above it. *)
Definition stable_sort (l : list A) : list A :=
  fold_left (fun acc x => insert x acc) l [].

(** [<] orders the elements of [l]: of two elements at most one is below
    the other, and an element below another is below every third one
    that the other is not above. *)
Definition orders (l : list A) : Prop :=
  (forall x y, In x l -> In y l -> lt x y = true -> lt y x = false)
  /\ (forall x y z, In x l -> In y l -> In z l ->
        lt x z = true -> lt x y = true \/ lt y z = true).
End Sort.

Class sorter := {
  (** [l.sort()] and [sorted(l)], [lt a b] being [key(a) < key(b)] *)
  list_sort : forall A : Type, (A -> A -> bool) -> list A -> list A;
  list_sort_permutes :
    forall (A : Type) (lt : A -> A -> bool) (l : list A),
      Permutation (list_sort lt l) l;
  list_sort_stable :
    forall (A : Type) (lt : A -> A -> bool) (l : list A),
      orders lt l -> list_sort lt l = stable_sort lt l
}.
Arguments list_sort {_} {A} lt l.
Arguments list_sort_permutes {_} {A} lt l.
Arguments list_sort_stable {_} {A} lt l _.

(** [l.sort(reverse=True)] and [sorted(l, reverse=True)]: the list is
    reversed, sorted and reversed again, which keeps equal elements in
    their first order. *)
Definition list_sort_reverse {S : sorter} {A : Type} (lt : A -> A -> bool)
           (l : list A) : list A :=
  rev (list_sort lt (rev l)).

(** ** Truth values *)

(** [bool(x)] of an optional int: [None] and [0] are false. *)
Definition truthy_int (x : option Z) : bool :=
  match x with
  | Some n => negb (n =? 0)%Z
  | None => false
  end.

(** [bool(x)] of an optional string: [None] and [''] are false. *)
Definition truthy_str (x : option str) : bool :=
  match x with
  | Some (_ :: _) => true
  | _ => false
  end.

End Py.

(* ================================================================== *)
(** * Regular expressions, as [re.search] runs them *)
(* ================================================================== *)

Module Re.
Import Py.

(** The fragment of the pattern language the budget patterns use.  Every
    pattern is compiled with [re.IGNORECASE]. *)
Inductive re :=
| Lit (s : str)                       (* literal text *)
| Void                                (* a literal outside the alphabet *)
| Rep (p : ascii -> bool) (min : nat) (* [c+] (min 1) and [c*] (min 0) of a class *)
| Alt (a b : re)                      (* [a|b] *)
| Seq (a b : re)                      (* [ab] *)
| Opt (a : re)                        (* [a?] *)
| Star (a : re)                       (* [a*] *)
| Group (n : nat) (a : re).           (* the n-th capturing group *)

Definition caps := list (nat * str).

(** [match.group(n)] *)
Fixpoint group (n : nat) (c : caps) : option str :=
  match c with
  | [] => None
  | (k, s) :: c' => if Nat.eqb k n then Some s else group n c'
  end.

(** A literal against the head of the text, ignoring case. *)
Fixpoint lit_match (p s : str) : option str :=
  match p, s with
  | [], _ => Some s
  | x :: p', y :: s' =>
      if ascii_eqb (lower_char x) (lower_char y) then lit_match p' s' else None
  | _ :: _, [] => None
  end.

(** [n; n-1; ...; 0] *)
Fixpoint downto (n : nat) : list nat :=
  match n with
  | O => [O]
  | S k => n :: downto k
  end.

(** Greedy repetition of a class: the longest run first, then each
    shorter one down to [min] characters. *)
Definition rep_choices (p : ascii -> bool) (min : nat) (s : str) : list str :=
  map (fun k => skipn k s)
      (filter (fun k => Nat.leb min k) (downto (List.length (takewhile p s)))).

(** The loop of [a*]: one more iteration first, leaving the loop last; an
    iteration that consumed nothing ends the loop. *)
Fixpoint star_loop (step : str -> caps -> list (str * caps))
         (fuel : nat) (s : str) (c : caps) : list (str * caps) :=
  match fuel with
  | O => [(s, c)]
  | S f =>
      flat_map (fun sc =>
                  if Nat.ltb (List.length (fst sc)) (List.length s)
                  then star_loop step f (fst sc) (snd sc)
                  else [sc])
               (step s c)
      ++ [(s, c)]
  end.

(** All the ways [r] matches at the head of [s], in the order the
    backtracking matcher tries them; each with the text left over and the
    groups captured.  The matcher stops at the first. *)
Fixpoint run (r : re) (s : str) (c : caps) : list (str * caps) :=
  match r with
  | Lit p => match lit_match p s with
             | Some s' => [(s', c)]
             | None => []
             end
  | Void => []
  | Rep p min => map (fun s' => (s', c)) (rep_choices p min s)
  | Alt a b => run a s c ++ run b s c
  | Seq a b => flat_map (fun sc => run b (fst sc) (snd sc)) (run a s c)
  | Opt a => run a s c ++ [(s, c)]
  | Star a => star_loop (run a) (List.length s) s c
  | Group n a =>
      map (fun sc =>
             (fst sc,
              (n, firstn (List.length s - List.length (fst sc)) s) :: snd sc))
          (run a s c)
  end.

(** [pattern.match(s)]: the groups of the first way to match at the head. *)
Definition match_here (r : re) (s : str) : option caps :=
  match run r s [] with
  | (_, c) :: _ => Some c
  | [] => None
  end.

(** [pattern.search(s)]: the match at the leftmost position that has one. *)
Fixpoint search (r : re) (s : str) : option caps :=
  match match_here r s with
  | Some c => Some c
  | None => match s with
            | [] => None
            | _ :: s' => search r s'
            end
  end.

End Re.

(* ================================================================== *)
(** * config.py *)
(* ================================================================== *)

Module Config.
Import Py.

Definition CATEGORY_KEYWORDS : list (str * list str) :=
  [ (txt "apparel",
     map txt
       [ "shoes"; "clothes"; "t-shirt"; "shirt"; "pants"; "trousers"; "jeans";
         "dress"; "jacket"; "coat"; "footwear"; "sneakers"; "boots"; "sandals";
         "sweater"; "hoodie"; "joggers"; "shorts"; "skirt"; "blouse" ]%string);
    (txt "mobiles",
     map txt
       [ "phone"; "smartphone"; "mobile"; "iphone"; "android"; "cellphone";
         "redmi"; "samsung"; "realme"; "vivo"; "oppo"; "oneplus"; "nokia";
         "moto"; "motorola"; "poco"; "nothing"; "google pixel" ]%string);
    (txt "electronics",
     map txt
       [ "laptop"; "computer"; "pc"; "notebook"; "macbook"; "thinkpad";
         "tv"; "television"; "smart tv"; "led tv"; "4k tv";
         "camera"; "dslr"; "mirrorless"; "headphones"; "earphones";
         "speaker"; "soundbar"; "tablet"; "ipad"; "monitor"; "keyboard";
         "mouse"; "printer"; "scanner"; "projector"; "gaming console" ]%string) ].

Definition BUDGET_KEYWORDS : list (str * list str) :=
  [ (txt "low",
     map txt
       [ "cheap"; "budget"; "affordable"; "low cost"; "economical";
         "inexpensive"; "under budget"; "low price"; "economy"; "basic";
         "entry level" ]%string);
    (txt "medium",
     map txt
       [ "mid-range"; "reasonable"; "moderate"; "mid priced"; "standard";
         "average"; "decent"; "fair price"; "competitive"; "value" ]%string);
    (txt "high",
     map txt
       [ "premium"; "expensive"; "high-end"; "luxury"; "top"; "best";
         "flagship"; "professional"; "pro"; "ultimate"; "elite" ]%string) ].

Definition BUDGET_RANGES : list (str * list (str * Z)) :=
  [ (txt "apparel", [ (txt "low", 3000); (txt "medium", 8000); (txt "high", 20000) ]);
    (txt "mobiles", [ (txt "low", 15000); (txt "medium", 35000); (txt "high", 70000) ]);
    (txt "electronics",
     [ (txt "low", 50000); (txt "medium", 100000); (txt "high", 250000) ]) ]%Z.

Definition COLOR_KEYWORDS : list str :=
  map txt
    [ "red"; "blue"; "black"; "white"; "green"; "yellow"; "pink"; "purple";
      "orange"; "silver"; "gold"; "navy"; "beige"; "brown"; "gray"; "maroon";
      "cyan"; "magenta"; "violet"; "indigo"; "turquoise"; "khaki" ]%string.

(** [d.get(k)] on a dict with string keys *)
Fixpoint dict_get {V} (d : list (str * V)) (k : str) : option V :=
  match d with
  | [] => None
  | (k', v) :: d' => if str_eqb k' k then Some v else dict_get d' k
  end.

End Config.

(* ================================================================== *)
(** * budget_analyzer.py *)
(* ================================================================== *)

Module BudgetAnalyzer.
Import Py Re Config.

(** The amount [\d+(?:,\d+)*] *)
Definition int_amount : re :=
  Seq (Rep isdigit 1) (Star (Seq (Lit (txt ",")) (Rep isdigit 1))).

(** The amount [\d+(?:,\d+)*(?:\.\d+)?] *)
Definition dec_amount : re :=
  Seq int_amount (Opt (Seq (Lit (txt ".")) (Rep isdigit 1))).

(** The currency mark and the blanks before an amount,
    [\s+(?:rs\.?|<rupee sign>)?\s*] *)
Definition currency : re :=
  Seq (Rep isspace 1)
      (Seq (Opt (Alt (Seq (Lit (txt "rs")) (Opt (Lit (txt ".")))) Void))
           (Rep isspace 0)).

Definition under_pattern : re :=
  Seq (Alt (Lit (txt "under"))
           (Alt (Lit (txt "below")) (Alt (Lit (txt "less than")) (Lit (txt "upto")))))
      (Seq currency (Group 1 dec_amount)).

Definition around_pattern : re :=
  Seq (Alt (Lit (txt "around")) (Lit (txt "about")))
      (Seq currency (Group 1 dec_amount)).

Definition range_pattern : re :=
  Seq (Lit (txt "between"))
      (Seq currency
           (Seq (Group 1 int_amount)
                (Seq (Rep isspace 1)
                     (Seq (Lit (txt "and"))
                          (Seq currency (Group 2 int_amount)))))).

(** [self.budget_patterns] *)
Definition budget_patterns : list (re * str) :=
  [ (under_pattern, txt "under");
    (around_pattern, txt "around");
    (range_pattern, txt "range") ].

Definition budget_keywords : list str :=
  map txt [ "under"; "below"; "less than"; "upto"; "around"; "about";
            "between"; "max"; "maximum" ]%string.

(** The body of the [try] of [_extract_price]: the price of the captured
    text. *)
Definition price_of (query price_str : str) : M Z :=
  bind (float_of_str price_str) (fun price =>
  let price :=
    if contains (txt "k") (lower query) && fltb price (nearest_float 100)
    then fmul price (nearest_float 1000)
    else price in
  int_of_float price).

(** The [for] loop of [_extract_price] over the patterns. *)
Fixpoint extract_loop (patterns : list (re * str)) (query : str)
  : M (option Z) :=
  match patterns with
  | [] => Ok None
  | (pattern, pattern_type) :: rest =>
      match search pattern query with
      | Some m =>
          let n := if str_eqb pattern_type (txt "range") then 2%nat else 1%nat in
          match group n m with
          | None => Raise (IndexError "no such group")
          | Some g =>
              let price_str := remove_char ","%char g in
              match price_of query price_str with
              | Ok price => Ok (Some price)
              | Raise (ValueError _) | Raise (IndexError _) =>
                  extract_loop rest query
              | Raise e => Raise e
              end
          end
      | None => extract_loop rest query
      end
  end.

Definition _extract_price (query : str) : M (option Z) :=
  let has_budget_keyword := any_in budget_keywords (lower query) in
  if negb has_budget_keyword then Ok None
  else extract_loop budget_patterns query.

(** The first key of a keyword table with a keyword inside the query. *)
Fixpoint first_hit (table : list (str * list str)) (query : str)
  : option str :=
  match table with
  | [] => None
  | (key, keywords) :: rest =>
      if any_in keywords query then Some key else first_hit rest query
  end.

Definition _detect_category (query : str) : option str :=
  if any_in (map txt [ "non-apple"; "not apple"; "excluding apple" ]%string) query
     && any_in (map txt [ "laptop"; "computer"; "macbook" ]%string) query
  then Some (txt "electronics")
  else first_hit CATEGORY_KEYWORDS query.

Definition _detect_budget_type (query : str) : M str :=
  bind (_extract_price query) (fun price =>
  if truthy_int price then Ok (txt "specific")
  else
    match first_hit BUDGET_KEYWORDS query with
    | Some budget_key => Ok budget_key
    | None =>
        if any_in (map txt [ "cheap"; "budget"; "under" ]%string) query
        then Ok (txt "low")
        else Ok (txt "low")
    end).

Record analysis := {
  category : option str;
  max_budget : option Z;
  budget_type : str;
  specific_budget : option Z;
  original_query : str
}.

(** [self.BUDGET_RANGES.get(category, {}).get(budget_type, 50000)] *)
Definition default_budget (category : option str) (budget_type : str) : Z :=
  let row := match category with
             | Some c => match dict_get BUDGET_RANGES c with
                         | Some r => r
                         | None => []
                         end
             | None => []
             end in
  match dict_get row budget_type with
  | Some b => b
  | None => 50000%Z
  end.

Definition analyze_budget (query : str) : M analysis :=
  let query_lower := strip (lower query) in
  let category := _detect_category query_lower in
  bind (_detect_budget_type query_lower) (fun budget_type =>
  bind (_extract_price query_lower) (fun specific_budget =>
  let max_budget :=
    if truthy_int specific_budget then specific_budget
    else Some (default_budget category budget_type) in
  Ok {| category := category;
        max_budget := max_budget;
        budget_type := budget_type;
        specific_budget := specific_budget;
        original_query := query |})).

End BudgetAnalyzer.

(* ================================================================== *)
(** * mock_database.py *)
(* ================================================================== *)

Module MockProductDatabase.
Import Py.

(** One entry of the catalog, with the keys the JSON objects carry. *)
Record product := {
  name : str;
  price : Z;
  rating : float;
  image_url : str;
  description : str;
  buy_link : str;
  category : str;
  brand : str;
  color : str;
  platform : str
}.

(** [self.products] *)
Definition catalog := list product.

(** [(-x['rating'], x['price'])] compared as tuples: the first components
    that are not equal decide. *)
Definition sort_key_lt (a b : product) : bool :=
  let ra := fneg (rating a) in
  let rb := fneg (rating b) in
  if feqb ra rb then (price a <? price b)%Z else fltb ra rb.

Definition or_empty (x : option str) : str :=
  match x with
  | Some s => s
  | None => []
  end.

(** The local variable [filtered_products]: the list it is bound to, and
    whether that is still the list object [self.products]. *)
Definition binding := (list product * bool)%type.

(** [if cond: filtered_products = [p for p in filtered_products if keep p]] *)
Definition rebind (cond : bool) (keep : product -> bool) (b : binding)
  : binding :=
  if cond then (filter keep (fst b), false) else b.

Definition matches_words (query_words : list str) (p : product) : bool :=
  existsb (fun word =>
             contains word (lower (name p))
             || contains word (lower (description p))
             || contains word (lower (category p))
             || contains word (lower (brand p))
             || contains word (lower (color p)))
          query_words.

Section Search.
Context {S : sorter}.

(** The result, and [self.products] as the call leaves it. *)
Definition search_products
           (query category : option str) (max_price : option Z)
           (brand color platform : option str) (products : catalog)
  : list product * catalog :=
  let b : binding := (products, true) in
  let b := rebind (truthy_str category)
                  (fun p => str_eqb (MockProductDatabase.category p)
                                    (or_empty category)) b in
  let b := rebind (truthy_int max_price)
                  (fun p => match max_price with
                            | Some m => (price p <=? m)%Z
                            | None => true
                            end) b in
  let b := rebind (truthy_str brand)
                  (fun p => contains (lower (or_empty brand))
                                     (lower (MockProductDatabase.brand p))) b in
  let b := rebind (truthy_str color)
                  (fun p => contains (lower (or_empty color))
                                     (lower (MockProductDatabase.color p))) b in
  let b := rebind (truthy_str platform)
                  (fun p => str_eqb (lower (MockProductDatabase.platform p))
                                    (lower (or_empty platform))) b in
  let b := rebind (truthy_str query)
                  (matches_words (split (lower (or_empty query)))) b in
  let b := rebind (truthy_str query
                   && contains (txt "non-apple") (lower (or_empty query)))
                  (fun p => negb (contains (txt "apple")
                                           (lower (MockProductDatabase.brand p)))) b in
  let sorted := list_sort sort_key_lt (fst b) in
  (sorted, if snd b then sorted else products).
End Search.

Definition get_product_by_id (product_id : Z) (products : catalog)
  : option product :=
  if ((0 <=? product_id) && (product_id <? Z.of_nat (List.length products)))%Z
  then nth_error products (Z.to_nat product_id)
  else None.

End MockProductDatabase.

(* ================================================================== *)
(** * shopping_processor.py *)
(* ================================================================== *)

Module ShoppingQueryProcessor.
Import Py Config.
Import BudgetAnalyzer.
Import MockProductDatabase.

(** A score while it may still be an [int]. *)
Inductive num :=
| Int (n : Z)
| Float (x : float).

Definition to_float (a : num) : M float :=
  match a with
  | Int n => float_of_int n
  | Float x => Ok x
  end.

Definition f_one : float := nearest_float 1.
Definition f_two : float := nearest_float 2.
(** [1.5] *)
Definition f_one_and_half : float := round_quotient 3 2.

(** The text the query words are looked up in. *)
Definition product_text (p : product) : str :=
  lower (name p ++ txt " " ++ description p ++ txt " "
         ++ MockProductDatabase.brand p ++ txt " " ++ MockProductDatabase.color p).

(** The body of the loop of [_filter_and_rank] for one product. *)
Definition score_product (query_lower : str) (a : analysis) (p : product)
  : M float :=
  let score := 0%Z in
  let keywords := split query_lower in
  let score :=
    fold_left (fun score keyword =>
                 if contains keyword (product_text p)
                 then (score + 2)%Z else score)
              keywords score in
  let score :=
    fold_left (fun score color =>
                 if contains color query_lower
                    && contains color (lower (MockProductDatabase.color p))
                 then (score + 3)%Z else score)
              COLOR_KEYWORDS score in
  let brand_lower := lower (MockProductDatabase.brand p) in
  let score := if contains brand_lower query_lower
               then (score + 2)%Z else score in
  bind (match max_budget a with
        | Some mb =>
            if negb (mb =? 0)%Z then
              bind (int_truediv (price p) mb) (fun price_ratio =>
              if fleb price_ratio f_one
              then bind (float_of_int score) (fun s =>
                   Ok (Float (fadd s (fmul (fsub f_one price_ratio) f_two))))
              else Ok (Int (score - 5)%Z))
            else Ok (Int score)
        | None => Ok (Int score)
        end) (fun score =>
  bind (to_float score) (fun s =>
  let score := fadd s (fmul (rating p) f_one_and_half) in
  let score :=
    if truthy_str (BudgetAnalyzer.category a)
       && str_eqb (MockProductDatabase.category p)
                  (or_empty (BudgetAnalyzer.category a))
    then fadd score f_one else score in
  Ok score)).

(** The loop over the products: the list [scored_products]. *)
Fixpoint score_all (query_lower : str) (a : analysis) (products : list product)
  : M (list (float * product)) :=
  match products with
  | [] => Ok []
  | p :: rest =>
      bind (score_product query_lower a p) (fun score =>
      bind (score_all query_lower a rest) (fun scored =>
      Ok ((score, p) :: scored)))
  end.

Section Ranking.
Context {S : sorter}.

Definition _filter_and_rank (products : list product) (query : str)
           (a : analysis) : M (list product) :=
  match products with
  | [] => Ok []
  | _ =>
      let query_lower := lower query in
      bind (score_all query_lower a products) (fun scored_products =>
      let scored_products :=
        list_sort_reverse (fun x y => fltb (fst x) (fst y)) scored_products in
      Ok (map snd scored_products))
  end.
End Ranking.

(** The two dictionaries [process_query] can return: the one with
    ['success': True] and the one with ['success': False]. *)
Inductive response :=
| Found (query : str) (a : analysis) (products : list product)
        (total_found : nat) (category : option str) (max_budget : option Z)
| Failed (error : string) (query : str) (products : list product).

Definition success (r : response) : bool :=
  match r with
  | Found _ _ _ _ _ _ => true
  | Failed _ _ _ => false
  end.

Definition products (r : response) : list product :=
  match r with
  | Found _ _ ps _ _ _ => ps
  | Failed _ _ ps => ps
  end.

Definition total_found (r : response) : option nat :=
  match r with
  | Found _ _ _ n _ _ => Some n
  | Failed _ _ _ => None
  end.

Definition error (r : response) : option string :=
  match r with
  | Found _ _ _ _ _ _ => None
  | Failed e _ _ => Some e
  end.

(** A computation on the repository: it may raise, and leaves a catalog
    behind either way. *)
Definition DB (A : Type) := catalog -> M A * catalog.

Definition pure {A} (m : M A) : DB A := fun db => (m, db).

Definition bind_db {A B} (m : DB A) (k : A -> DB B) : DB B :=
  fun db =>
    match m db with
    | (Ok a, db') => k a db'
    | (Raise e, db') => (Raise e, db')
    end.

(** [try: body except Exception as e: return handler(e)] *)
Definition try_db {A} (body : DB A) (handler : exn -> A) : DB A :=
  fun db =>
    match body db with
    | (Ok a, db') => (Ok a, db')
    | (Raise e, db') => (Ok (handler e), db')
    end.

Section Pipeline.
Context {S : sorter}.
(** [self.database.search_products(query=..., category=...,
    max_price=...)], for any repository behind the attribute. *)
Variable database_search :
  option str -> option str -> option Z -> DB (list product).

Definition process_query_with (user_query : str) : DB response :=
  try_db
    (bind_db (pure (analyze_budget user_query)) (fun analysis =>
     bind_db (database_search (Some user_query)
                              (BudgetAnalyzer.category analysis)
                              (BudgetAnalyzer.max_budget analysis))
             (fun search_results =>
     bind_db (pure (_filter_and_rank search_results user_query analysis))
             (fun filtered_results =>
     pure (Ok (Found user_query analysis
                     (firstn 3 filtered_results)
                     (List.length search_results)
                     (BudgetAnalyzer.category analysis)
                     (BudgetAnalyzer.max_budget analysis)))))))
    (fun e => Failed (exn_message e) user_query []).
End Pipeline.

Section MockPipeline.
Context {S : sorter}.

(** [self.database] as [__init__] sets it: the mock database. *)
Definition mock_search (query category : option str) (max_price : option Z)
  : DB (list product) :=
  fun db =>
    let '(found, db') := search_products query category max_price
                                         None None None db in
    (Ok found, db').

Definition process_query (user_query : str) : DB response :=
  process_query_with mock_search user_query.
End MockPipeline.

End ShoppingQueryProcessor.

(* ================================================================== *)
(** * The vocabulary of the properties *)
(* ================================================================== *)

Module Spec.
Import Py Re Config BudgetAnalyzer MockProductDatabase ShoppingQueryProcessor.

(** ** Amounts in a query *)

Definition starts_with (p : ascii -> bool) (s : str) : bool :=
  match s with
  | c :: _ => p c
  | [] => false
  end.

(** A non-empty run of digits. *)
Definition is_digits (g : str) : bool :=
  forallb isdigit g && negb (Nat.eqb (List.length g) 0).

Definition comma_groups (gs : list str) : str :=
  flat_map (fun g => ","%char :: g) gs.

(** A whole amount as it is written: a group of digits, then any number
    of groups each behind a comma. *)
Definition amount_text (g : str) (gs : list str) : str := g ++ comma_groups gs.

(** The number a whole amount writes, its separators dropped. *)
Definition amount_value (g : str) (gs : list str) : Z :=
  digits_value (g ++ List.concat gs).

Definition sep_digit (x : ascii) (s : str) : bool :=
  match s with
  | y :: r => ascii_eqb y x && starts_with isdigit r
  | [] => false
  end.

(** The text behind an amount does not carry it on: it begins with no
    digit, and with no comma or point that a digit follows. *)
Definition amount_ends (post : str) : bool :=
  negb (starts_with isdigit post)
  && negb (sep_digit ","%char post) && negb (sep_digit "."%char post).

(** The pattern matches at position [i] of the text. *)
Definition matches_at (r : re) (s : str) (i : nat) : bool :=
  match match_here r (skipn i s) with
  | Some _ => true
  | None => false
  end.

(** The pattern matches somewhere before position [n]. *)
Definition earlier_match (r : re) (s : str) (n : nat) : bool :=
  existsb (matches_at r s) (seq 0 n).

(** The k-shorthand: times 1000 for an amount below 100 when the query has
    a [k] in it. *)
Definition k_shorthand (has_k : bool) (n : Z) : Z :=
  if has_k && (n <? 100)%Z then (n * 1000)%Z else n.

(** The fraction behind a whole amount: a point and the digits [fd], or
    nothing when there are none. *)
Definition fraction_text (fd : str) : str :=
  match fd with
  | [] => []
  | _ => "."%char :: fd
  end.

(** An amount as it is written, whole or with a fraction. *)
Definition decimal_text (g : str) (gs : list str) (fd : str) : str :=
  amount_text g gs ++ fraction_text fd.

(** The same with its commas dropped: the literal [float] is given. *)
Definition decimal_literal (g : str) (gs : list str) (fd : str) : str :=
  (g ++ List.concat gs) ++ fraction_text fd.

(** The text behind an amount does not carry it on: behind a fraction it
    begins with no digit. *)
Definition decimal_ends (fd post : str) : bool :=
  match fd with
  | [] => amount_ends post
  | _ => negb (starts_with isdigit post)
  end.

(** A [k] that is the suffix of a number, as in ["30k"]. *)
Fixpoint k_suffix (s : str) : bool :=
  match s with
  | d :: (c :: _) as r => (isdigit d && ascii_eqb c "k"%char) || k_suffix r
  | _ => false
  end.

(** A [k] that is a word of its own. *)
Definition k_token (s : str) : bool :=
  existsb (str_eqb (txt "k")) (split s).

Definition k_mark (s : str) : bool := k_suffix s || k_token s.

(** The price of an amount by the k rule: [int(float(text))], the float
    times 1000 first when [k] holds and the float is below 100. *)
Definition amount_price (k : bool) (text : str) : M Z :=
  bind (float_of_str text) (fun x =>
  int_of_float (if k && fltb x (nearest_float 100)
                then fmul x (nearest_float 1000) else x)).

(** [float(text) < 100] *)
Definition below_100 (text : str) : bool :=
  match float_of_str text with
  | Ok x => fltb x (nearest_float 100)
  | Raise _ => false
  end.

(** The first way the matcher finds. *)
Definition first_is (r : re) (s : str) (c : caps) (x : str * caps) : Prop :=
  exists tl, run r s c = x :: tl.

Definition comma_group : re := Seq (Lit (txt ",")) (Rep isdigit 1).

(** The price arithmetic on one integer below 128, checked by running it. *)
Definition small_ok (v : Z) : bool :=
  match int_of_float (fmul (round_quotient v 1) (nearest_float 1000)) with
  | Ok n => (n =? v * 1000)%Z
  | Raise _ => false
  end
  && Bool.eqb (fltb (round_quotient v 1) (nearest_float 100)) (v <? 100)%Z.

(** ** Budget tiers *)

Definition tier_keywords (tier : string) : list str :=
  match dict_get BUDGET_KEYWORDS (txt tier) with
  | Some ks => ks
  | None => []
  end.

(** Some keyword of the tier is a substring of the text. *)
Definition tier_hit (tier : string) (s : str) : Prop :=
  exists k u v, In k (tier_keywords tier) /\ s = u ++ k ++ v.

(** ** Order of a sorted list *)

(** Neighbours are in order when the later one is not smaller. *)
Definition in_order {A} (lt : A -> A -> bool) (a b : A) : Prop :=
  lt b a = false.

Definition is_nan (x : float) : bool :=
  match x with S754_nan => true | _ => false end.

(** Better rated first, and the cheaper first among the equally rated. *)
Definition rating_then_price (a b : product) : Prop :=
  fltb (rating b) (rating a) = true
  \/ (feqb (rating a) (rating b) = true /\ (price a <= price b)%Z).

(** A key that orders the floats that are numbers as [<] does: the sign,
    then the exponent and the mantissa, both turned round below zero.
    The two zeros have one key. *)
Definition float_key (x : float) : Z * (Z * Z) :=
  match x with
  | S754_infinity true => (-2, (0, 0))
  | S754_finite true m e => (-1, (- e, - Zpos m))
  | S754_zero _ | S754_nan => (0, (0, 0))
  | S754_finite false m e => (1, (e, Zpos m))
  | S754_infinity false => (2, (0, 0))
  end%Z.

Definition key_lt (a b : Z * (Z * Z)) : Prop :=
  (fst a < fst b
   \/ (fst a = fst b
       /\ (fst (snd a) < fst (snd b)
           \/ (fst (snd a) = fst (snd b) /\ snd (snd a) < snd (snd b)))))%Z.

(** ** The score as a sum *)

(** Python's [+] on two numbers: exact on two ints, in binary64 once a
    float is involved. *)
Definition num_add (a b : num) : M num :=
  match a, b with
  | Int x, Int y => Ok (Int (x + y))
  | _, _ =>
      bind (to_float a) (fun x =>
      bind (to_float b) (fun y => Ok (Float (fadd x y))))
  end.

(** The terms of a score added up from [0], in the order given. *)
Definition sum_terms (terms : list num) : M num :=
  fold_left (fun acc t => bind acc (fun s => num_add s t)) terms (Ok (Int 0)).

(** How many elements of [l] pass [f]. *)
Definition count_hits {A} (f : A -> bool) (l : list A) : Z :=
  Z.of_nat (List.length (filter f l)).

Definition color_hit (query_lower : str) (p : product) (c : str) : bool :=
  contains c query_lower && contains c (lower (color p)).

(** The color term as the specification words it: 3, once, when some
    color word is in the query and in the product's color. *)
Definition color_term_once (query_lower : str) (p : product) : Z :=
  if existsb (color_hit query_lower p) COLOR_KEYWORDS then 3 else 0.

(** The same, read with the product's color being that very word. *)
Definition color_term_exact (query_lower : str) (p : product) : Z :=
  if existsb (fun c => contains c query_lower && str_eqb c (lower (color p)))
             COLOR_KEYWORDS
  then 3 else 0.

(** The color term of the code: 3 for each such color word. *)
Definition color_term_each (query_lower : str) (p : product) : Z :=
  3 * count_hits (color_hit query_lower p) COLOR_KEYWORDS.

(** The price-fit term: absent without a ceiling. *)
Definition price_fit (a : analysis) (p : product) : M (list num) :=
  if truthy_int (BudgetAnalyzer.max_budget a) then
    match BudgetAnalyzer.max_budget a with
    | Some mb =>
        bind (int_truediv (price p) mb) (fun r =>
        if fleb r f_one
        then Ok [Float (fmul (fsub f_one r) f_two)]
        else Ok [Int (-5)])
    | None => Ok []
    end
  else Ok [].

(** The score as the sum of its six terms, for a given color term. *)
Definition score_formula (color_term : str -> product -> Z)
           (query_lower : str) (a : analysis) (p : product) : M float :=
  bind (price_fit a p) (fun fit =>
  bind (sum_terms
          ([ Int (2 * count_hits (fun t => contains t (product_text p))
                                 (split query_lower));
             Int (color_term query_lower p);
             Int (if contains (lower (brand p)) query_lower then 2 else 0) ]
           ++ fit
           ++ [ Float (fmul (rating p) f_one_and_half) ]
           ++ (if truthy_str (BudgetAnalyzer.category a)
                  && str_eqb (MockProductDatabase.category p)
                             (or_empty (BudgetAnalyzer.category a))
               then [ Int 1 ] else [])))
       to_float).

(** ** Stages of the pipeline *)

Section Stages.
Context {S : sorter}.

(** The three ways a stage raises, each with the catalog it leaves. *)
Inductive stage_raises
          (search : option str -> option str -> option Z -> DB (list product))
          (q : str) (db : catalog) : exn -> catalog -> Prop :=
| extraction_raises e :
    analyze_budget q = Raise e -> stage_raises search q db e db
| retrieval_raises a e db' :
    analyze_budget q = Ok a ->
    search (Some q) (BudgetAnalyzer.category a) (BudgetAnalyzer.max_budget a) db
    = (Raise e, db') ->
    stage_raises search q db e db'
| scoring_raises a found e db' :
    analyze_budget q = Ok a ->
    search (Some q) (BudgetAnalyzer.category a) (BudgetAnalyzer.max_budget a) db
    = (Ok found, db') ->
    _filter_and_rank found q a = Raise e ->
    stage_raises search q db e db'.

(** All three stages going through. *)
Definition stages_pass
           (search : option str -> option str -> option Z -> DB (list product))
           (q : str) (db : catalog) (a : analysis)
           (found ranked : list product) (db' : catalog) : Prop :=
  analyze_budget q = Ok a
  /\ search (Some q) (BudgetAnalyzer.category a) (BudgetAnalyzer.max_budget a) db
     = (Ok found, db')
  /\ _filter_and_rank found q a = Ok ranked.

(** The catalog the mock repository holds after runs of [process_query]
    on the queries [qs], one after the other. *)
Definition catalog_after (qs : list str) (db : catalog) : catalog :=
  fold_left (fun db q => snd (process_query q db)) qs db.
End Stages.

(** ** Sample data *)

(** [4.5] *)
Definition f_4_5 : float := round_quotient 9 2.
(** [4.0] *)
Definition f_4_0 : float := nearest_float 4.

(** The entry [_load_mock_data] falls back to. *)
Definition nike_air_max : product :=
  {| name := txt "Red Nike Air Max";
     price := 2499;
     rating := f_4_5;
     image_url := txt "https://via.placeholder.com/300x200/ff0000/ffffff?text=Nike+Red";
     description := txt "Comfortable running shoes with Air Max cushioning";
     buy_link := txt "https://amazon.in/nike-red";
     MockProductDatabase.category := txt "apparel";
     brand := txt "Nike";
     color := txt "red";
     platform := txt "Amazon" |}.

Definition macbook : product :=
  {| name := txt "MacBook Air M2";
     price := 99900;
     rating := f_4_5;
     image_url := txt "https://example.com/macbook.png";
     description := txt "Thin and light laptop";
     buy_link := txt "https://example.com/macbook";
     MockProductDatabase.category := txt "electronics";
     brand := txt "Apple";
     color := txt "silver";
     platform := txt "Amazon" |}.

Definition thinkpad : product :=
  {| name := txt "ThinkPad E14";
     price := 64990;
     rating := f_4_0;
     image_url := txt "https://example.com/thinkpad.png";
     description := txt "Business laptop";
     buy_link := txt "https://example.com/thinkpad";
     MockProductDatabase.category := txt "electronics";
     brand := txt "Lenovo";
     color := txt "black";
     platform := txt "Flipkart" |}.

(** A jacket in two colors. *)
Definition two_tone_jacket : product :=
  {| name := txt "Windbreaker";
     price := 1500;
     rating := f_4_0;
     image_url := txt "https://example.com/jacket.png";
     description := txt "Light jacket";
     buy_link := txt "https://example.com/jacket";
     MockProductDatabase.category := txt "apparel";
     brand := txt "Acme";
     color := txt "red/blue";
     platform := txt "Amazon" |}.

Definition sample_catalog : catalog := [ thinkpad; macbook; nike_air_max ].

(** A catalog with four laptops. *)
Definition big_catalog : catalog :=
  [ thinkpad; macbook; nike_air_max; thinkpad; macbook ].

(** A query whose amount is too large for a float: 400 nines. *)
Definition huge_query : str := txt "under " ++ repeat "9"%char 400.

(** [p] at another price. *)
Definition with_price (n : Z) (p : product) : product :=
  {| name := name p;
     price := n;
     rating := rating p;
     image_url := image_url p;
     description := description p;
     buy_link := buy_link p;
     MockProductDatabase.category := MockProductDatabase.category p;
     brand := brand p;
     color := color p;
     platform := platform p |}.

(** A price of 5001 digits, more than [int.__repr__] writes. *)
Definition huge_price : Z := (10 ^ 5000)%Z.

End Spec.

(* ================================================================== *)
(** * mock_database.py, the other methods *)
(* ================================================================== *)

Module MockProductDatabaseOps.
Import Py MockProductDatabase.

(** [self.products.append(product)] *)
Definition add_product (p : product) (products : catalog) : catalog :=
  products ++ [p].

(** [min(l)] and [max(l)] of a list of ints that is not empty *)
Definition py_min (x : Z) (l : list Z) : Z := fold_left Z.min l x.
Definition py_max (x : Z) (l : list Z) : Z := fold_left Z.max l x.

(** The dictionary [{'min': ..., 'max': ...}] *)
Record price_range := {
  range_min : Z;
  range_max : Z
}.

(** [[p for p in products if p['category'] == category]] behind
    [if category:] *)
Definition of_category (category : option str) (products : catalog)
  : list product :=
  if truthy_str category
  then filter (fun p => str_eqb (MockProductDatabase.category p)
                                (or_empty category)) products
  else products.

Definition get_price_range (category : option str) (products : catalog)
  : price_range :=
  let products := of_category category products in
  match map price products with
  | [] => {| range_min := 0; range_max := 0 |}
  | x :: prices => {| range_min := py_min x prices;
                      range_max := py_max x prices |}
  end.

(** [l[:limit]] for an int [limit]: a negative one counts from the end. *)
Definition slice_to {A} (limit : Z) (l : list A) : list A :=
  if (limit <? 0)%Z
  then firstn (Z.to_nat (Z.of_nat (List.length l) + limit)) l
  else firstn (Z.to_nat limit) l.

(** [sorted(products, key=lambda x: x['rating'], reverse=True)[:limit]];
    [sorted] builds a new list. *)
Definition get_top_rated {S : sorter} (category : option str) (limit : Z)
           (products : catalog) : list product :=
  let products := of_category category products in
  slice_to limit
           (list_sort_reverse (fun a b => fltb (rating a) (rating b))
                              products).

End MockProductDatabaseOps.

(* ================================================================== *)
(** * budget_analyzer.py and shopping_processor.py, the suggestions *)
(* ================================================================== *)

Module SuggestionOps.
Import Py Config BudgetAnalyzer MockProductDatabase ShoppingQueryProcessor.
Import MockProductDatabaseOps.

(** [sum(1 for keyword in keywords if keyword in query_lower)] *)
Definition keyword_score (keywords : list str) (query_lower : str) : Z :=
  Z.of_nat (List.length (filter (fun keyword => contains keyword query_lower)
                                keywords)).

(** The list [suggestions] before it is sorted. *)
Definition scored_categories (query_lower : str) : list (str * Z) :=
  flat_map (fun ck =>
              let score := keyword_score (snd ck) query_lower in
              if (0 <? score)%Z then [(fst ck, score)] else [])
           CATEGORY_KEYWORDS.

Definition get_category_suggestions {S : sorter} (query : str) : list str :=
  let query_lower := lower query in
  let suggestions := scored_categories query_lower in
  let suggestions :=
    list_sort_reverse (fun x y => (snd x <? snd y)%Z) suggestions in
  map fst suggestions.

(** [{**price_range, 'currency': 'INR'}] *)
Record priced_range := {
  currency_min : Z;
  currency_max : Z;
  currency : str
}.

(** The dictionary [suggestions] of [get_suggestions]. *)
Record suggestions := {
  categories : list str;
  suggested_range : option priced_range;
  popular_brands : list str;
  sample_products : list product
}.

Section GetSuggestions.
Context {S : sorter}.
(** [list(set(xs))]: the order a set gives its elements back in is the
    interpreter's, and is a parameter here. *)
Variable list_of_set : list str -> list str.

(** [get_suggestions] has no handler: what [analyze_budget] raises, it
    raises. *)
Definition get_suggestions (query : str) : DB suggestions :=
  bind_db (pure (analyze_budget query)) (fun analysis =>
  let categories :=
    if negb (truthy_str (BudgetAnalyzer.category analysis))
    then get_category_suggestions query else [] in
  if truthy_str (BudgetAnalyzer.category analysis)
  then
    fun db =>
      let range := get_price_range (BudgetAnalyzer.category analysis) db in
      let '(products, db') :=
        search_products None (BudgetAnalyzer.category analysis) None
                        None None None db in
      let brands := list_of_set (map brand products) in
      (Ok {| categories := categories;
             suggested_range :=
               Some {| currency_min := range_min range;
                       currency_max := range_max range;
                       currency := txt "INR" |};
             popular_brands := firstn 5 brands;
             sample_products := firstn 3 products |},
       db')
  else
    pure (Ok {| categories := categories;
                suggested_range := None;
                popular_brands := [];
                sample_products := [] |})).
End GetSuggestions.

End SuggestionOps.

(* ================================================================== *)
(** * app.py, the search and the suggestions endpoint *)
(* ================================================================== *)

Module App.
Import Py Config MockProductDatabase ShoppingQueryProcessor.

(** [INPUT_CONSTRAINTS] of config.py *)
Definition min_query_length : Z := 2.
Definition max_query_length : Z := 500.

(** [str.isalnum] on one code point of the alphabet. *)
Definition isalnum (c : ascii) : bool :=
  let n := code c in
  in_range 48 57 n || in_range 65 90 n || in_range 97 122 n
  || (n =? 170)%N || in_range 178 179 n || (n =? 181)%N
  || in_range 185 186 n || in_range 188 190 n
  || in_range 192 214 n || in_range 216 246 n || in_range 248 255 n.

(** What [jsonify] is given. *)
Inductive body :=
| ErrorBody (error : string)
| ResultBody (r : response)
| SuggestionsBody (s : SuggestionOps.suggestions).

(** ** [jsonify]

    The encoder writes a string, a boolean, [None] and a float (a NaN
    and the infinities too) whatever they are, and an int through
    [int.__repr__], which raises [ValueError] for an int of more digits
    than [sys.get_int_max_str_digits()], 4300 as the interpreter starts.
    A length is a machine integer and always passes. *)
Definition int_max_str_digits : Z := 4300.

Definition int_repr_ok (n : Z) : bool :=
  (Z.abs n <? 10 ^ int_max_str_digits)%Z.

Definition digit_limit : exn :=
  ValueError "Exceeds the limit (4300 digits) for integer string conversion; use sys.set_int_max_str_digits() to increase the limit".

Definition int_of_option (x : option Z) : list Z :=
  match x with
  | Some n => [n]
  | None => []
  end.

(** The ints of a body that are not lengths. *)
Definition body_ints (b : body) : list Z :=
  match b with
  | ErrorBody _ => []
  | ResultBody (Found _ a ps _ _ mb) =>
      int_of_option (BudgetAnalyzer.max_budget a)
      ++ int_of_option (BudgetAnalyzer.specific_budget a)
      ++ map price ps ++ int_of_option mb
  | ResultBody (Failed _ _ ps) => map price ps
  | SuggestionsBody s =>
      match SuggestionOps.suggested_range s with
      | Some r => [SuggestionOps.currency_min r; SuggestionOps.currency_max r]
      | None => []
      end
      ++ map price (SuggestionOps.sample_products s)
  end.

Definition jsonify (b : body) : M body :=
  if forallb int_repr_ok (body_ints b) then Ok b else Raise digit_limit.

(** [return jsonify(b), status] *)
Definition respond (status : nat) (b : body) : M (nat * body) :=
  bind (jsonify b) (fun response => Ok (status, response)).

Section Views.
Context {S : sorter}.

(** The view function [search], on the string under the key ['query'] of
    the request's JSON object ([None] when the key is missing); the answer
    is the status code and the body.  The rate limiter wrapped around the
    view is not part of it.  The handler's own [jsonify] is given a
    string only. *)
Definition search (query_field : option str) : DB (nat * body) :=
  try_db
    (let query := strip (or_empty query_field) in
     match query with
     | [] => pure (respond 400 (ErrorBody "Query cannot be empty"))
     | _ =>
         if (Z.of_nat (List.length query) <? min_query_length)%Z
         then pure (respond 400
                      (ErrorBody "Query too short (minimum 2 characters)"))
         else if (max_query_length <? Z.of_nat (List.length query))%Z
         then pure (respond 400
                      (ErrorBody "Query too long (maximum 500 characters)"))
         else if negb (existsb isalnum query)
         then pure (respond 400
                      (ErrorBody "Query must contain alphanumeric characters"))
         else
           bind_db (process_query query) (fun result =>
           pure (respond 200 (ResultBody result)))
     end)
    (fun e => (500%nat, ErrorBody "Internal server error")).

(** The view function [suggestions], on the argument ['query'] of the
    request ([None] when it is missing), for an order [list_of_set] of
    [list(set(...))]. *)
Variable list_of_set : list str -> list str.

Definition suggestions (query_arg : option str) : DB (nat * body) :=
  try_db
    (let query := strip (or_empty query_arg) in
     match query with
     | [] => pure (respond 400 (ErrorBody "Query parameter required"))
     | _ =>
         bind_db (SuggestionOps.get_suggestions list_of_set query)
                 (fun suggestions =>
         pure (respond 200 (SuggestionsBody suggestions)))
     end)
    (fun e => (500%nat, ErrorBody (exn_message e))).
End Views.

End App.

(* ================================================================== *)
(** * The vocabulary of the further properties *)
(* ================================================================== *)

Module SpecMore.
Import Py Re Config BudgetAnalyzer MockProductDatabase ShoppingQueryProcessor.
Import Spec MockProductDatabaseOps SuggestionOps.

(** [s] has [k] inside. *)
Definition substring (k s : str) : Prop := exists u v, s = u ++ k ++ v.

(** A criterion of [search_products] that counts: a string that is
    neither [None] nor empty, a ceiling that is neither [None] nor 0. *)
Definition given_str (x : option str) (s : str) : Prop :=
  x = Some s /\ s <> [].

Definition given_int (x : option Z) (n : Z) : Prop :=
  x = Some n /\ n <> 0%Z.

(** The product meets every criterion that counts. *)
Definition meets_criteria (query category : option str) (max_price : option Z)
           (brand color platform : option str) (p : product) : Prop :=
  (forall c, given_str category c -> MockProductDatabase.category p = c)
  /\ (forall m, given_int max_price m -> (price p <= m)%Z)
  /\ (forall b, given_str brand b ->
                substring (lower b) (lower (MockProductDatabase.brand p)))
  /\ (forall c, given_str color c ->
                substring (lower c) (lower (MockProductDatabase.color p)))
  /\ (forall pl, given_str platform pl ->
                 lower (MockProductDatabase.platform p) = lower pl)
  /\ (forall q, given_str query q ->
        (exists w field,
            In w (split (lower q))
            /\ In field [ name p; description p; MockProductDatabase.category p;
                          MockProductDatabase.brand p;
                          MockProductDatabase.color p ]
            /\ substring w (lower field))
        /\ (substring (txt "non-apple") (lower q) ->
            ~ substring (txt "apple") (lower (MockProductDatabase.brand p)))).

(** Some criterion counts. *)
Definition some_criterion (query category : option str) (max_price : option Z)
           (brand color platform : option str) : bool :=
  truthy_str query || truthy_str category || truthy_int max_price
  || truthy_str brand || truthy_str color || truthy_str platform.

(** ** Categories *)

Definition category_keywords (c : string) : list str :=
  match dict_get CATEGORY_KEYWORDS (txt c) with
  | Some ks => ks
  | None => []
  end.

(** Some keyword of the category is inside the text. *)
Definition category_hit (c : string) (s : str) : Prop :=
  exists k, In k (category_keywords c) /\ substring k s.

Definition exclusion_phrases : list str :=
  map txt [ "non-apple"; "not apple"; "excluding apple" ]%string.

Definition computer_words : list str :=
  map txt [ "laptop"; "computer"; "macbook" ]%string.

(** The special case of [_detect_category]: a phrase that excludes Apple
    and a word for a computer are both inside the text. *)
Definition exclusion_case (s : str) : Prop :=
  (exists e, In e exclusion_phrases /\ substring e s)
  /\ (exists k, In k computer_words /\ substring k s).

(** A keyword that is not empty and has no blank at either end. *)
Definition clean_keyword (k : str) : bool :=
  negb (Nat.eqb (List.length k) 0)
  && negb (starts_with isspace k) && negb (starts_with isspace (rev k)).

(** The number of keywords of the category [c] inside the text, 0 for a
    name that is no category. *)
Definition category_score (query_lower : str) (c : str) : Z :=
  match dict_get CATEGORY_KEYWORDS c with
  | Some ks => keyword_score ks query_lower
  | None => 0%Z
  end.

(** The float is none of the negative ones. *)
Definition not_negative (x : float) : Prop :=
  match x with
  | S754_zero _ => True
  | S754_nan => True
  | S754_infinity s => s = false
  | S754_finite s _ _ => s = false
  end.

(** The finite floats of binary64: 53 bits of mantissa, an exponent of
    at most 971. *)
Definition in_range (x : float) : Prop :=
  match x with
  | S754_finite _ m e => (Zpos m < 2 ^ 53 /\ e <= 971)%Z
  | _ => True
  end.

(** [a] with another [original_query]. *)
Definition with_query (q : str) (a : analysis) : analysis :=
  {| BudgetAnalyzer.category := BudgetAnalyzer.category a;
     max_budget := max_budget a;
     budget_type := budget_type a;
     specific_budget := specific_budget a;
     original_query := q |}.

(** ** More sample data *)

Definition budget_headphones : product :=
  {| name := txt "Boat Rockerz Headphones";
     price := 1499;
     rating := f_4_0;
     image_url := txt "https://example.com/rockerz.png";
     description := txt "Wireless headphones";
     buy_link := txt "https://example.com/rockerz";
     MockProductDatabase.category := txt "electronics";
     brand := txt "Boat";
     color := txt "black";
     platform := txt "Amazon" |}.

Definition wireless_phone : product :=
  {| name := txt "Redmi Note 12";
     price := 14999;
     rating := f_4_0;
     image_url := txt "https://example.com/redmi.png";
     description := txt "Phone with wireless charging";
     buy_link := txt "https://example.com/redmi";
     MockProductDatabase.category := txt "mobiles";
     brand := txt "Redmi";
     color := txt "blue";
     platform := txt "Flipkart" |}.

Definition audio_catalog : catalog := [ budget_headphones; wireless_phone ].

(** The stripped query the search endpoint lets through: from 2 to 500
    characters, one of them a letter or a digit. *)
Definition acceptable (query : str) : bool :=
  (2 <=? Z.of_nat (List.length query))%Z
  && (Z.of_nat (List.length query) <=? 500)%Z
  && existsb App.isalnum query.

(** What [analyze_budget] makes of a query with nothing in it. *)
Definition blank_analysis (q : str) : analysis :=
  {| BudgetAnalyzer.category := None;
     max_budget := Some 50000%Z;
     budget_type := txt "low";
     specific_budget := None;
     original_query := q |}.

(** The words of the first budget pattern, and those of the second. *)
Definition under_words : list str :=
  map txt [ "under"; "below"; "less than"; "upto" ]%string.

Definition around_words : list str := map txt [ "around"; "about" ]%string.

(** The ways to write the currency mark, behind one blank, that the
    patterns let through: none, ["rs"] or ["rs."], with a blank behind or
    without. *)
Definition currency_marks : list str :=
  map txt [ ""; "rs"; "rs."; "rs "; "rs. " ]%string.

(** The phrase of the word [w] at position [n] of the text [s] is the one
    [_extract_price] takes: the pattern of [w] matches nowhere before
    [n], and for a word of the second pattern the first matches nowhere
    at all. *)
Definition phrase_taken (w s : str) (n : nat) : Prop :=
  (In w under_words /\ earlier_match under_pattern s n = false)
  \/ (In w around_words
      /\ Re.search under_pattern s = None
      /\ earlier_match around_pattern s n = false).

End SpecMore.

(* ================================================================== *)
(** * Properties *)
(* ================================================================== *)

Unset Implicit Arguments.

Import Py Re Config BudgetAnalyzer MockProductDatabase ShoppingQueryProcessor.
Import Spec.
Local Open Scope Z_scope.

(** ** Strings and the analyzer *)

Lemma ascii_eqb_eq a b : ascii_eqb a b = true <-> a = b.
Proof. apply Ascii.eqb_eq. Qed.

Lemma str_eqb_eq a b : str_eqb a b = true <-> a = b.
Proof.
  revert b; induction a as [|x a IH]; intros [|y b]; simpl; split;
    try congruence; auto.
  - intros H. apply andb_true_iff in H as [H1 H2].
    apply ascii_eqb_eq in H1. apply IH in H2. congruence.
  - intros H. injection H as -> ->. apply andb_true_iff; split.
    + now apply ascii_eqb_eq.
    + now apply IH.
Qed.

Lemma startswith_spec p s : startswith p s = true <-> exists r, s = p ++ r.
Proof.
  revert s; induction p as [|x p IH]; intros s; simpl.
  - split; eauto.
  - destruct s as [|y s].
    + split; [discriminate | intros [r H]; discriminate].
    + rewrite andb_true_iff, ascii_eqb_eq, IH. split.
      * intros [-> [r ->]]. now exists r.
      * intros [r H]. injection H as -> ->. eauto.
Qed.

(** [p in s] holds exactly when [p] is a substring of [s]. *)
Lemma contains_spec p s :
  contains p s = true <-> exists a b, s = a ++ p ++ b.
Proof.
  induction s as [|y s IH].
  - simpl. rewrite orb_false_r, startswith_spec. split.
    + intros [r H]. exists [], r. exact H.
    + intros [a [b H]]. destruct a; simpl in H.
      * now exists b.
      * discriminate.
  - change (contains p (y :: s)) with (startswith p (y :: s) || contains p s).
    rewrite orb_true_iff, startswith_spec, IH. split.
    + intros [[r H] | [a [b H]]].
      * exists [], r. exact H.
      * exists (y :: a), b. simpl. now rewrite H.
    + intros [a [b H]]. destruct a as [|x a]; simpl in H.
      * left. now exists b.
      * right. injection H as _ ->. now exists a, b.
Qed.

Lemma first_hit_In table q k :
  first_hit table q = Some k -> In k (map fst table).
Proof.
  induction table as [|[key kws] rest IH]; simpl; [discriminate|].
  destruct (any_in kws q).
  - intros H. injection H as ->. now left.
  - intros H. right. now apply IH.
Qed.

Lemma bind_Ok {A B} (m : M A) (k : A -> M B) b :
  bind m k = Ok b -> exists a, m = Ok a /\ k a = Ok b.
Proof. destruct m; simpl; [eauto | discriminate]. Qed.

Lemma detect_category_cases q c :
  _detect_category q = Some c ->
  In c [txt "apparel"; txt "mobiles"; txt "electronics"].
Proof.
  unfold _detect_category.
  destruct (_ && _).
  - intros H. injection H as <-. right; right; left. reflexivity.
  - intros H. apply first_hit_In in H. exact H.
Qed.

Lemma detect_budget_type_cases q t :
  _detect_budget_type q = Ok t ->
  exists p, _extract_price q = Ok p /\
    if truthy_int p then t = txt "specific"
    else t = match first_hit BUDGET_KEYWORDS q with
             | Some k => k
             | None => txt "low"
             end.
Proof.
  unfold _detect_budget_type. intros H.
  apply bind_Ok in H as [p [Hp H]]. exists p. split; [exact Hp|].
  destruct (truthy_int p).
  - congruence.
  - destruct (first_hit BUDGET_KEYWORDS q).
    + congruence.
    + destruct (any_in _ q); congruence.
Qed.

(** What [analyze_budget] returns, field by field. *)
Lemma analyze_budget_inv q a :
  analyze_budget q = Ok a ->
  let ql := strip (lower q) in
  exists p,
    _extract_price ql = Ok p /\
    specific_budget a = p /\
    BudgetAnalyzer.category a = _detect_category ql /\
    original_query a = q /\
    (if truthy_int p
     then budget_type a = txt "specific" /\ max_budget a = p
     else budget_type a = match first_hit BUDGET_KEYWORDS ql with
                          | Some k => k
                          | None => txt "low"
                          end
          /\ max_budget a = Some (default_budget (BudgetAnalyzer.category a) (budget_type a))).
Proof.
  intros H ql. unfold analyze_budget in H. fold ql in H.
  apply bind_Ok in H as [t [Ht H]].
  apply bind_Ok in H as [p [Hp H]].
  apply detect_budget_type_cases in Ht as [p' [Hp' Ht]].
  assert (p' = p) by congruence. subst p'.
  exists p. injection H as <-. simpl.
  repeat split; auto.
  destruct (truthy_int p); auto.
Qed.

Lemma tier_cases q :
  In (match first_hit BUDGET_KEYWORDS q with Some k => k | None => txt "low" end)
     [txt "low"; txt "medium"; txt "high"].
Proof.
  destruct (first_hit BUDGET_KEYWORDS q) eqn:E.
  - apply first_hit_In in E. exact E.
  - now left.
Qed.

(** ** The matcher *)

Lemma first_seq a b s c s1 c1 y :
  first_is a s c (s1, c1) -> first_is b s1 c1 y -> first_is (Seq a b) s c y.
Proof.
  intros [t1 H1] [t2 H2]. unfold first_is. simpl. rewrite H1. simpl.
  rewrite H2. simpl. eauto.
Qed.

Lemma first_alt_l a b s c x : first_is a s c x -> first_is (Alt a b) s c x.
Proof. intros [t H]. unfold first_is. simpl. rewrite H. simpl. eauto. Qed.

Lemma first_alt_r a b s c x :
  run a s c = [] -> first_is b s c x -> first_is (Alt a b) s c x.
Proof. intros H [t H2]. unfold first_is. simpl. rewrite H, H2. simpl. eauto. Qed.

Lemma first_opt_skip a s c : run a s c = [] -> first_is (Opt a) s c (s, c).
Proof. intros H. unfold first_is. simpl. rewrite H. simpl. eauto. Qed.

Lemma first_group n a s c s1 c1 :
  first_is a s c (s1, c1) ->
  first_is (Group n a) s c
           (s1, (n, firstn (List.length s - List.length s1) s) :: c1).
Proof. intros [t H]. unfold first_is. simpl. rewrite H. simpl. eauto. Qed.

Lemma downto_head n : exists tl, downto n = n :: tl.
Proof. destruct n; simpl; eauto. Qed.

Lemma first_rep p min s c :
  (min <= List.length (takewhile p s))%nat ->
  first_is (Rep p min) s c (skipn (List.length (takewhile p s)) s, c).
Proof.
  intros H. unfold first_is. simpl. unfold rep_choices.
  destruct (downto_head (List.length (takewhile p s))) as [tl ->].
  simpl. apply Nat.leb_le in H. rewrite H. simpl. eauto.
Qed.

Lemma takewhile_app p w r :
  forallb p w = true -> starts_with p r = false -> takewhile p (w ++ r) = w.
Proof.
  intros Hw Hr. induction w as [|x w IH]; simpl in *.
  - destruct r as [|y r]; simpl in *; [reflexivity | now rewrite Hr].
  - apply andb_true_iff in Hw as [Hx Hw]. rewrite Hx. f_equal. auto.
Qed.

Lemma skipn_length_app {A} (w r : list A) : skipn (List.length w) (w ++ r) = r.
Proof. induction w; simpl; auto. Qed.

(** A non-empty run of the class, the longest there is, is what [c+]
    takes first. *)
Lemma first_rep_run p w r c :
  forallb p w = true -> w <> [] -> starts_with p r = false ->
  first_is (Rep p 1) (w ++ r) c (r, c).
Proof.
  intros Hw Hne Hr.
  pose proof (first_rep p 1 (w ++ r) c) as H.
  rewrite (takewhile_app p w r Hw Hr), skipn_length_app in H.
  apply H. destruct w; [congruence | simpl; lia].
Qed.

Lemma first_rep0_none p s c : starts_with p s = false -> first_is (Rep p 0) s c (s, c).
Proof.
  intros H. unfold first_is. simpl. unfold rep_choices.
  destruct s as [|x s]; simpl in *; [eauto|].
  rewrite H. simpl. eauto.
Qed.

Lemma star_first_stop step fuel s c :
  step s c = [] -> exists tl, star_loop step fuel s c = (s, c) :: tl.
Proof. intros H. destruct fuel; simpl; [eauto|]. rewrite H. simpl. eauto. Qed.

Lemma star_first_more step fuel s c s1 c1 tl x :
  step s c = (s1, c1) :: tl ->
  (List.length s1 < List.length s)%nat ->
  (exists t, star_loop step fuel s1 c1 = x :: t) ->
  exists t, star_loop step (S fuel) s c = x :: t.
Proof.
  intros H Hl [t Ht]. simpl. rewrite H. simpl.
  apply Nat.ltb_lt in Hl. rewrite Hl, Ht. simpl. eauto.
Qed.

(** ** The first budget pattern *)

Ltac ascii_cases d := destruct d as [[] [] [] [] [] [] [] []].

Lemma digit_not_space d : isdigit d = true -> isspace d = false.
Proof. ascii_cases d; vm_compute; congruence. Qed.

Lemma digit_not_r d :
  isdigit d = true -> ascii_eqb (lower_char "r"%char) (lower_char d) = false.
Proof. ascii_cases d; vm_compute; congruence. Qed.

Lemma lower_is_comma y :
  ascii_eqb (lower_char ","%char) (lower_char y) = ascii_eqb y ","%char.
Proof. ascii_cases y; vm_compute; congruence. Qed.

Lemma lower_is_dot y :
  ascii_eqb (lower_char "."%char) (lower_char y) = ascii_eqb y "."%char.
Proof. ascii_cases y; vm_compute; congruence. Qed.

Lemma lit_match_prefix p r : lit_match p (p ++ r) = Some r.
Proof.
  induction p as [|x p IH]; simpl; [reflexivity|].
  unfold ascii_eqb. now rewrite Ascii.eqb_refl.
Qed.

Lemma first_lit p r c : first_is (Lit p) (p ++ r) c (r, c).
Proof. unfold first_is. simpl. rewrite lit_match_prefix. eauto. Qed.

(** [x\d+] finds nothing where no [x] and a digit follow. *)
Lemma run_sep_digits_none x s c :
  (forall y, ascii_eqb (lower_char x) (lower_char y) = ascii_eqb y x) ->
  sep_digit x s = false ->
  run (Seq (Lit [x]) (Rep isdigit 1)) s c = [].
Proof.
  intros Hx H. cbn [run flat_map].
  destruct s as [|y r]; [reflexivity|].
  cbn [lit_match]. rewrite Hx. simpl in H.
  destruct (ascii_eqb y x); simpl in *; [|reflexivity].
  unfold rep_choices.
  destruct r as [|z r]; simpl in *; [reflexivity|].
  rewrite H. reflexivity.
Qed.

Lemma is_digits_inv g :
  is_digits g = true -> forallb isdigit g = true /\ g <> [].
Proof.
  unfold is_digits. intros H. apply andb_true_iff in H as [H1 H2].
  split; [exact H1|]. destruct g; [discriminate | discriminate].
Qed.

Lemma amount_ends_inv post :
  amount_ends post = true ->
  starts_with isdigit post = false
  /\ sep_digit ","%char post = false /\ sep_digit "."%char post = false.
Proof.
  unfold amount_ends. intros H.
  apply andb_true_iff in H as [H H3]. apply andb_true_iff in H as [H1 H2].
  repeat split; now apply negb_true_iff.
Qed.

Lemma comma_groups_no_digit gs post :
  starts_with isdigit post = false ->
  starts_with isdigit (comma_groups gs ++ post) = false.
Proof. intros H. destruct gs; simpl; auto. Qed.

(** The loop [(?:,\d+)*] runs through every group of the amount. *)
Lemma first_star_groups gs : forall fuel post c,
  Forall (fun g => is_digits g = true) gs ->
  amount_ends post = true ->
  (List.length (comma_groups gs ++ post) <= fuel)%nat ->
  exists t, star_loop (run comma_group) fuel (comma_groups gs ++ post) c
            = (post, c) :: t.
Proof.
  induction gs as [|g gs IH]; intros fuel post c Hgs Hpost Hfuel.
  - change (comma_groups [] ++ post) with post. apply star_first_stop.
    apply amount_ends_inv in Hpost as (_ & H & _).
    apply (run_sep_digits_none ","%char); [apply lower_is_comma | exact H].
  - inversion Hgs as [|? ? Hg Hgs']; subst.
    apply is_digits_inv in Hg as [Hg Hne].
    pose proof Hpost as Hpost'.
    apply amount_ends_inv in Hpost' as (Hd & _ & _).
    change (comma_groups (g :: gs) ++ post)
      with ([","%char] ++ (g ++ comma_groups gs) ++ post) in *.
    rewrite <- app_assoc in *.
    destruct fuel as [|fuel]; [simpl in Hfuel; lia|].
    assert (Hstep : first_is comma_group
                      ([","%char] ++ g ++ comma_groups gs ++ post) c
                      (comma_groups gs ++ post, c)).
    { eapply first_seq.
      - apply (first_lit [","%char]).
      - apply first_rep_run; auto. now apply comma_groups_no_digit. }
    destruct Hstep as [tl Hstep].
    eapply star_first_more; [exact Hstep | |].
    + simpl. rewrite !length_app. destruct g; [congruence|simpl; lia].
    + apply IH; auto. simpl in Hfuel. rewrite !length_app in *. lia.
Qed.

Lemma first_int_amount g gs post c :
  is_digits g = true -> Forall (fun g => is_digits g = true) gs ->
  amount_ends post = true ->
  first_is int_amount (amount_text g gs ++ post) c (post, c).
Proof.
  intros Hg Hgs Hpost. apply is_digits_inv in Hg as [Hg Hne].
  pose proof Hpost as Hpost'. apply amount_ends_inv in Hpost' as (Hd & _ & _).
  unfold amount_text. rewrite <- app_assoc.
  eapply first_seq.
  - apply first_rep_run; auto. now apply comma_groups_no_digit.
  - unfold first_is. cbn [run]. apply first_star_groups; auto.
Qed.

Lemma first_dec_amount g gs post c :
  is_digits g = true -> Forall (fun g => is_digits g = true) gs ->
  amount_ends post = true ->
  first_is dec_amount (amount_text g gs ++ post) c (post, c).
Proof.
  intros Hg Hgs Hpost. eapply first_seq.
  - now apply first_int_amount.
  - apply first_opt_skip. apply amount_ends_inv in Hpost as (_ & _ & H).
    apply (run_sep_digits_none "."%char); [apply lower_is_dot | exact H].
Qed.

Lemma amount_starts_digit g gs post :
  is_digits g = true ->
  exists d r, amount_text g gs ++ post = d :: r /\ isdigit d = true.
Proof.
  intros Hg. apply is_digits_inv in Hg as [Hg Hne].
  destruct g as [|d g]; [congruence|].
  simpl in Hg. apply andb_true_iff in Hg as [Hd _].
  exists d, (g ++ comma_groups gs ++ post). split; [|exact Hd].
  unfold amount_text. now rewrite <- app_assoc.
Qed.

Lemma first_currency d r c :
  isdigit d = true ->
  first_is currency (" "%char :: d :: r) c (d :: r, c).
Proof.
  intros Hd. pose proof (digit_not_space d Hd) as Hs.
  eapply first_seq; [|eapply first_seq].
  - apply (first_rep_run isspace [" "%char] (d :: r)); auto. discriminate.
  - apply first_opt_skip. cbn [run flat_map lit_match txt list_ascii_of_string].
    rewrite (digit_not_r d Hd). reflexivity.
  - apply first_rep0_none. exact Hs.
Qed.

(** At ["under " N], with [N] a whole amount that ends there, the first
    pattern matches and its group is [N]. *)
Lemma match_under_amount g gs post :
  is_digits g = true -> Forall (fun g => is_digits g = true) gs ->
  amount_ends post = true ->
  match_here under_pattern (txt "under " ++ amount_text g gs ++ post)
  = Some [(1%nat, amount_text g gs)].
Proof.
  intros Hg Hgs Hpost.
  assert (H : first_is under_pattern
                (txt "under " ++ amount_text g gs ++ post) []
                (post, [(1%nat, amount_text g gs)])).
  { destruct (amount_starts_digit g gs post Hg) as (d & r & Hdr & Hd).
    eapply first_seq; [|eapply first_seq].
    - apply first_alt_l.
      change (txt "under " ++ amount_text g gs ++ post)
        with (txt "under" ++ " "%char :: amount_text g gs ++ post).
      apply first_lit.
    - rewrite Hdr. now apply first_currency.
    - rewrite <- Hdr.
      pose proof (first_group 1 _ _ _ _ _
                    (first_dec_amount g gs post [] Hg Hgs Hpost)) as H.
      rewrite length_app, Nat.add_sub in H.
      rewrite firstn_app, firstn_all, Nat.sub_diag in H.
      simpl in H. rewrite app_nil_r in H. exact H. }
  destruct H as [tl H]. unfold match_here. now rewrite H.
Qed.

Lemma existsb_map_comp {A B} (f : B -> bool) (g : A -> B) l :
  existsb f (map g l) = existsb (fun x => f (g x)) l.
Proof. induction l; simpl; congruence. Qed.

Lemma search_leftmost r : forall n s c,
  earlier_match r s n = false ->
  match_here r (skipn n s) = Some c ->
  search r s = Some c.
Proof.
  induction n as [|n IH]; intros s c He Hm.
  - simpl in Hm. destruct s; simpl; now rewrite Hm.
  - unfold earlier_match in He. rewrite <- cons_seq, <- seq_shift in He.
    simpl in He. apply orb_false_iff in He as [H0 He].
    unfold matches_at in H0. simpl in H0.
    destruct s as [|x s].
    + simpl in Hm. simpl. now rewrite Hm.
    + simpl. destruct (match_here r (x :: s)); [discriminate|].
      apply IH; [|exact Hm].
      unfold earlier_match. rewrite existsb_map_comp in He.
      exact He.
Qed.

(** ** Whole amounts as floats *)

Lemma digits2_size p : digits2_pos p = Pos.size p.
Proof. induction p; simpl; congruence. Qed.

Lemma Zdigits2_log2 p : Zdigits2 (Zpos p) = Z.log2 (Zpos p) + 1.
Proof.
  destruct p; simpl; rewrite ?digits2_size; try lia.
Qed.

Lemma Zdigits2_bounds p :
  2 ^ (Zdigits2 (Zpos p) - 1) <= Zpos p < 2 ^ Zdigits2 (Zpos p).
Proof.
  rewrite Zdigits2_log2.
  replace (Z.log2 (Z.pos p) + 1 - 1) with (Z.log2 (Z.pos p)) by lia.
  pose proof (Z.log2_spec (Zpos p)) as H.
  replace (Z.succ (Z.log2 (Z.pos p))) with (Z.log2 (Z.pos p) + 1) in H by lia.
  apply H. lia.
Qed.

Lemma Zdigits2_unique p k :
  2 ^ (k - 1) <= Zpos p < 2 ^ k -> 0 < k -> Zdigits2 (Zpos p) = k.
Proof.
  intros H Hk. rewrite Zdigits2_log2.
  rewrite (Z.log2_unique (Zpos p) (k - 1)); try lia.
  replace (Z.succ (k - 1)) with k by lia. exact H.
Qed.

(** An integer below [2^53] converts to the float of the same value: the
    mantissa is the integer shifted up to 53 bits. *)
Lemma round_quotient_small p :
  Zpos p < 2 ^ 53 ->
  exists q,
    round_quotient (Zpos p) 1 = S754_finite false q (Zdigits2 (Zpos p) - 53)
    /\ Zpos q = Zpos p * 2 ^ (53 - Zdigits2 (Zpos p)).
Proof.
  intros Hp.
  pose proof (Zdigits2_bounds p) as Hb.
  set (d := Zdigits2 (Zpos p)) in *.
  assert (Hd1 : 1 <= d) by (unfold d; simpl; lia).
  assert (Hd : d <= 53).
  { destruct (Z_le_gt_dec d 53) as [|Hgt]; [assumption|exfalso].
    assert (2 ^ 53 <= 2 ^ (d - 1)) by (apply Z.pow_le_mono_r; lia). lia. }
  set (m2 := Zpos p * 2 ^ (53 - d)).
  assert (Hm2 : 2 ^ 52 <= m2 < 2 ^ 53).
  { unfold m2. split.
    - replace 52 with ((d - 1) + (53 - d)) by lia.
      rewrite Z.pow_add_r by lia. apply Z.mul_le_mono_nonneg_r; [|lia].
      apply Z.pow_nonneg; lia.
    - replace 53 with (d + (53 - d)) at 2 by lia.
      rewrite Z.pow_add_r by lia. apply Z.mul_lt_mono_pos_r; [|lia].
      apply Z.pow_pos_nonneg; lia. }
  destruct m2 as [|q|q] eqn:Eq; try lia.
  exists q. split; [|reflexivity].
  unfold round_quotient, SFdiv_core_binary.
  fold d.
  assert (E1 : Z.min (fexp prec emax (d + 0 - (Zdigits2 1 + 0))) (0 - 0) = d - 54).
  { unfold fexp, emin, prec, emax. simpl Zdigits2. lia. }
  rewrite E1.
  replace (0 - 0 - (d - 54)) with (54 - d) by lia.
  assert (Es : Z.shiftl (Zpos p) (54 - d) = Zpos q~0).
  { rewrite Z.shiftl_mul_pow2 by lia.
    replace (54 - d) with (1 + (53 - d)) by lia.
    rewrite Z.pow_add_r by lia.
    change (Zpos q~0) with (2 * Zpos q). rewrite <- Eq. unfold m2. ring. }
  destruct (54 - d) as [|j|j] eqn:Ej; try lia.
  rewrite Es.
  assert (Ediv : Z.div_eucl (Zpos q~0) 1 = (Zpos q~0, 0)).
  { pose proof (Z_div_mod (Zpos q~0) 1 eq_refl) as H.
    destruct (Z.div_eucl (Zpos q~0) 1) as [a b]. destruct H as [H1 H2].
    f_equal; lia. }
  rewrite Ediv.
  change (new_location 1 0) with loc_Exact.
  unfold binary_round_aux, shr_fexp.
  assert (Ed1 : Zdigits2 (Zpos q~0) = 54).
  { apply Zdigits2_unique; lia. }
  rewrite Ed1.
  assert (E2 : fexp prec emax (54 + (d - 54)) - (d - 54) = 1).
  { unfold fexp, emin, prec, emax. lia. }
  rewrite E2. cbn [shr shr_record_of_loc iter_pos shr_1 orb loc_of_shr_record
                   shr_m round_nearest_even].
  assert (Ed2 : Zdigits2 (Zpos q) = 53).
  { apply Zdigits2_unique; lia. }
  rewrite Ed2.
  assert (E3 : fexp prec emax (53 + (d - 54 + 1)) - (d - 54 + 1) = 0).
  { unfold fexp, emin, prec, emax. lia. }
  rewrite E3. cbn [shr shr_record_of_loc shr_m].
  assert (E4 : (d - 54 + 1 <=? emax - prec) = true).
  { apply Z.leb_le. unfold emax, prec. lia. }
  rewrite E4. f_equal. lia.
Qed.

Lemma int_of_float_small p :
  Zpos p < 2 ^ 53 -> int_of_float (round_quotient (Zpos p) 1) = Ok (Zpos p).
Proof.
  intros Hp. destruct (round_quotient_small p Hp) as (q & -> & Hq).
  pose proof (Zdigits2_bounds p) as Hb.
  set (d := Zdigits2 (Zpos p)) in *.
  assert (Hd1 : 1 <= d) by (unfold d; simpl; lia).
  assert (Hd : d <= 53).
  { destruct (Z_le_gt_dec d 53) as [|Hgt]; [assumption|exfalso].
    assert (2 ^ 53 <= 2 ^ (d - 1)) by (apply Z.pow_le_mono_r; lia). lia. }
  unfold int_of_float.
  destruct (d - 53) as [|j|j] eqn:Ej; try lia.
  - f_equal. rewrite Z.shiftl_0_r. replace (53 - d) with 0 in Hq by lia.
    lia.
  - f_equal. rewrite Z.shiftr_div_pow2 by lia.
    replace (53 - d) with (Zpos j) in Hq by lia.
    rewrite Hq. apply Z.div_mul. apply Z.pow_nonzero; lia.
Qed.

Lemma fltb_100_large p :
  128 <= Zpos p < 2 ^ 53 ->
  fltb (round_quotient (Zpos p) 1) (nearest_float 100) = false.
Proof.
  intros [Hlo Hp]. destruct (round_quotient_small p Hp) as (q & -> & Hq).
  pose proof (Zdigits2_bounds p) as Hb.
  set (d := Zdigits2 (Zpos p)) in *.
  assert (Hd : 8 <= d).
  { destruct (Z_le_gt_dec 8 d) as [|Hgt]; [assumption|exfalso].
    assert (2 ^ d <= 2 ^ 7) by (apply Z.pow_le_mono_r; lia). lia. }
  change (nearest_float 100) with (S754_finite false 7036874417766400 (-46)).
  unfold fltb, SFltb, SFcompare.
  destruct (Z.compare_spec (d - 53) (-46)); try lia; reflexivity.
Qed.

Lemma small_ok_all : forallb small_ok (map Z.of_nat (seq 1 127)) = true.
Proof. vm_compute. reflexivity. Qed.

Lemma small_ok_spec v : 0 < v < 128 -> small_ok v = true.
Proof.
  intros Hv. pose proof small_ok_all as H.
  rewrite forallb_forall in H. apply H.
  apply in_map_iff. exists (Z.to_nat v). split; [lia|].
  apply in_seq. lia.
Qed.

(** The price of a whole amount below [2^53] is the amount, after the
    k-shorthand. *)
Lemma price_exact (has_k : bool) v :
  0 < v < 2 ^ 53 ->
  int_of_float
    (let price := round_quotient v 1 in
     if has_k && fltb price (nearest_float 100)
     then fmul price (nearest_float 1000) else price)
  = Ok (k_shorthand has_k v).
Proof.
  intros [Hv0 Hv]. destruct v as [|p|p]; try lia.
  cbv zeta. unfold k_shorthand.
  destruct (Z_lt_ge_dec (Zpos p) 128) as [Hs|Hl].
  - pose proof (small_ok_spec (Zpos p) (conj Hv0 Hs)) as H.
    unfold small_ok in H. apply andb_true_iff in H as [H1 H2].
    apply Bool.eqb_prop in H2. rewrite H2.
    destruct (has_k && (Zpos p <? 100)) eqn:E.
    + destruct (int_of_float (fmul _ _)) as [n|]; [|discriminate].
      apply Z.eqb_eq in H1. now subst.
    + now apply int_of_float_small.
  - rewrite fltb_100_large by lia.
    assert (E : (Zpos p <? 100) = false) by (apply Z.ltb_ge; lia).
    rewrite E, !andb_false_r. now apply int_of_float_small.
Qed.

(** ** The price of an amount *)

Lemma lower_char_idem c : lower_char (lower_char c) = lower_char c.
Proof. ascii_cases c; vm_compute; reflexivity. Qed.

Lemma Forall_dropwhile (P : ascii -> Prop) p s :
  Forall P s -> Forall P (dropwhile p s).
Proof.
  induction 1 as [|x s Hx Hs IH]; simpl; [constructor|].
  destruct (p x); [exact IH | now constructor].
Qed.

Lemma Forall_strip (P : ascii -> Prop) s : Forall P s -> Forall P (strip s).
Proof.
  intros H. unfold strip.
  apply Forall_rev, Forall_dropwhile, Forall_rev, Forall_dropwhile, H.
Qed.

(** The normalised text is in lower case already. *)
Lemma lower_normalised q : lower (strip (lower q)) = strip (lower q).
Proof.
  assert (H : Forall (fun c => lower_char c = c) (strip (lower q))).
  { apply Forall_strip. unfold lower. apply Forall_forall.
    intros c Hc. apply in_map_iff in Hc as [x [<- _]]. apply lower_char_idem. }
  unfold lower at 1. induction H as [|x l Hx Hl IH]; simpl; congruence.
Qed.

Lemma digit_not_comma d : isdigit d = true -> negb (ascii_eqb d ","%char) = true.
Proof. ascii_cases d; vm_compute; congruence. Qed.

Lemma remove_comma_digits g :
  forallb isdigit g = true -> remove_char ","%char g = g.
Proof.
  induction g as [|d g IH]; simpl; [reflexivity|].
  intros H. apply andb_true_iff in H as [Hd Hg].
  rewrite (digit_not_comma d Hd). f_equal. auto.
Qed.

Lemma remove_comma_groups gs :
  Forall (fun g => is_digits g = true) gs ->
  remove_char ","%char (comma_groups gs) = List.concat gs.
Proof.
  induction 1 as [|g gs Hg Hgs IH]; [reflexivity|].
  apply is_digits_inv in Hg as [Hg _].
  change (comma_groups (g :: gs)) with ((","%char :: g) ++ comma_groups gs).
  unfold remove_char in *. rewrite filter_app, IH. simpl.
  f_equal. now apply remove_comma_digits.
Qed.

Lemma remove_comma_amount g gs :
  is_digits g = true -> Forall (fun g => is_digits g = true) gs ->
  remove_char ","%char (amount_text g gs) = g ++ List.concat gs.
Proof.
  intros Hg Hgs. apply is_digits_inv in Hg as [Hg _].
  unfold amount_text, remove_char. rewrite filter_app.
  fold (remove_char ","%char g). fold (remove_char ","%char (comma_groups gs)).
  now rewrite remove_comma_digits, remove_comma_groups.
Qed.

Lemma digits_concat g gs :
  is_digits g = true -> Forall (fun g => is_digits g = true) gs ->
  forallb isdigit (g ++ List.concat gs) = true /\ g ++ List.concat gs <> [].
Proof.
  intros Hg Hgs. apply is_digits_inv in Hg as [Hg Hne]. split.
  - rewrite forallb_app, Hg. simpl.
    induction Hgs as [|x gs Hx Hgs IH]; [reflexivity|].
    simpl. rewrite forallb_app, IH, andb_true_r.
    now apply is_digits_inv in Hx as [Hx _].
  - destruct g; [congruence | discriminate].
Qed.

Lemma takewhile_all p s : forallb p s = true -> takewhile p s = s.
Proof.
  induction s as [|x s IH]; simpl; [reflexivity|].
  intros H. apply andb_true_iff in H as [Hx Hs]. rewrite Hx. f_equal. auto.
Qed.

Lemma dropwhile_all p s : forallb p s = true -> dropwhile p s = [].
Proof.
  induction s as [|x s IH]; simpl; [reflexivity|].
  intros H. apply andb_true_iff in H as [Hx Hs]. rewrite Hx. auto.
Qed.

(** [float] of a string of digits is the integer it writes, rounded. *)
Lemma float_of_digits ds :
  forallb isdigit ds = true -> ds <> [] ->
  float_of_str ds = Ok (round_quotient (digits_value ds) 1).
Proof.
  intros Hd Hne. unfold float_of_str, decimal_parts.
  rewrite (takewhile_all _ _ Hd), (dropwhile_all _ _ Hd).
  destruct ds as [|d ds]; [congruence|].
  rewrite app_nil_r. reflexivity.
Qed.

Lemma price_of_digits query ds :
  forallb isdigit ds = true -> ds <> [] ->
  0 < digits_value ds < 2 ^ 53 ->
  price_of query ds
  = Ok (k_shorthand (contains (txt "k") (lower query)) (digits_value ds)).
Proof.
  intros Hd Hne Hv. unfold price_of.
  rewrite (float_of_digits ds Hd Hne). cbn [bind].
  apply (price_exact (contains (txt "k") (lower query)) _ Hv).
Qed.

Lemma k_shorthand_pos has_k v : 0 < v -> 0 < k_shorthand has_k v.
Proof. unfold k_shorthand. destruct (has_k && (v <? 100)); lia. Qed.

Lemma any_in_intro ks k s : In k ks -> contains k s = true -> any_in ks s = true.
Proof.
  intros Hin Hc. unfold any_in. apply existsb_exists. eauto.
Qed.

(** [_extract_price] on a text whose leftmost amount phrase of the first
    pattern is ["under " N]. *)
Lemma extract_price_under ql pre g gs post :
  ql = pre ++ txt "under " ++ amount_text g gs ++ post ->
  lower ql = ql ->
  is_digits g = true -> Forall (fun x => is_digits x = true) gs ->
  amount_ends post = true ->
  earlier_match under_pattern ql (List.length pre) = false ->
  0 < digits_value (g ++ List.concat gs) < 2 ^ 53 ->
  _extract_price ql
  = Ok (Some (k_shorthand (contains (txt "k") ql) (digits_value (g ++ List.concat gs)))).
Proof.
  intros Hql Hlow Hg Hgs Hpost Hearly Hv.
  unfold _extract_price. rewrite Hlow.
  assert (Hkw : any_in budget_keywords ql = true).
  { apply (any_in_intro budget_keywords (txt "under")); [now left|].
    apply contains_spec. exists pre, (" "%char :: amount_text g gs ++ post).
    rewrite Hql. reflexivity. }
  rewrite Hkw. cbn [negb].
  assert (Hs : search under_pattern ql = Some [(1%nat, amount_text g gs)]).
  { apply (search_leftmost under_pattern (List.length pre)); [exact Hearly|].
    rewrite Hql, skipn_length_app. now apply match_under_amount. }
  unfold budget_patterns. cbn [extract_loop]. rewrite Hs.
  change (str_eqb (txt "under") (txt "range")) with false. cbv iota.
  cbn [group Nat.eqb].
  rewrite (remove_comma_amount g gs Hg Hgs).
  destruct (digits_concat g gs Hg Hgs) as [Hd Hne].
  rewrite (price_of_digits ql _ Hd Hne Hv), Hlow. reflexivity.
Qed.

(** ** Sorting and searching the catalog *)

Section SortFacts.
Variable A : Type.
Variable lt : A -> A -> bool.

Lemma insert_perm x l : Permutation (insert lt x l) (x :: l).
Proof.
  induction l as [|y l IH]; simpl; [reflexivity|].
  destruct (lt x y); [reflexivity|].
  rewrite IH. apply perm_swap.
Qed.

Lemma fold_insert_perm l : forall acc,
  Permutation (fold_left (fun acc x => insert lt x acc) l acc) (l ++ acc).
Proof.
  induction l as [|x l IH]; intros acc; simpl; [reflexivity|].
  rewrite IH, insert_perm. symmetry. apply Permutation_middle.
Qed.

Lemma stable_sort_perm l : Permutation (stable_sort lt l) l.
Proof. unfold stable_sort. rewrite fold_insert_perm. now rewrite app_nil_r. Qed.

Hypothesis lt_asym : forall a b, lt a b = true -> lt b a = false.

Lemma insert_hd x l a :
  in_order lt a x -> HdRel (in_order lt) a l -> HdRel (in_order lt) a (insert lt x l).
Proof.
  intros Hax Hl. destruct l as [|y l]; simpl.
  - now constructor.
  - destruct (lt x y); constructor; auto. now inversion Hl.
Qed.

Lemma insert_sorted x l : Sorted (in_order lt) l -> Sorted (in_order lt) (insert lt x l).
Proof.
  induction 1 as [|y l Hl IH Hy]; simpl.
  - repeat constructor.
  - destruct (lt x y) eqn:E.
    + constructor; [now constructor|]. constructor. now apply lt_asym.
    + constructor; [exact IH|]. apply insert_hd; auto.
Qed.

Lemma fold_insert_sorted l : forall acc,
  Sorted (in_order lt) acc ->
  Sorted (in_order lt) (fold_left (fun acc x => insert lt x acc) l acc).
Proof.
  induction l as [|x l IH]; intros acc H; simpl; [exact H|].
  apply IH. now apply insert_sorted.
Qed.

Lemma stable_sort_sorted l : Sorted (in_order lt) (stable_sort lt l).
Proof. apply fold_insert_sorted. constructor. Qed.
End SortFacts.

(** An order of the elements of a list orders every list made of them. *)
Lemma orders_incl {A} (lt : A -> A -> bool) l l' :
  incl l' l -> orders lt l -> orders lt l'.
Proof.
  intros Hi [H1 H2]. split.
  - intros x y Hx Hy. apply H1; auto.
  - intros x y z Hx Hy Hz. apply H2; auto.
Qed.

Lemma orders_rev {A} (lt : A -> A -> bool) l : orders lt l -> orders lt (rev l).
Proof. apply orders_incl. intros x Hx. now apply in_rev. Qed.

Section SorterFacts.
Context {S : sorter}.
Variable A : Type.
Variable lt : A -> A -> bool.

Lemma list_sort_reverse_perm l : Permutation (list_sort_reverse lt l) l.
Proof.
  unfold list_sort_reverse.
  rewrite <- Permutation_rev, list_sort_permutes. symmetry.
  apply Permutation_rev.
Qed.

Lemma list_sort_reverse_stable l :
  orders lt l -> list_sort_reverse lt l = rev (stable_sort lt (rev l)).
Proof.
  intros H. unfold list_sort_reverse.
  now rewrite (list_sort_stable _ _ (orders_rev _ _ H)).
Qed.

Lemma list_sort_nil : list_sort lt [] = [].
Proof. apply Permutation_nil, Permutation_sym, list_sort_permutes. Qed.

Hypothesis lt_asym : forall a b, lt a b = true -> lt b a = false.

(** Where [<] orders the elements, no element of the sorted list is above
    the next. *)
Lemma list_sort_sorted l : orders lt l -> Sorted (in_order lt) (list_sort lt l).
Proof.
  intros H. rewrite (list_sort_stable _ _ H). now apply stable_sort_sorted.
Qed.
End SorterFacts.

Lemma SFcompare_antisym a b :
  SFcompare b a = option_map CompOpp (SFcompare a b).
Proof.
  destruct a as [sa|sa| |sa ma ea], b as [sb|sb| |sb mb eb];
    try reflexivity;
    try (destruct sa; reflexivity); try (destruct sb; reflexivity);
    try (destruct sa, sb; reflexivity).
  simpl. destruct sa, sb; try reflexivity; simpl; f_equal;
    rewrite (Z.compare_antisym ea eb);
    destruct (ea ?= eb); simpl; try reflexivity;
    change Eq with (CompOpp Eq) at 1;
    rewrite <- Pos.compare_cont_antisym; reflexivity.
Qed.

Lemma fltb_asym a b : fltb a b = true -> fltb b a = false.
Proof.
  unfold fltb, SFltb. rewrite (SFcompare_antisym a b).
  destruct (SFcompare a b) as [[]|]; simpl; congruence.
Qed.

Lemma feqb_sym a b : feqb a b = feqb b a.
Proof.
  unfold feqb, SFeqb. rewrite (SFcompare_antisym a b).
  destruct (SFcompare a b) as [[]|]; reflexivity.
Qed.

Lemma sort_key_lt_asym a b : sort_key_lt a b = true -> sort_key_lt b a = false.
Proof.
  unfold sort_key_lt. rewrite (feqb_sym (fneg (rating b))).
  destruct (feqb (fneg (rating a)) (fneg (rating b))).
  - intros H. apply Z.ltb_lt in H. apply Z.ltb_ge. lia.
  - apply fltb_asym.
Qed.

(** ** The filters of [search_products] *)

Section SearchFacts.
Context {S : sorter}.

Lemma rebind_Forall (P : product -> Prop) cond keep b :
  Forall P (fst b) -> Forall P (fst (rebind cond keep b)).
Proof.
  intros H. unfold rebind. destruct cond; [|exact H].
  simpl. apply Forall_forall. intros p Hp. apply filter_In in Hp as [Hp _].
  rewrite Forall_forall in H. auto.
Qed.

Lemma rebind_keeps cond keep b :
  cond = true -> Forall (fun p => keep p = true) (fst (rebind cond keep b)).
Proof.
  intros ->. simpl. apply Forall_forall. intros p Hp.
  now apply filter_In in Hp.
Qed.

Lemma rebind_incl cond keep b : incl (fst (rebind cond keep b)) (fst b).
Proof.
  unfold rebind. destruct cond; [|apply incl_refl].
  simpl. intros p Hp. now apply filter_In in Hp.
Qed.

Lemma rebind_fresh cond keep b :
  snd b = false -> snd (rebind cond keep b) = false.
Proof. unfold rebind. destruct cond; auto. Qed.

(** A catalog the search has filtered is left as it was. *)
Lemma search_products_frame q cat C br col pl db :
  truthy_int C = true ->
  snd (search_products q cat C br col pl db) = db.
Proof.
  intros HC. unfold search_products. cbn [snd]. rewrite HC.
  set (b := rebind true _ _).
  assert (Hb : snd b = false) by reflexivity.
  rewrite rebind_fresh; [reflexivity|].
  do 4 apply rebind_fresh. exact Hb.
Qed.

Lemma search_products_no_apple q cat C br col pl db p :
  contains (txt "non-apple") (lower q) = true ->
  In p (fst (search_products (Some q) cat C br col pl db)) ->
  contains (txt "apple") (lower (brand p)) = false.
Proof.
  intros Hq Hin. unfold search_products in Hin. cbn [fst] in Hin.
  apply (Permutation_in _ (list_sort_permutes _ _)) in Hin.
  revert p Hin. apply Forall_forall.
  eapply Forall_impl; [|apply rebind_keeps].
  - intros a Ha. now apply negb_true_iff.
  - cbn [or_empty]. rewrite Hq, andb_true_r.
    destruct q; [discriminate | reflexivity].
Qed.

Lemma search_products_incl q cat C br col pl db :
  incl (fst (search_products q cat C br col pl db)) db.
Proof.
  intros p Hin. unfold search_products in Hin. cbn [fst] in Hin.
  apply (Permutation_in _ (list_sort_permutes _ _)) in Hin.
  do 7 apply rebind_incl in Hin. exact Hin.
Qed.

(** With no criterion at all the list sorted is the catalog itself. *)
Lemma search_products_in_place q cat C br col pl db :
  truthy_str q = false -> truthy_str cat = false -> truthy_int C = false ->
  truthy_str br = false -> truthy_str col = false -> truthy_str pl = false ->
  search_products q cat C br col pl db
  = (list_sort sort_key_lt db, list_sort sort_key_lt db).
Proof.
  intros Hq Hcat HC Hbr Hcol Hpl. unfold search_products.
  rewrite Hq, Hcat, HC, Hbr, Hcol, Hpl. reflexivity.
Qed.
End SearchFacts.

(** ** The pipeline *)

Lemma dict_get_In {V} (d : list (str * V)) k v :
  dict_get d k = Some v -> In v (map snd d).
Proof.
  induction d as [|[k' v'] d IH]; simpl; [discriminate|].
  destruct (str_eqb k' k).
  - intros H. injection H as ->. now left.
  - intros H. right. auto.
Qed.

Lemma default_budget_pos c t : 0 < default_budget c t.
Proof.
  unfold default_budget.
  set (row := match c with Some c0 => _ | None => _ end).
  assert (Hrow : row = [] \/ In row (map snd BUDGET_RANGES)).
  { unfold row. destruct c as [c|]; [|now left].
    destruct (dict_get BUDGET_RANGES c) eqn:E; [|now left].
    right. eapply dict_get_In; eauto. }
  destruct (dict_get row t) as [b|] eqn:E; [|lia].
  apply dict_get_In in E.
  destruct Hrow as [-> | Hrow]; [contradiction|].
  simpl in Hrow.
  repeat (destruct Hrow as [<- | Hrow];
          [simpl in E; repeat (destruct E as [<- | E]; [lia|]); contradiction|]).
  contradiction.
Qed.

(** [analyze_budget] never hands out a ceiling of zero or [None]. *)
Lemma max_budget_truthy q a :
  analyze_budget q = Ok a -> truthy_int (max_budget a) = true.
Proof.
  intros H. apply analyze_budget_inv in H as (p & _ & _ & _ & _ & H).
  destruct (truthy_int p) eqn:E.
  - destruct H as [_ ->]. exact E.
  - destruct H as [_ ->]. simpl. apply negb_true_iff, Z.eqb_neq.
    pose proof (default_budget_pos (BudgetAnalyzer.category a) (budget_type a)).
    lia.
Qed.

Lemma score_all_products ql a ps scored :
  score_all ql a ps = Ok scored -> map snd scored = ps.
Proof.
  revert scored. induction ps as [|p ps IH]; intros scored; simpl.
  - intros H. now injection H as <-.
  - intros H. apply bind_Ok in H as (s & _ & H).
    apply bind_Ok in H as (rest & Hrest & H). injection H as <-.
    simpl. f_equal. auto.
Qed.

Section PipelineFacts.
Context {S : sorter}.

(** Ranking returns the products it was given, in another order. *)
Lemma filter_and_rank_perm ps q a ranked :
  _filter_and_rank ps q a = Ok ranked -> Permutation ps ranked.
Proof.
  unfold _filter_and_rank. destruct ps as [|p ps].
  - intros H. injection H as <-. constructor.
  - intros H. apply bind_Ok in H as (scored & Hs & H). injection H as <-.
    apply score_all_products in Hs. rewrite <- Hs.
    apply Permutation_map. symmetry. apply list_sort_reverse_perm.
Qed.

Lemma process_query_cases search q db :
  (exists e db', stage_raises search q db e db'
     /\ process_query_with search q db
        = (Ok (Failed (exn_message e) q []), db'))
  \/ (exists a found ranked db', stages_pass search q db a found ranked db'
     /\ process_query_with search q db
        = (Ok (Found q a (firstn 3 ranked) (List.length found)
                     (BudgetAnalyzer.category a) (BudgetAnalyzer.max_budget a)),
           db')).
Proof.
  unfold process_query_with, try_db, bind_db, pure.
  destruct (analyze_budget q) as [a|e] eqn:Ea.
  - destruct (search (Some q) (BudgetAnalyzer.category a)
                     (BudgetAnalyzer.max_budget a) db) as [[found|e] db'] eqn:Es.
    + destruct (_filter_and_rank found q a) as [ranked|e] eqn:Er.
      * right. exists a, found, ranked, db'. split; [|reflexivity].
        repeat split; assumption.
      * left. exists e, db'. split; [|reflexivity].
        eapply scoring_raises; eauto.
    + left. exists e, db'. split; [|reflexivity].
      eapply retrieval_raises; eauto.
  - left. exists e, db. split; [|reflexivity]. now apply extraction_raises.
Qed.

Lemma stage_raises_excl search q db e db' a found ranked db'' :
  stage_raises search q db e db' ->
  stages_pass search q db a found ranked db'' -> False.
Proof.
  intros Hr (Ha & Hs & Hk).
  destruct Hr as [e He | a0 e db' Ha0 Hs0 | a0 found0 e db' Ha0 Hs0 Hk0].
  - congruence.
  - assert (a0 = a) by congruence. subst. congruence.
  - assert (a0 = a) by congruence. subst.
    assert (found0 = found) by congruence. subst. congruence.
Qed.

Lemma stage_raises_det search q db e1 db1 e2 db2 :
  stage_raises search q db e1 db1 -> stage_raises search q db e2 db2 ->
  e1 = e2 /\ db1 = db2.
Proof.
  intros H1 H2.
  destruct H1 as [e1 He1 | a1 e1 db1 Ha1 Hs1 | a1 f1 e1 db1 Ha1 Hs1 Hk1];
    destruct H2 as [e2 He2 | a2 e2 db2 Ha2 Hs2 | a2 f2 e2 db2 Ha2 Hs2 Hk2];
    try congruence;
    try (assert (a1 = a2) by congruence; subst);
    try (assert (f1 = f2) by congruence; subst);
    try (split; congruence); congruence.
Qed.
End PipelineFacts.

(** ** The score *)

Lemma fold_count {A} (f : A -> bool) (k : Z) (l : list A) : forall s,
  fold_left (fun score x => if f x then score + k else score) l s
  = s + k * count_hits f l.
Proof.
  unfold count_hits.
  induction l as [|x l IH]; intros s; simpl; [lia|].
  rewrite IH. destruct (f x); simpl List.length; lia.
Qed.

Lemma float_of_int_one : float_of_int 1 = Ok f_one.
Proof. reflexivity. Qed.

(** ** More on keywords and on the order of floats *)

Lemma any_in_spec ks s :
  any_in ks s = true <-> exists k u v, In k ks /\ s = u ++ k ++ v.
Proof.
  unfold any_in. rewrite existsb_exists. split.
  - intros (k & Hk & Hc). apply contains_spec in Hc as (u & v & ->). eauto.
  - intros (k & u & v & Hk & ->). exists k. split; [exact Hk|].
    apply contains_spec. eauto.
Qed.

Lemma any_in_false ks s :
  any_in ks s = false <-> ~ exists k u v, In k ks /\ s = u ++ k ++ v.
Proof.
  rewrite <- any_in_spec. destruct (any_in ks s); split; congruence.
Qed.

Lemma first_hit_tiers s :
  first_hit BUDGET_KEYWORDS s
  = if any_in (tier_keywords "low") s then Some (txt "low")
    else if any_in (tier_keywords "medium") s then Some (txt "medium")
    else if any_in (tier_keywords "high") s then Some (txt "high")
    else None.
Proof. reflexivity. Qed.

Lemma SFcompare_opp x y : SFcompare (SFopp x) (SFopp y) = SFcompare y x.
Proof.
  destruct x as [sx|sx| |sx mx ex], y as [sy|sy| |sy my ey];
    try reflexivity;
    try (destruct sx; reflexivity); try (destruct sy; reflexivity);
    try (destruct sx, sy; reflexivity).
  simpl. destruct sx, sy; try reflexivity; simpl; f_equal;
    rewrite (Z.compare_antisym ex ey);
    destruct (ex ?= ey); simpl; try reflexivity;
    change Eq with (CompOpp Eq) at 1;
    rewrite <- Pos.compare_cont_antisym; simpl;
    rewrite ?CompOpp_involutive; reflexivity.
Qed.

Lemma SFcompare_total x y :
  is_nan x = false -> is_nan y = false -> SFcompare x y <> None.
Proof.
  destruct x, y; simpl; try discriminate; congruence.
Qed.

Lemma fltb_key x y :
  is_nan x = false -> is_nan y = false ->
  (fltb x y = true <-> key_lt (float_key x) (float_key y)).
Proof.
  unfold fltb, SFltb, key_lt.
  destruct x as [sx|sx| |sx mx ex], y as [sy|sy| |sy my ey];
    try discriminate; intros _ _;
    try destruct sx; try destruct sy; simpl;
    try (split; [discriminate | lia]);
    try (split; [intros _; lia | reflexivity]).
  - destruct (Z.compare_spec ex ey) as [E|E|E]; simpl.
    + subst. change (Pos.compare_cont Eq mx my) with (Pos.compare mx my).
      destruct (Pos.compare_spec mx my) as [F|F|F]; simpl;
        split; try discriminate; try reflexivity; try lia.
    + split; [discriminate | lia].
    + split; [intros _; lia | reflexivity].
  - destruct (Z.compare_spec ex ey) as [E|E|E]; simpl.
    + subst. change (Pos.compare_cont Eq mx my) with (Pos.compare mx my).
      destruct (Pos.compare_spec mx my) as [F|F|F]; simpl;
        split; try discriminate; try reflexivity; try lia.
    + split; [intros _; lia | reflexivity].
    + split; [discriminate | lia].
Qed.

Lemma feqb_key x y :
  is_nan x = false -> is_nan y = false ->
  (feqb x y = true <-> float_key x = float_key y).
Proof.
  unfold feqb, SFeqb.
  destruct x as [sx|sx| |sx mx ex], y as [sy|sy| |sy my ey];
    try discriminate; intros _ _;
    try destruct sx; try destruct sy; simpl;
    try (split; [discriminate | congruence]);
    try (split; [intros _; reflexivity | reflexivity]).
  - destruct (Z.compare_spec ex ey) as [E|E|E]; simpl.
    + subst. change (Pos.compare_cont Eq mx my) with (Pos.compare mx my).
      destruct (Pos.compare_spec mx my) as [F|F|F]; simpl;
        split; try discriminate; try reflexivity; try congruence;
        intros H; injection H; lia.
    + split; [discriminate | intros H; injection H; lia].
    + split; [discriminate | intros H; injection H; lia].
  - destruct (Z.compare_spec ex ey) as [E|E|E]; simpl.
    + subst. change (Pos.compare_cont Eq mx my) with (Pos.compare mx my).
      destruct (Pos.compare_spec mx my) as [F|F|F]; simpl;
        split; try discriminate; try reflexivity; try congruence;
        intros H; injection H; lia.
    + split; [discriminate | intros H; injection H; lia].
    + split; [discriminate | intros H; injection H; lia].
Qed.

Lemma fneg_not_nan x : is_nan x = false -> is_nan (fneg x) = false.
Proof. destruct x; simpl; auto. Qed.

(** Floats that are numbers are ordered by [<], through any key. *)
Lemma fltb_orders {A} (f : A -> float) l :
  Forall (fun a => is_nan (f a) = false) l ->
  orders (fun a b => fltb (f a) (f b)) l.
Proof.
  intros H. rewrite Forall_forall in H. split.
  - intros x y _ _. apply fltb_asym.
  - intros x y z Hx Hy Hz.
    rewrite !fltb_key by auto. unfold key_lt.
    destruct (float_key (f x)) as [x1 [x2 x3]],
             (float_key (f y)) as [y1 [y2 y3]],
             (float_key (f z)) as [z1 [z2 z3]]. simpl. lia.
Qed.

Lemma sort_key_lt_key a b :
  is_nan (rating a) = false -> is_nan (rating b) = false ->
  (sort_key_lt a b = true
   <-> key_lt (float_key (fneg (rating a))) (float_key (fneg (rating b)))
       \/ (float_key (fneg (rating a)) = float_key (fneg (rating b))
           /\ price a < price b)).
Proof.
  intros Ha Hb. apply fneg_not_nan in Ha, Hb. unfold sort_key_lt.
  pose proof (feqb_key _ _ Ha Hb) as He. pose proof (fltb_key _ _ Ha Hb) as Hl.
  destruct (feqb (fneg (rating a)) (fneg (rating b))).
  - rewrite Z.ltb_lt. assert (E : float_key (fneg (rating a))
                                  = float_key (fneg (rating b)))
      by now apply He.
    rewrite E. split; [auto|]. intros [H | [_ H]]; [|exact H].
    unfold key_lt in H. lia.
  - rewrite Hl. split; [auto|]. intros [H | [H _]]; [exact H|].
    apply He in H. discriminate.
Qed.

(** The key of [search_products] orders products whose ratings are
    numbers. *)
Lemma sort_key_lt_orders l :
  Forall (fun p => is_nan (rating p) = false) l -> orders sort_key_lt l.
Proof.
  intros H. rewrite Forall_forall in H. split.
  - intros x y _ _. apply sort_key_lt_asym.
  - intros x y z Hx Hy Hz.
    rewrite !sort_key_lt_key by auto. unfold key_lt.
    destruct (float_key (fneg (rating x))) as [x1 [x2 x3]],
             (float_key (fneg (rating y))) as [y1 [y2 y3]],
             (float_key (fneg (rating z))) as [z1 [z2 z3]]. simpl.
    rewrite !pair_equal_spec. lia.
Qed.

(** Integers are ordered by [<], through any key. *)
Lemma Zltb_orders {A} (f : A -> Z) l : orders (fun a b => f a <? f b) l.
Proof.
  split.
  - intros x y _ _ H. apply Z.ltb_lt in H. apply Z.ltb_ge. lia.
  - intros x y z _ _ _ H. apply Z.ltb_lt in H. rewrite !Z.ltb_lt. lia.
Qed.

(** Two neighbours in key order whose ratings are numbers: the better
    rated is first, the cheaper first among the equally rated. *)
Lemma in_order_rating_then_price a b :
  is_nan (rating a) = false -> is_nan (rating b) = false ->
  in_order sort_key_lt a b -> rating_then_price a b.
Proof.
  intros Ha Hb. unfold in_order, sort_key_lt, rating_then_price.
  unfold feqb, fltb, fneg, SFeqb, SFltb. rewrite !SFcompare_opp.
  rewrite (SFcompare_antisym (rating b) (rating a)).
  pose proof (SFcompare_total _ _ Hb Ha) as Ht.
  destruct (SFcompare (rating b) (rating a)) as [[]|]; simpl; try congruence.
  - intros H. right. split; [reflexivity|]. apply Z.ltb_ge in H. lia.
  - intros _. now left.
Qed.

Lemma Sorted_impl_on {A} (P : A -> Prop) (R R' : A -> A -> Prop) l :
  (forall a b, P a -> P b -> R a b -> R' a b) ->
  Forall P l -> Sorted R l -> Sorted R' l.
Proof.
  intros Himp HP Hs. induction Hs as [|x l Hs IH Hhd]; [constructor|].
  inversion HP as [|? ? Hx Hl]; subst. constructor; [auto|].
  destruct Hhd as [|y l Hxy]; constructor.
  inversion Hl; subst. auto.
Qed.

Lemma In_firstn {A} n (l : list A) x : In x (firstn n l) -> In x l.
Proof.
  revert l; induction n as [|n IH]; intros [|y l]; simpl; try tauto.
  intros [H | H]; auto.
Qed.

(** ** Amounts with a fraction, and the k rule *)

Lemma first_opt_take a s c x : first_is a s c x -> first_is (Opt a) s c x.
Proof. intros [t H]. unfold first_is. simpl. rewrite H. simpl. eauto. Qed.

(** The loop [(?:,\d+)*] runs through every group, whatever follows that
    is neither a digit nor a comma before a digit. *)
Lemma first_star_groups_upto gs : forall fuel post c,
  Forall (fun g => is_digits g = true) gs ->
  starts_with isdigit post = false -> sep_digit ","%char post = false ->
  (List.length (comma_groups gs ++ post) <= fuel)%nat ->
  exists t, star_loop (run comma_group) fuel (comma_groups gs ++ post) c
            = (post, c) :: t.
Proof.
  induction gs as [|g gs IH]; intros fuel post c Hgs Hd Hc Hfuel.
  - change (comma_groups [] ++ post) with post. apply star_first_stop.
    apply (run_sep_digits_none ","%char); [apply lower_is_comma | exact Hc].
  - inversion Hgs as [|? ? Hg Hgs']; subst.
    apply is_digits_inv in Hg as [Hg Hne].
    change (comma_groups (g :: gs) ++ post)
      with ([","%char] ++ (g ++ comma_groups gs) ++ post) in *.
    rewrite <- app_assoc in *.
    destruct fuel as [|fuel]; [simpl in Hfuel; lia|].
    assert (Hstep : first_is comma_group
                      ([","%char] ++ g ++ comma_groups gs ++ post) c
                      (comma_groups gs ++ post, c)).
    { eapply first_seq.
      - apply (first_lit [","%char]).
      - apply first_rep_run; auto. now apply comma_groups_no_digit. }
    destruct Hstep as [tl Hstep].
    eapply star_first_more; [exact Hstep | |].
    + simpl. rewrite !length_app. destruct g; [congruence|simpl; lia].
    + apply IH; auto. simpl in Hfuel. rewrite !length_app in *. lia.
Qed.

Lemma first_int_amount_upto g gs post c :
  is_digits g = true -> Forall (fun g => is_digits g = true) gs ->
  starts_with isdigit post = false -> sep_digit ","%char post = false ->
  first_is int_amount (amount_text g gs ++ post) c (post, c).
Proof.
  intros Hg Hgs Hd Hc. apply is_digits_inv in Hg as [Hg Hne].
  unfold amount_text. rewrite <- app_assoc.
  eapply first_seq.
  - apply first_rep_run; auto. now apply comma_groups_no_digit.
  - unfold first_is. cbn [run]. apply first_star_groups_upto; auto.
Qed.

(** The amount pattern takes a whole amount and the fraction behind it. *)
Lemma first_decimal g gs fd post c :
  is_digits g = true -> Forall (fun g => is_digits g = true) gs ->
  forallb isdigit fd = true -> decimal_ends fd post = true ->
  first_is dec_amount (decimal_text g gs fd ++ post) c (post, c).
Proof.
  intros Hg Hgs Hfd Hpost. unfold decimal_text.
  destruct fd as [|d fd].
  - cbn [fraction_text]. rewrite app_nil_r. now apply first_dec_amount.
  - cbn [fraction_text decimal_ends] in *. rewrite <- app_assoc.
    apply negb_true_iff in Hpost.
    eapply first_seq.
    + apply first_int_amount_upto; auto.
    + apply first_opt_take. eapply first_seq.
      * apply (first_lit (txt ".") ((d :: fd) ++ post)).
      * apply first_rep_run; [exact Hfd | discriminate | exact Hpost].
Qed.

Lemma decimal_starts_digit g gs fd post :
  is_digits g = true ->
  exists d r, decimal_text g gs fd ++ post = d :: r /\ isdigit d = true.
Proof.
  intros Hg. unfold decimal_text. rewrite <- app_assoc.
  now apply amount_starts_digit.
Qed.

Lemma match_under_decimal g gs fd post :
  is_digits g = true -> Forall (fun g => is_digits g = true) gs ->
  forallb isdigit fd = true -> decimal_ends fd post = true ->
  match_here under_pattern (txt "under " ++ decimal_text g gs fd ++ post)
  = Some [(1%nat, decimal_text g gs fd)].
Proof.
  intros Hg Hgs Hfd Hpost.
  assert (H : first_is under_pattern
                (txt "under " ++ decimal_text g gs fd ++ post) []
                (post, [(1%nat, decimal_text g gs fd)])).
  { destruct (decimal_starts_digit g gs fd post Hg) as (d & r & Hdr & Hd).
    eapply first_seq; [|eapply first_seq].
    - apply first_alt_l.
      change (txt "under " ++ decimal_text g gs fd ++ post)
        with (txt "under" ++ " "%char :: decimal_text g gs fd ++ post).
      apply first_lit.
    - rewrite Hdr. now apply first_currency.
    - rewrite <- Hdr.
      pose proof (first_group 1 _ _ _ _ _
                    (first_decimal g gs fd post [] Hg Hgs Hfd Hpost)) as H.
      rewrite length_app, Nat.add_sub in H.
      rewrite firstn_app, firstn_all, Nat.sub_diag in H.
      simpl in H. rewrite app_nil_r in H. exact H. }
  destruct H as [tl H]. unfold match_here. now rewrite H.
Qed.

Lemma remove_comma_decimal g gs fd :
  is_digits g = true -> Forall (fun g => is_digits g = true) gs ->
  forallb isdigit fd = true ->
  remove_char ","%char (decimal_text g gs fd) = decimal_literal g gs fd.
Proof.
  intros Hg Hgs Hfd. unfold decimal_text, decimal_literal, remove_char.
  rewrite filter_app. fold (remove_char ","%char (amount_text g gs)).
  rewrite (remove_comma_amount g gs Hg Hgs). f_equal.
  destruct fd as [|d fd]; [reflexivity|].
  cbn [fraction_text]. change (filter _ ("."%char :: d :: fd))
    with ("."%char :: remove_char ","%char (d :: fd)).
  now rewrite (remove_comma_digits _ Hfd).
Qed.

(** A word of [split] is inside the text. *)
Lemma split_aux_inside s : forall cur w,
  In w (split_aux cur s) -> exists u v, rev cur ++ s = u ++ w ++ v.
Proof.
  induction s as [|c s IH]; intros cur w; simpl.
  - destruct cur as [|x cur]; [contradiction|].
    intros [<- | []]. exists [], []. now rewrite app_nil_r.
  - destruct (isspace c).
    + destruct cur as [|x cur].
      * intros H. apply IH in H as (u & v & H). simpl in H.
        exists (c :: u), v. simpl. now rewrite H.
      * intros [<- | H].
        -- exists [], (c :: s). reflexivity.
        -- apply IH in H as (u & v & H). simpl in H.
           exists (rev (x :: cur) ++ c :: u), v.
           rewrite <- !app_assoc. simpl. now rewrite H.
    + intros H. apply IH in H as (u & v & H).
      exists u, v. rewrite <- H. simpl. now rewrite <- app_assoc.
Qed.

Lemma k_suffix_contains s : k_suffix s = true -> contains (txt "k") s = true.
Proof.
  induction s as [|d s IH]; [discriminate|].
  destruct s as [|c s]; [discriminate|].
  change (k_suffix (d :: c :: s))
    with ((isdigit d && ascii_eqb c "k"%char) || k_suffix (c :: s)).
  change (contains (txt "k") (d :: c :: s))
    with (startswith (txt "k") (d :: c :: s) || contains (txt "k") (c :: s)).
  intros H. apply orb_true_iff in H as [H | H].
  - apply andb_true_iff in H as [_ H]. apply ascii_eqb_eq in H. subst c.
    rewrite orb_true_iff. right. reflexivity.
  - rewrite (IH H). apply orb_true_r.
Qed.

(** A k suffix or token is a [k] of the text. *)
Lemma k_mark_contains s : k_mark s = true -> contains (txt "k") s = true.
Proof.
  unfold k_mark. intros H. apply orb_true_iff in H as [H | H].
  - now apply k_suffix_contains.
  - unfold k_token in H. apply existsb_exists in H as (w & Hw & E).
    apply str_eqb_eq in E. subst w.
    apply (split_aux_inside s []) in Hw as (u & v & Hs).
    apply contains_spec. exists u, v. exact Hs.
Qed.

(** Where every [k] that counts is a suffix or a token, the price the
    code computes is the price by the k rule. *)
Lemma price_of_k_rule ql text :
  lower ql = ql ->
  (contains (txt "k") ql = true -> below_100 text = true ->
   k_mark ql = true) ->
  price_of ql text = amount_price (k_mark ql) text.
Proof.
  intros Hlow Hk. unfold price_of, amount_price, below_100 in *.
  rewrite Hlow. destruct (float_of_str text) as [x|e]; [|reflexivity].
  cbn [bind]. destruct (fltb x (nearest_float 100)).
  - destruct (contains (txt "k") ql) eqn:Ec.
    + now rewrite (Hk eq_refl eq_refl).
    + destruct (k_mark ql) eqn:Em; [|reflexivity].
      apply k_mark_contains in Em. congruence.
  - now rewrite !andb_false_r.
Qed.

Lemma amount_price_digits k ds :
  forallb isdigit ds = true -> ds <> [] ->
  0 < digits_value ds < 2 ^ 53 ->
  amount_price k ds = Ok (k_shorthand k (digits_value ds)).
Proof.
  intros Hd Hne Hv. unfold amount_price.
  rewrite (float_of_digits ds Hd Hne). cbn [bind].
  apply (price_exact k _ Hv).
Qed.

(** [analyze_budget] on a text whose leftmost amount phrase of the first
    pattern is ["under " N], when the price of [N] is [n], not zero. *)
Lemma analyze_under_decimal q pre g gs fd post n :
  strip (lower q) = pre ++ txt "under " ++ decimal_text g gs fd ++ post ->
  is_digits g = true -> Forall (fun x => is_digits x = true) gs ->
  forallb isdigit fd = true -> decimal_ends fd post = true ->
  earlier_match under_pattern (strip (lower q)) (List.length pre) = false ->
  price_of (strip (lower q)) (decimal_literal g gs fd) = Ok n -> n <> 0 ->
  exists a,
    analyze_budget q = Ok a
    /\ max_budget a = Some n /\ budget_type a = txt "specific".
Proof.
  intros Hql Hg Hgs Hfd Hpost Hearly Hn Hn0.
  set (ql := strip (lower q)) in *.
  assert (Hlow : lower ql = ql) by apply lower_normalised.
  assert (Hp : _extract_price ql = Ok (Some n)).
  { unfold _extract_price. rewrite Hlow.
    assert (Hkw : any_in budget_keywords ql = true).
    { apply (any_in_intro budget_keywords (txt "under")); [now left|].
      apply contains_spec.
      exists pre, (" "%char :: decimal_text g gs fd ++ post).
      rewrite Hql. reflexivity. }
    rewrite Hkw. cbn [negb].
    assert (Hs : search under_pattern ql
                 = Some [(1%nat, decimal_text g gs fd)]).
    { apply (search_leftmost under_pattern (List.length pre)); [exact Hearly|].
      rewrite Hql, skipn_length_app. now apply match_under_decimal. }
    unfold budget_patterns. cbn [extract_loop]. rewrite Hs.
    change (str_eqb (txt "under") (txt "range")) with false. cbv iota.
    cbn [group Nat.eqb].
    rewrite (remove_comma_decimal g gs fd Hg Hgs Hfd), Hn. reflexivity. }
  assert (Ht : truthy_int (Some n) = true).
  { simpl. now apply negb_true_iff, Z.eqb_neq. }
  unfold analyze_budget, _detect_budget_type. fold ql. rewrite Hp. cbn [bind].
  rewrite Ht. cbn [bind]. eexists. split; [reflexivity|]. split; reflexivity.
Qed.

(** ** The sorter of the examples *)

(** The stable sort is a sorter.  The examples, the witnesses and the
    counterexamples below run the program on it; the lists they sort
    hold no NaN, so every sorter returns there what this one does. *)
#[global] Instance insertion : sorter :=
  {| list_sort := stable_sort;
     list_sort_permutes := stable_sort_perm;
     list_sort_stable := fun A lt l _ => eq_refl |}.

(* ================================================================== *)
(** * The claims *)
(* ================================================================== *)

(** ** C1 *)

(** C1, amended.  Let the normalised text of a query (lower-cased, then
    stripped) read [pre ++ "under " ++ N ++ post], where [N] is an amount,
    digits in groups that commas separate and maybe a fraction, that ends
    there; let the first budget pattern match nowhere before this
    ["under"]; and, if the text has a [k] and [N] is below 100, let it
    have a [k] that is the suffix of a number or a word of its own.
    Then, when the price of [N] by the k rule is [n] and not zero,
    [analyze_budget] returns [n] as [max_budget] and ['specific'] as
    [budget_type]; the price is the integer part of the binary64 value
    of [N], its commas dropped, times 1000 before when a k suffix or
    token is there and the value is below 100.  For a whole [N] worth
    more than 0 and less than 2^53 that is [N] itself, times 1000 under
    the k rule. *)
Theorem C1_under_amount_sets_ceiling q pre g gs fd post :
  strip (lower q) = pre ++ txt "under " ++ decimal_text g gs fd ++ post ->
  is_digits g = true -> Forall (fun x => is_digits x = true) gs ->
  forallb isdigit fd = true -> decimal_ends fd post = true ->
  earlier_match under_pattern (strip (lower q)) (List.length pre) = false ->
  (contains (txt "k") (strip (lower q)) = true ->
   below_100 (decimal_literal g gs fd) = true ->
   k_mark (strip (lower q)) = true) ->
  (forall n,
     amount_price (k_mark (strip (lower q))) (decimal_literal g gs fd) = Ok n ->
     n <> 0 ->
     exists a,
       analyze_budget q = Ok a
       /\ max_budget a = Some n /\ budget_type a = txt "specific")
  /\ (fd = [] -> 0 < amount_value g gs < 2 ^ 53 ->
      exists a,
        analyze_budget q = Ok a
        /\ max_budget a
           = Some (k_shorthand (k_mark (strip (lower q))) (amount_value g gs))
        /\ budget_type a = txt "specific").
Proof.
  intros Hql Hg Hgs Hfd Hpost Hearly Hk.
  pose proof (price_of_k_rule (strip (lower q)) (decimal_literal g gs fd)
                (lower_normalised q) Hk) as Hprice.
  assert (Hgen : forall n,
             amount_price (k_mark (strip (lower q))) (decimal_literal g gs fd)
             = Ok n ->
             n <> 0 ->
             exists a,
               analyze_budget q = Ok a
               /\ max_budget a = Some n /\ budget_type a = txt "specific").
  { intros n Hn Hn0. rewrite <- Hprice in Hn.
    exact (analyze_under_decimal q pre g gs fd post n Hql Hg Hgs Hfd Hpost
             Hearly Hn Hn0). }
  split; [exact Hgen|].
  intros -> Hv. unfold amount_value in *. apply Hgen.
  - unfold decimal_literal. cbn [fraction_text]. rewrite app_nil_r.
    destruct (digits_concat g gs Hg Hgs) as [Hd Hne].
    now apply amount_price_digits.
  - pose proof (k_shorthand_pos (k_mark (strip (lower q)))
                  (digits_value (g ++ List.concat gs)) (proj1 Hv)). lia.
Qed.

(** C1 at ["Phone UNDER 1.5k"]: the price of 1.5 under the k rule is
    1500, and so is the ceiling. *)
Lemma C1_under_amount_witness :
  strip (lower (txt "Phone UNDER 1.5k"))
  = txt "phone " ++ txt "under " ++ decimal_text (txt "1") [] (txt "5")
    ++ txt "k"
  /\ k_mark (strip (lower (txt "Phone UNDER 1.5k"))) = true
  /\ amount_price true (decimal_literal (txt "1") [] (txt "5")) = Ok 1500
  /\ exists a,
       analyze_budget (txt "Phone UNDER 1.5k") = Ok a
       /\ max_budget a = Some 1500 /\ budget_type a = txt "specific".
Proof.
  split; [reflexivity|]. split; [reflexivity|].
  split; [vm_compute; reflexivity|].
  refine (proj1 (C1_under_amount_sets_ceiling
                   (txt "Phone UNDER 1.5k")
                   (txt "phone ") (txt "1") [] (txt "5") (txt "k")
                   _ _ _ _ _ _ _) 1500 _ _).
  - reflexivity.
  - reflexivity.
  - constructor.
  - reflexivity.
  - reflexivity.
  - vm_compute. reflexivity.
  - intros _ _. reflexivity.
  - vm_compute. reflexivity.
  - discriminate.
Defined.

(** C1 as stated fails in four ways.  ["below 100 under 200"] contains
    ["under "] and the amount 200, and its ceiling is 100, the amount of
    the phrase the pattern finds first.  The ceiling for ["under
    1500.75"] is 1500, and the one for ["under 9007199254740993"], which
    is [2^53 + 1], is [2^53]: neither is the amount.  For ["under 0"]
    the ceiling is the default 50000 and the tier ['low']. *)
Lemma C1_amount_counterexample :
  (strip (lower (txt "below 100 under 200"))
   = txt "below 100 " ++ txt "under " ++ decimal_text (txt "200") [] [] ++ []
   /\ amount_value (txt "200") [] = 200
   /\ analyze_budget (txt "below 100 under 200")
      = Ok {| BudgetAnalyzer.category := None;
              max_budget := Some 100;
              budget_type := txt "specific";
              specific_budget := Some 100;
              original_query := txt "below 100 under 200" |})
  /\ (analyze_budget (txt "under 1500.75")
      = Ok {| BudgetAnalyzer.category := None;
              max_budget := Some 1500;
              budget_type := txt "specific";
              specific_budget := Some 1500;
              original_query := txt "under 1500.75" |}
      /\ float_of_str (txt "1500.75") <> float_of_str (txt "1500"))
  /\ (amount_value (txt "9007199254740993") [] = 2 ^ 53 + 1
      /\ analyze_budget (txt "under 9007199254740993")
         = Ok {| BudgetAnalyzer.category := None;
                 max_budget := Some (2 ^ 53);
                 budget_type := txt "specific";
                 specific_budget := Some (2 ^ 53);
                 original_query := txt "under 9007199254740993" |})
  /\ analyze_budget (txt "under 0")
     = Ok {| BudgetAnalyzer.category := None;
             max_budget := Some 50000;
             budget_type := txt "low";
             specific_budget := Some 0;
             original_query := txt "under 0" |}.
Proof.
  split; [|split; [|split]].
  - split; [reflexivity|]. split; [reflexivity|]. vm_compute. reflexivity.
  - split; [vm_compute; reflexivity|]. vm_compute. discriminate.
  - split; [reflexivity|]. vm_compute. reflexivity.
  - vm_compute. reflexivity.
Qed.

(** The k test of the code is a test for the letter: a [k] inside a word
    counts, and ["nike shoes under 99"] gets the ceiling 99000.  The
    amended claim leaves such queries out. *)
Example price_k_inside_a_word :
  k_mark (txt "nike shoes under 99") = false
  /\ exists a, analyze_budget (txt "nike shoes under 99") = Ok a
               /\ max_budget a = Some 99000.
Proof. split; [reflexivity|]. eexists. split; vm_compute; reflexivity. Qed.

(** What the tests of the analyzer expect of explicit prices. *)
Example price_under_5000 :
  exists a, analyze_budget (txt "shoes under 5000") = Ok a
            /\ max_budget a = Some 5000.
Proof. eexists. split; vm_compute; reflexivity. Qed.

Example price_k_notation :
  exists a, analyze_budget (txt "phone under 30k") = Ok a
            /\ max_budget a = Some 30000.
Proof. eexists. split; vm_compute; reflexivity. Qed.

Example price_rs_notation :
  exists a, analyze_budget (txt "phone under Rs. 30000") = Ok a
            /\ max_budget a = Some 30000.
Proof. eexists. split; vm_compute; reflexivity. Qed.

Example price_between_range :
  exists a, analyze_budget (txt "laptop between 40000 and 80000") = Ok a
            /\ max_budget a = Some 80000 /\ budget_type a = txt "specific".
Proof. eexists. split; [|split]; vm_compute; reflexivity. Qed.

(** An amount with a fraction goes through binary64: [1.005 * 1000] is
    [1004.9999999999999], cut to 1004. *)
Example price_fraction_k :
  exists a, analyze_budget (txt "under 1.005k") = Ok a
            /\ max_budget a = Some 1004.
Proof. eexists. split; vm_compute; reflexivity. Qed.

(** A whole amount from [2^53] on is rounded on the way: [2^53 + 1]
    comes back as [2^53]. *)
Example price_rounded :
  exists a, analyze_budget (txt "under 9007199254740993") = Ok a
            /\ max_budget a = Some 9007199254740992.
Proof. eexists. split; vm_compute; reflexivity. Qed.

(** An amount of zero counts as no amount. *)
Example price_zero :
  analyze_budget (txt "under 0")
  = Ok {| BudgetAnalyzer.category := None;
          max_budget := Some 50000;
          budget_type := txt "low";
          specific_budget := Some 0;
          original_query := txt "under 0" |}.
Proof. vm_compute. reflexivity. Qed.

(** An amount beyond the floats makes the analyzer raise. *)
Example price_overflow :
  analyze_budget huge_query
  = Raise (OverflowError "cannot convert float infinity to integer").
Proof. vm_compute. reflexivity. Qed.

(** ** C2 *)

(** C2, amended.  In what [analyze_budget] returns: a [specific_budget]
    that is set and not zero comes with [budget_type = 'specific'] and is
    the [max_budget]; with [specific_budget] absent or zero, [max_budget]
    is the entry of [BUDGET_RANGES] for the category and the tier, and
    50000 when there is no category. *)
Theorem C2_constraints_invariant q a :
  analyze_budget q = Ok a ->
  (forall n, specific_budget a = Some n -> n <> 0 ->
             budget_type a = txt "specific" /\ max_budget a = Some n)
  /\ (truthy_int (specific_budget a) = false ->
      match BudgetAnalyzer.category a with
      | None => max_budget a = Some 50000
      | Some c =>
          exists row b,
            dict_get BUDGET_RANGES c = Some row
            /\ dict_get row (budget_type a) = Some b
            /\ max_budget a = Some b
      end).
Proof.
  intros H. apply analyze_budget_inv in H as (p & _ & Hp & Hc & _ & H).
  cbv zeta in Hc. rewrite Hp. split.
  - intros n -> Hn.
    assert (E : truthy_int (Some n) = true)
      by (simpl; now apply negb_true_iff, Z.eqb_neq).
    rewrite E in H. exact H.
  - intros E. rewrite E in H. destruct H as [Ht Hm].
    pose proof (tier_cases (strip (lower q))) as Htier. rewrite <- Ht in Htier.
    rewrite Hm. destruct (BudgetAnalyzer.category a) as [c|] eqn:Ec.
    + symmetry in Hc. apply detect_category_cases in Hc.
      simpl in Hc, Htier.
      destruct Hc as [<- | [<- | [<- | []]]];
        destruct Htier as [<- | [<- | [<- | []]]];
        eexists; eexists; repeat split; reflexivity.
    + simpl in Htier.
      destruct Htier as [<- | [<- | [<- | []]]]; reflexivity.
Qed.

(** C2 at ["cheap mobile phones"]: no price, and the ceiling is the
    default of (mobiles, low), 15000. *)
Lemma C2_constraints_witness :
  let q := txt "cheap mobile phones" in
  let a := {| BudgetAnalyzer.category := Some (txt "mobiles");
              max_budget := Some 15000;
              budget_type := txt "low";
              specific_budget := None;
              original_query := q |} in
  analyze_budget q = Ok a
  /\ (forall n, specific_budget a = Some n -> n <> 0 ->
                budget_type a = txt "specific" /\ max_budget a = Some n)
  /\ (truthy_int (specific_budget a) = false ->
      match BudgetAnalyzer.category a with
      | None => max_budget a = Some 50000
      | Some c =>
          exists row b,
            dict_get BUDGET_RANGES c = Some row
            /\ dict_get row (budget_type a) = Some b
            /\ max_budget a = Some b
      end).
Proof.
  intros q a.
  assert (H : analyze_budget q = Ok a) by (vm_compute; reflexivity).
  split; [exact H|].
  exact (C2_constraints_invariant q a H).
Defined.

(** C2 as stated fails: for ["under 0"] the [specific_budget] is set, to
    0, while the tier is ['low'] and the ceiling the default 50000. *)
Lemma C2_zero_price_counterexample :
  exists a,
    analyze_budget (txt "under 0") = Ok a
    /\ specific_budget a = Some 0
    /\ budget_type a <> txt "specific"
    /\ max_budget a <> specific_budget a.
Proof.
  eexists. split; [vm_compute; reflexivity|].
  repeat split; simpl; discriminate.
Qed.

(** ** C3 *)

(** C3.  Whatever repository is behind it, [process_query] returns and
    does not raise; and when a stage raises, be it the extraction, the
    retrieval or the scoring, what it returns is the dictionary with
    [success] false, the message of the exception as [error], and no
    products. *)
Theorem C3_process_query_never_raises {S : sorter} search q db :
  (exists r db', process_query_with search q db = (Ok r, db'))
  /\ (forall e db',
        stage_raises search q db e db' ->
        process_query_with search q db
        = (Ok (Failed (exn_message e) q []), db')).
Proof.
  destruct (process_query_cases search q db)
    as [(e & db' & Hr & H) | (a & found & ranked & db' & Hp & H)].
  - split; [eauto|]. intros e2 db2 Hr2.
    destruct (stage_raises_det _ _ _ _ _ _ _ Hr Hr2) as [<- <-]. exact H.
  - split; [eauto|]. intros e2 db2 Hr2. exfalso.
    exact (stage_raises_excl _ _ _ _ _ _ _ _ _ Hr2 Hp).
Qed.

(** C3 at a query with an amount of 400 digits: the extraction raises
    [OverflowError], and the pipeline answers with the failure. *)
Lemma C3_process_query_witness :
  stage_raises mock_search huge_query sample_catalog
    (OverflowError "cannot convert float infinity to integer") sample_catalog
  /\ process_query huge_query sample_catalog
     = (Ok (Failed "cannot convert float infinity to integer" huge_query []),
        sample_catalog).
Proof.
  assert (H : stage_raises mock_search huge_query sample_catalog
                (OverflowError "cannot convert float infinity to integer")
                sample_catalog).
  { apply extraction_raises. vm_compute. reflexivity. }
  split; [exact H|].
  exact (proj2 (C3_process_query_never_raises mock_search huge_query
                  sample_catalog) _ _ H).
Defined.

(** ** C5 *)

(** C5.  What [process_query] returns has at most three products.  When
    it has a [total_found], that is the number of candidates the
    repository returned, and the products are the first three of the
    ranked list, which is the candidates in another order: ranking drops
    none and adds none. *)
Theorem C5_top_three_of_all_candidates {S : sorter} search q db r db' :
  process_query_with search q db = (Ok r, db') ->
  (List.length (products r) <= 3)%nat
  /\ (forall n, total_found r = Some n ->
        exists a found ranked,
          stages_pass search q db a found ranked db'
          /\ n = List.length found
          /\ Permutation found ranked
          /\ products r = firstn 3 ranked)
  /\ (forall ps a ranked,
        _filter_and_rank ps q a = Ok ranked -> Permutation ps ranked).
Proof.
  intros H. split; [|split].
  - destruct (process_query_cases search q db)
      as [(e & db1 & _ & H1) | (a & found & ranked & db1 & _ & H1)];
      rewrite H1 in H; injection H as <- <-; cbn [products].
    + simpl. lia.
    + exact (firstn_le_length 3 ranked).
  - intros n Hn.
    destruct (process_query_cases search q db)
      as [(e & db1 & _ & H1) | (a & found & ranked & db1 & Hp & H1)];
      rewrite H1 in H; injection H as <- <-; cbn [total_found products] in *.
    + discriminate.
    + injection Hn as <-. exists a, found, ranked.
      repeat split; try apply Hp.
      destruct Hp as (_ & _ & Hk). now apply filter_and_rank_perm in Hk.
  - intros ps a ranked. apply filter_and_rank_perm.
Qed.

(** C5 at ["laptop"] on a catalog with four laptops: four found, three
    returned. *)
Lemma C5_top_three_witness :
  exists r,
    process_query (txt "laptop") big_catalog = (Ok r, big_catalog)
    /\ total_found r = Some 4%nat
    /\ List.length (products r) = 3%nat
    /\ (List.length (products r) <= 3)%nat
    /\ (forall n, total_found r = Some n ->
          exists a found ranked,
            stages_pass mock_search (txt "laptop") big_catalog a found ranked
                        big_catalog
            /\ n = List.length found
            /\ Permutation found ranked
            /\ products r = firstn 3 ranked).
Proof.
  eexists. split; [vm_compute; reflexivity|].
  split; [reflexivity|]. split; [reflexivity|].
  refine (let H := C5_top_three_of_all_candidates mock_search (txt "laptop")
                     big_catalog _ big_catalog _ in
          conj (proj1 H) (proj1 (proj2 H))).
  vm_compute. reflexivity.
Defined.

(** ** C8 *)

Lemma process_query_frame {S : sorter} q db : snd (process_query q db) = db.
Proof.
  unfold process_query, process_query_with, try_db, bind_db, pure, mock_search.
  destruct (analyze_budget q) as [a|e] eqn:Ea; [|reflexivity].
  pose proof (search_products_frame (Some q) (BudgetAnalyzer.category a)
                (max_budget a) None None None db (max_budget_truthy q a Ea))
    as Hf.
  destruct (search_products _ _ _ _ _ _ db) as [found db1]. simpl in Hf.
  subst db1. destruct (_filter_and_rank found q a); reflexivity.
Qed.


(** Two runs of ["cheap red shoes"] on the sample catalog, the second
    behind a run of ["laptop"]. *)
Example two_runs_agree :
  exists r,
    process_query (txt "cheap red shoes") sample_catalog = (r, sample_catalog)
    /\ process_query (txt "cheap red shoes")
                     (catalog_after [txt "cheap red shoes"; txt "laptop"]
                                    sample_catalog)
       = (r, sample_catalog).
Proof. eexists. split; vm_compute; reflexivity. Qed.

(** ** C7 *)

Lemma process_query_products {S : sorter} q db r db' p :
  process_query q db = (Ok r, db') -> In p (products r) ->
  exists a,
    analyze_budget q = Ok a
    /\ In p (fst (search_products (Some q) (BudgetAnalyzer.category a)
                                  (max_budget a) None None None db)).
Proof.
  intros H Hin. unfold process_query in H.
  destruct (process_query_cases mock_search q db)
    as [(e & db1 & _ & H1) | (a & found & ranked & db1 & Hp & H1)];
    rewrite H1 in H; injection H as <- <-; cbn [products] in Hin;
    [contradiction|].
  destruct Hp as (Ha & Hs & Hk). exists a. split; [exact Ha|].
  apply (In_firstn 3 ranked) in Hin. apply filter_and_rank_perm in Hk.
  apply (Permutation_in _ (Permutation_sym Hk)) in Hin.
  unfold mock_search in Hs.
  destruct (search_products _ _ _ _ _ _ db) as [f d]. simpl.
  now injection Hs as -> _.
Qed.

(** C7.  The category of ["non-Apple laptop"] is electronics.  Whenever
    the text handed to the repository has ["non-apple"] in it, in any
    case of letters, no product the search returns has ["apple"] in its
    brand; nor has any product the pipeline returns for such a query, and
    so for ["non-Apple laptop"]. *)
Theorem C7_non_apple_excluded {S : sorter} :
  (exists a, analyze_budget (txt "non-Apple laptop") = Ok a
             /\ BudgetAnalyzer.category a = Some (txt "electronics"))
  /\ (forall q cat C br col pl db p,
        contains (txt "non-apple") (lower q) = true ->
        In p (fst (search_products (Some q) cat C br col pl db)) ->
        contains (txt "apple") (lower (brand p)) = false)
  /\ (forall q db r db' p,
        contains (txt "non-apple") (lower q) = true ->
        process_query q db = (Ok r, db') -> In p (products r) ->
        contains (txt "apple") (lower (brand p)) = false)
  /\ (forall db r db' p,
        process_query (txt "non-Apple laptop") db = (Ok r, db') ->
        In p (products r) ->
        contains (txt "apple") (lower (brand p)) = false).
Proof.
  assert (Hgen : forall q db r db' p,
             contains (txt "non-apple") (lower q) = true ->
             process_query q db = (Ok r, db') -> In p (products r) ->
             contains (txt "apple") (lower (brand p)) = false).
  { intros q db r db' p Hq H Hin.
    destruct (process_query_products q db r db' p H Hin) as (a & _ & Hp).
    eapply search_products_no_apple; eauto. }
  split; [|split; [|split]].
  - eexists. split; vm_compute; reflexivity.
  - intros q cat C br col pl db p. apply search_products_no_apple.
  - exact Hgen.
  - intros db r db' p. apply Hgen. reflexivity.
Qed.

(** C7 at ["non-Apple laptop"] on the sample catalog, which has a MacBook
    of the brand Apple: the ThinkPad alone is returned. *)
Lemma C7_non_apple_witness :
  In macbook sample_catalog
  /\ contains (txt "apple") (lower (brand macbook)) = true
  /\ exists r,
       process_query (txt "non-Apple laptop") sample_catalog
       = (Ok r, sample_catalog)
       /\ products r = [thinkpad]
       /\ contains (txt "apple") (lower (brand thinkpad)) = false.
Proof.
  split; [right; left; reflexivity|]. split; [reflexivity|].
  eexists. split; [vm_compute; reflexivity|]. split; [reflexivity|].
  refine (proj2 (proj2 (proj2 C7_non_apple_excluded)) sample_catalog _
                sample_catalog thinkpad _ _).
  - vm_compute. reflexivity.
  - left. reflexivity.
Defined.

(** ** C6 *)

(** C6, amended.  For every catalog and every ceiling [C] other than
    zero, every product [search_products] returns with [max_price = C]
    has a price of at most [C]. *)
Theorem C6_ceiling_respected {S : sorter} q cat C br col pl db p :
  C <> 0 ->
  In p (fst (search_products q cat (Some C) br col pl db)) ->
  price p <= C.
Proof.
  intros HC Hin. unfold search_products in Hin. cbn [fst] in Hin.
  apply (Permutation_in _ (list_sort_permutes _ _)) in Hin.
  revert p Hin. apply Forall_forall.
  do 5 apply rebind_Forall.
  eapply Forall_impl; [|apply rebind_keeps].
  - intros a Ha. now apply Z.leb_le.
  - simpl. now apply negb_true_iff, Z.eqb_neq.
Qed.

(** C6 at the ceiling 3000 on the sample catalog: the shoes at 2499 are
    returned. *)
Lemma C6_ceiling_witness :
  3000 <> 0
  /\ In nike_air_max
        (fst (search_products None None (Some 3000) None None None
                              sample_catalog))
  /\ price nike_air_max <= 3000.
Proof.
  assert (H0 : 3000 <> 0) by discriminate.
  assert (Hin : In nike_air_max
                   (fst (search_products None None (Some 3000) None None None
                                         sample_catalog)))
    by (left; reflexivity).
  split; [exact H0|]. split; [exact Hin|].
  exact (C6_ceiling_respected None None 3000 None None None sample_catalog
           nike_air_max H0 Hin).
Defined.

(** C6 as stated fails at the ceiling 0: the filter is skipped, and the
    MacBook at 99900 is returned. *)
Lemma C6_zero_ceiling_counterexample :
  In macbook
     (fst (search_products None None (Some 0) None None None sample_catalog))
  /\ ~ price macbook <= 0.
Proof.
  split.
  - right; left. reflexivity.
  - simpl. lia.
Qed.

(** ** C10 *)

(** C10.  With every criterion absent or empty, [search_products] sorts
    the catalog itself: the list it returns is the catalog it leaves
    behind, the old catalog in another order, and [get_product_by_id]
    reads that list from then on.  With ratings that are numbers the list
    is the stable sort of the old catalog by the key (rating negated,
    then price): the better rated first, the cheaper first among the
    equally rated. *)
Theorem C10_search_sorts_catalog_in_place {S : sorter} q cat C br col pl db :
  truthy_str q = false -> truthy_str cat = false -> truthy_int C = false ->
  truthy_str br = false -> truthy_str col = false -> truthy_str pl = false ->
  let found := fst (search_products q cat C br col pl db) in
  let db' := snd (search_products q cat C br col pl db) in
  found = db'
  /\ Permutation db db'
  /\ (forall i, 0 <= i < Z.of_nat (List.length db) ->
        get_product_by_id i db' = nth_error found (Z.to_nat i))
  /\ (Forall (fun p => is_nan (rating p) = false) db ->
      db' = stable_sort sort_key_lt db
      /\ Sorted (in_order sort_key_lt) db'
      /\ Sorted rating_then_price db').
Proof.
  intros Hq Hcat HC Hbr Hcol Hpl.
  rewrite (search_products_in_place q cat C br col pl db Hq Hcat HC Hbr Hcol Hpl).
  cbn [fst snd]. cbv zeta.
  pose proof (list_sort_permutes sort_key_lt db) as Hperm.
  split; [reflexivity|]. split; [now symmetry|]. split.
  - intros i Hi. unfold get_product_by_id.
    rewrite (Permutation_length Hperm).
    destruct (0 <=? i) eqn:E1; [|apply Z.leb_gt in E1; lia].
    destruct (i <? Z.of_nat (List.length db)) eqn:E2;
      [reflexivity | apply Z.ltb_ge in E2; lia].
  - intros Hnan.
    pose proof (list_sort_sorted _ sort_key_lt sort_key_lt_asym db
                  (sort_key_lt_orders db Hnan)) as Hsorted.
    split; [exact (list_sort_stable _ _ (sort_key_lt_orders db Hnan))|].
    split; [exact Hsorted|].
    apply (Sorted_impl_on (fun p => is_nan (rating p) = false)
                          (in_order sort_key_lt)); auto.
    + intros a b. apply in_order_rating_then_price.
    + rewrite Forall_forall in *. intros p Hp. apply Hnan.
      now apply (Permutation_in _ Hperm).
Qed.

(** C10 on the sample catalog: the product under the id 0 is the ThinkPad
    before the call, and the Nike shoes after it. *)
Lemma C10_search_sorts_witness :
  let db := sample_catalog in
  let db' := snd (search_products None None None None None None db) in
  Forall (fun p => is_nan (rating p) = false) db
  /\ get_product_by_id 0 db = Some thinkpad
  /\ get_product_by_id 0 db' = Some nike_air_max
  /\ db' = [nike_air_max; macbook; thinkpad]
  /\ db' = stable_sort sort_key_lt db
  /\ Sorted rating_then_price db'.
Proof.
  intros db db'.
  assert (Hnan : Forall (fun p => is_nan (rating p) = false) db)
    by (repeat constructor).
  pose proof (C10_search_sorts_catalog_in_place None None None None None None
                db eq_refl eq_refl eq_refl eq_refl eq_refl eq_refl)
    as (_ & _ & _ & H4).
  destruct (H4 Hnan) as (H5 & _ & H6).
  split; [exact Hnan|].
  split; [reflexivity|]. split; [reflexivity|]. split; [reflexivity|].
  split; [exact H5 | exact H6].
Defined.

(** ** C4 *)

(** C4, amended.  The score of a product is the sum, taken from 0 in this
    order, of: 2 for each word of the query inside the product's text; 3
    for each color word that is inside the query and inside the product's
    color; 2 when the brand is inside the query; the price-fit term,
    [(1.0 - r) * 2] for [r = price / ceiling <= 1.0] and [-5] otherwise,
    left out when the ceiling is absent or zero; [rating * 1.5]; and 1
    when the categories agree.  The score raises when the division or a
    conversion to float does. *)
Theorem C4_score_is_sum_of_terms query_lower a p :
  score_product query_lower a p
  = score_formula color_term_each query_lower a p.
Proof.
  rename query_lower into ql.
  unfold score_product, score_formula, color_term_each, price_fit.
  rewrite (fold_count (fun t => contains t (product_text p)) 2).
  rewrite (fold_count (fun c => contains c ql && contains c (lower (color p))) 3).
  fold (color_hit ql p).
  set (t := count_hits _ (split ql)).
  set (c := count_hits _ COLOR_KEYWORDS).
  set (cat := truthy_str _ && _).
  set (r := fmul (rating p) f_one_and_half).
  assert (Eb : forall s, (if contains (lower (brand p)) ql then s + 2 else s)
                         = s + (if contains (lower (brand p)) ql then 2 else 0)).
  { intros s. destruct (contains _ ql); lia. }
  rewrite Eb. set (b := if contains (lower (brand p)) ql then 2 else 0).
  assert (Esum : forall fit,
    sum_terms ([Int (2 * t); Int (3 * c); Int b] ++ fit ++ [Float r]
               ++ (if cat then [Int 1] else []))
    = fold_left (fun acc t => bind acc (fun s => num_add s t))
                (fit ++ [Float r] ++ (if cat then [Int 1] else []))
                (Ok (Int (0 + 2 * t + 3 * c + b)))).
  { intros fit. reflexivity. }
  destruct (max_budget a) as [mb|]; cbn [truthy_int].
  - destruct (mb =? 0) eqn:Emb; cbn [negb bind].
    + rewrite Esum. cbn [app fold_left bind num_add to_float].
      destruct (float_of_int _); cbn [bind]; [|destruct cat; reflexivity].
      destruct cat; cbn [fold_left bind num_add to_float]; [|reflexivity].
      rewrite float_of_int_one. reflexivity.
    + destruct (int_truediv (price p) mb) as [ratio|e]; cbn [bind]; [|reflexivity].
      destruct (fleb ratio f_one); cbn [bind]; rewrite Esum;
        cbn [app fold_left bind num_add to_float].
      * destruct (float_of_int _); cbn [bind]; [|destruct cat; reflexivity].
        destruct cat; cbn [fold_left bind num_add to_float]; [|reflexivity].
        rewrite float_of_int_one. reflexivity.
      * change (0 + 2 * t + 3 * c + b + -5) with (0 + 2 * t + 3 * c + b - 5).
        destruct (float_of_int _); cbn [bind]; [|destruct cat; reflexivity].
        destruct cat; cbn [fold_left bind num_add to_float]; [|reflexivity].
        rewrite float_of_int_one. reflexivity.
  - cbn [bind]. rewrite Esum. cbn [app fold_left bind num_add to_float].
    destruct (float_of_int _); cbn [bind]; [|destruct cat; reflexivity].
    destruct cat; cbn [fold_left bind num_add to_float]; [|reflexivity].
    rewrite float_of_int_one. reflexivity.
Qed.

(** C4 as stated fails: for the query ["red blue jacket"] and a jacket
    of the color ["red/blue"] the code adds 3 twice, whether the claim's
    single 3 is read by substring or by equality of the color. *)
Lemma C4_two_colors_counterexample :
  exists a x y z,
    analyze_budget (txt "red blue jacket") = Ok a
    /\ score_product (txt "red blue jacket") a two_tone_jacket = Ok x
    /\ score_formula color_term_once (txt "red blue jacket") a two_tone_jacket
       = Ok y
    /\ score_formula color_term_exact (txt "red blue jacket") a two_tone_jacket
       = Ok z
    /\ color_term_each (txt "red blue jacket") two_tone_jacket = 6
    /\ color_term_once (txt "red blue jacket") two_tone_jacket = 3
    /\ color_term_exact (txt "red blue jacket") two_tone_jacket = 0
    /\ x <> y /\ x <> z.
Proof.
  eexists. eexists. eexists. eexists.
  split; [vm_compute; reflexivity|].
  split; [vm_compute; reflexivity|].
  split; [vm_compute; reflexivity|].
  split; [vm_compute; reflexivity|].
  split; [reflexivity|]. split; [reflexivity|]. split; [reflexivity|].
  split; discriminate.
Qed.

(** ** C9 *)

(** C9.  When no explicit price is extracted (none, or zero), the tier is
    the first of low, medium, high with a keyword that is a substring of
    the normalised query, and low when there is none.  For ["laptop"] the
    keyword ["top"] of the high tier is such a substring: the tier is
    high and the ceiling 250000. *)
Theorem C9_tier_by_substring :
  (forall q a,
     analyze_budget q = Ok a ->
     truthy_int (specific_budget a) = false ->
     let s := strip (lower q) in
     (tier_hit "low" s -> budget_type a = txt "low")
     /\ (~ tier_hit "low" s -> tier_hit "medium" s ->
         budget_type a = txt "medium")
     /\ (~ tier_hit "low" s -> ~ tier_hit "medium" s -> tier_hit "high" s ->
         budget_type a = txt "high")
     /\ (~ tier_hit "low" s -> ~ tier_hit "medium" s -> ~ tier_hit "high" s ->
         budget_type a = txt "low"))
  /\ In (txt "top") (tier_keywords "high")
  /\ txt "laptop" = txt "lap" ++ txt "top" ++ []
  /\ analyze_budget (txt "laptop")
     = Ok {| BudgetAnalyzer.category := Some (txt "electronics");
             max_budget := Some 250000;
             budget_type := txt "high";
             specific_budget := None;
             original_query := txt "laptop" |}.
Proof.
  split; [|split; [|split]].
  - intros q a H Hp s.
    apply analyze_budget_inv in H as (p & _ & Ep & _ & _ & H).
    rewrite Ep in Hp. rewrite Hp in H. destruct H as [Ht _].
    fold s in Ht. rewrite first_hit_tiers in Ht.
    unfold tier_hit.
    destruct (any_in (tier_keywords "low") s) eqn:E1.
    { apply any_in_spec in E1. repeat split; intros; try contradiction; auto. }
    apply any_in_false in E1.
    destruct (any_in (tier_keywords "medium") s) eqn:E2.
    { apply any_in_spec in E2. repeat split; intros; try contradiction; auto. }
    apply any_in_false in E2.
    destruct (any_in (tier_keywords "high") s) eqn:E3.
    { apply any_in_spec in E3. repeat split; intros; try contradiction; auto. }
    apply any_in_false in E3.
    repeat split; intros; try contradiction; auto.
  - vm_compute. tauto.
  - reflexivity.
  - vm_compute. reflexivity.
Qed.

(** C9 at ["best value phone"], where a medium keyword (["value"]) and a
    high one (["best"]) are both inside: medium comes first. *)
Lemma C9_tier_witness :
  let q := txt "best value phone" in
  let a := {| BudgetAnalyzer.category := Some (txt "mobiles");
              max_budget := Some 35000;
              budget_type := txt "medium";
              specific_budget := None;
              original_query := q |} in
  analyze_budget q = Ok a
  /\ ~ tier_hit "low" (strip (lower q))
  /\ tier_hit "medium" (strip (lower q))
  /\ tier_hit "high" (strip (lower q))
  /\ budget_type a = txt "medium".
Proof.
  intros q a.
  assert (Ha : analyze_budget q = Ok a) by (vm_compute; reflexivity).
  assert (Hlow : ~ tier_hit "low" (strip (lower q))).
  { apply any_in_false. vm_compute. reflexivity. }
  assert (Hmed : tier_hit "medium" (strip (lower q))).
  { apply any_in_spec. vm_compute. reflexivity. }
  assert (Hhigh : tier_hit "high" (strip (lower q))).
  { apply any_in_spec. vm_compute. reflexivity. }
  split; [exact Ha|]. split; [exact Hlow|]. split; [exact Hmed|].
  split; [exact Hhigh|].
  exact (proj1 (proj2 (proj1 C9_tier_by_substring q a Ha eq_refl)) Hlow Hmed).
Defined.

(* ================================================================== *)
(** * Further properties *)
(* ================================================================== *)

Import MockProductDatabaseOps SuggestionOps SpecMore.

(** ** The catalog: ids, additions, price ranges, top rated *)

Lemma get_product_by_id_spec i db :
  get_product_by_id i db
  = if (0 <=? i) && (i <? Z.of_nat (List.length db))
    then nth_error db (Z.to_nat i) else None.
Proof. reflexivity. Qed.

(** X1.  Ids are positions.  An id below 0 or from the length on has no
    product, every other id has one; a product that is added gets the old
    length as its id, and the ids there were keep their products. *)
Theorem X1_ids_and_add_product p db :
  (forall i, get_product_by_id i db = None
             <-> (i < 0 \/ Z.of_nat (List.length db) <= i))
  /\ get_product_by_id (Z.of_nat (List.length db)) (add_product p db) = Some p
  /\ (forall i, 0 <= i < Z.of_nat (List.length db) ->
        get_product_by_id i (add_product p db) = get_product_by_id i db).
Proof.
  split; [|split].
  - intros i. unfold get_product_by_id.
    destruct (0 <=? i) eqn:E1; destruct (i <? Z.of_nat (List.length db)) eqn:E2;
      simpl; try apply Z.leb_le in E1; try apply Z.leb_gt in E1;
      try apply Z.ltb_lt in E2; try apply Z.ltb_ge in E2;
      try (split; [intros _|reflexivity]; lia).
    split; [|lia]. intros H. apply nth_error_None in H. lia.
  - unfold get_product_by_id, add_product. rewrite length_app. simpl.
    rewrite Nat2Z.id.
    destruct (0 <=? Z.of_nat (List.length db)) eqn:E1;
      [|apply Z.leb_gt in E1; lia].
    destruct (Z.of_nat (List.length db) <? Z.of_nat (List.length db + 1)) eqn:E2;
      [|apply Z.ltb_ge in E2; lia].
    simpl. rewrite nth_error_app2 by lia. now rewrite Nat.sub_diag.
  - intros i Hi. unfold get_product_by_id, add_product. rewrite length_app.
    simpl List.length.
    destruct (0 <=? i) eqn:E1; [|apply Z.leb_gt in E1; lia].
    destruct (i <? Z.of_nat (List.length db)) eqn:E2;
      [|apply Z.ltb_ge in E2; lia].
    destruct (i <? Z.of_nat (List.length db + 1)) eqn:E3;
      [|apply Z.ltb_ge in E3; lia].
    simpl. apply nth_error_app1. lia.
Qed.

Lemma py_min_spec l : forall x,
  (forall y, In y (x :: l) -> py_min x l <= y) /\ In (py_min x l) (x :: l).
Proof.
  unfold py_min. induction l as [|z l IH]; intros x.
  - simpl. split; [intros y [<- | []]; lia | now left].
  - cbn [fold_left]. destruct (IH (Z.min x z)) as [H1 H2]. split.
    + intros y Hy.
      assert (Hm : fold_left Z.min l (Z.min x z) <= Z.min x z)
        by (apply H1; now left).
      destruct Hy as [<- | [<- | Hy]]; try lia.
      apply H1. now right.
    + destruct H2 as [H2 | H2].
      * rewrite <- H2. destruct (Z.min_spec x z) as [[_ ->] | [_ ->]];
          [now left | right; now left].
      * right. now right.
Qed.

Lemma py_max_spec l : forall x,
  (forall y, In y (x :: l) -> y <= py_max x l) /\ In (py_max x l) (x :: l).
Proof.
  unfold py_max. induction l as [|z l IH]; intros x.
  - simpl. split; [intros y [<- | []]; lia | now left].
  - cbn [fold_left]. destruct (IH (Z.max x z)) as [H1 H2]. split.
    + intros y Hy.
      assert (Hm : Z.max x z <= fold_left Z.max l (Z.max x z))
        by (apply H1; now left).
      destruct Hy as [<- | [<- | Hy]]; try lia.
      apply H1. now right.
    + destruct H2 as [H2 | H2].
      * rewrite <- H2. destruct (Z.max_spec x z) as [[_ ->] | [_ ->]];
          [right; now left | now left].
      * right. now right.
Qed.

Lemma of_category_In category db p :
  In p (of_category category db)
  <-> In p db /\ (truthy_str category = true ->
                  Some (MockProductDatabase.category p) = category).
Proof.
  unfold of_category. destruct category as [[|c s]|]; simpl.
  - split; [intros H; split; [exact H | discriminate] | tauto].
  - rewrite filter_In, str_eqb_eq. split.
    + intros [H ->]. auto.
    + intros [H E]. split; [exact H|]. specialize (E eq_refl). congruence.
  - split; [intros H; split; [exact H | discriminate] | tauto].
Qed.

(** X2.  The price range of a category (of the whole catalog when the
    category is [None] or empty) is [{0, 0}] when no product is in it;
    otherwise its two ends are prices of products in it, and the price of
    every product in it lies between them. *)
Theorem X2_price_range_bounds category db :
  let r := get_price_range category db in
  (of_category category db = [] -> range_min r = 0 /\ range_max r = 0)
  /\ (of_category category db <> [] ->
      (exists p, In p (of_category category db) /\ price p = range_min r)
      /\ (exists p, In p (of_category category db) /\ price p = range_max r)
      /\ (forall p, In p (of_category category db) ->
                    range_min r <= price p <= range_max r)).
Proof.
  unfold get_price_range. cbv zeta.
  destruct (of_category category db) as [|q ps] eqn:E; split.
  - intros _. split; reflexivity.
  - congruence.
  - discriminate.
  - intros _.
    assert (Em : map price (q :: ps) = price q :: map price ps) by reflexivity.
    rewrite Em. cbn [range_min range_max].
    destruct (py_min_spec (map price ps) (price q)) as [Hmin1 Hmin2].
    destruct (py_max_spec (map price ps) (price q)) as [Hmax1 Hmax2].
    rewrite <- Em in *. repeat split.
    + apply in_map_iff in Hmin2 as (p & Hp & Hin). eauto.
    + apply in_map_iff in Hmax2 as (p & Hp & Hin). eauto.
    + apply Hmin1. now apply in_map.
    + apply Hmax1. now apply in_map.
Qed.

Lemma slice_to_length {A} limit (l : list A) :
  List.length (slice_to limit l)
  = if limit <? 0
    then Nat.min (Z.to_nat (Z.of_nat (List.length l) + limit)) (List.length l)
    else Nat.min (Z.to_nat limit) (List.length l).
Proof. unfold slice_to. destruct (limit <? 0); apply length_firstn. Qed.

Lemma In_slice_to {A} limit (l : list A) x : In x (slice_to limit l) -> In x l.
Proof. unfold slice_to. destruct (limit <? 0); apply In_firstn. Qed.

Lemma Sorted_firstn {A} (R : A -> A -> Prop) n : forall l,
  Sorted R l -> Sorted R (firstn n l).
Proof.
  induction n as [|n IH]; intros l H; [constructor|].
  destruct l as [|x l]; [constructor|]. simpl.
  inversion H as [|? ? Hs Hhd]; subst. constructor; [auto|].
  destruct l as [|y l]; [destruct n; constructor|].
  destruct n; [constructor|]. simpl. constructor. now inversion Hhd.
Qed.

Lemma HdRel_app_one {A} (R : A -> A -> Prop) a l x :
  HdRel R a l -> R a x -> HdRel R a (l ++ [x]).
Proof. intros H Hx. destruct l; simpl; constructor; auto. now inversion H. Qed.

Lemma Sorted_snoc {A} (R : A -> A -> Prop) l x :
  Sorted R l -> (forall y, last l x = y -> l <> [] -> R y x) ->
  Sorted R (l ++ [x]).
Proof.
  induction l as [|a l IH]; intros Hs Hl; simpl.
  - repeat constructor.
  - inversion Hs as [|? ? Hs' Hhd]; subst. constructor.
    + apply IH; [exact Hs'|]. intros y Hy Hne. apply Hl; [|discriminate].
      destruct l; [congruence | exact Hy].
    + destruct l as [|b l]; simpl.
      * constructor. apply Hl; [reflexivity | discriminate].
      * constructor. now inversion Hhd.
Qed.

(** The reverse of a list in order is in the opposite order. *)
Lemma Sorted_rev {A} (R : A -> A -> Prop) l :
  Sorted R l -> Sorted (fun a b => R b a) (rev l).
Proof.
  induction 1 as [|a l Hs IH Hhd]; simpl; [constructor|].
  apply Sorted_snoc; [exact IH|].
  intros y Hy Hne. destruct l as [|b l]; [simpl in Hne; congruence|].
  inversion Hhd as [|? ? Hab]. simpl in Hy.
  rewrite last_last in Hy. rewrite <- Hy. exact Hab.
Qed.

(** After [sort(reverse=True)], where [<] orders the elements, no element
    is smaller than the next. *)
Lemma list_sort_reverse_sorted {S : sorter} {A} (lt : A -> A -> bool) l :
  (forall a b, lt a b = true -> lt b a = false) ->
  orders lt l ->
  Sorted (fun a b => lt a b = false) (list_sort_reverse lt l).
Proof.
  intros Hasym Ho. rewrite (list_sort_reverse_stable _ lt l Ho).
  apply (Sorted_rev (in_order lt)). now apply stable_sort_sorted.
Qed.

(** In a list of numbers in falling order, no element is below any
    element behind it. *)
Lemma falling_all {A} (f : A -> float) l1 l2 :
  Forall (fun a => is_nan (f a) = false) (l1 ++ l2) ->
  Sorted (fun a b => fltb (f a) (f b) = false) (l1 ++ l2) ->
  forall p q, In p l1 -> In q l2 -> fltb (f p) (f q) = false.
Proof.
  intros Hnan Hs.
  set (R := fun a b : A => ~ key_lt (float_key (f a)) (float_key (f b))).
  assert (HR : Sorted R (l1 ++ l2)).
  { apply (Sorted_impl_on (fun a => is_nan (f a) = false)
                          (fun a b => fltb (f a) (f b) = false));
      [|exact Hnan | exact Hs].
    intros a b Ha Hb H. unfold R. rewrite <- (fltb_key _ _ Ha Hb).
    congruence. }
  assert (Ht : Relations_1.Transitive R).
  { intros a b c. unfold R, key_lt.
    destruct (float_key (f a)) as [a1 [a2 a3]],
             (float_key (f b)) as [b1 [b2 b3]],
             (float_key (f c)) as [c1 [c2 c3]]. simpl. lia. }
  apply (Sorted_StronglySorted Ht) in HR.
  assert (Hall : forall p q, In p l1 -> In q l2 -> R p q).
  { clear Hnan Hs. induction l1 as [|a l1 IH]; intros p q Hp Hq; [contradiction|].
    simpl in HR. apply StronglySorted_inv in HR as [HR Ha].
    destruct Hp as [<- | Hp]; [|now apply IH].
    rewrite Forall_forall in Ha. apply Ha, in_or_app. now right. }
  intros p q Hp Hq. rewrite Forall_forall in Hnan.
  specialize (Hall p q Hp Hq). unfold R in Hall.
  rewrite <- (fltb_key (f p) (f q)) in Hall
    by (apply Hnan, in_or_app; auto).
  now destruct (fltb (f p) (f q)).
Qed.

(** X3.  [get_top_rated] returns the head of a ranking of the products of
    the category asked for (of the whole catalog without one): the
    ranking is those products in another order, and the head is its
    first [limit] products, all of it when it is shorter, and for a
    negative [limit] all of it but the last [-limit].  Where the ratings
    are numbers, the products returned are in falling order of rating,
    and none of the products left out is rated above one returned. *)
Theorem X3_top_rated {S : sorter} category limit db :
  let inside := of_category category db in
  let top := get_top_rated category limit db in
  exists rest,
    Permutation (top ++ rest) inside
    /\ List.length top
       = (if limit <? 0
          then (List.length inside - Z.to_nat (- limit))%nat
          else Nat.min (Z.to_nat limit) (List.length inside))
    /\ (forall p, In p top ->
          In p db /\ (truthy_str category = true ->
                      Some (MockProductDatabase.category p) = category))
    /\ (Forall (fun p => is_nan (rating p) = false) inside ->
        Sorted (fun a b => fltb (rating a) (rating b) = false) top
        /\ (forall p q, In p top -> In q rest ->
                        fltb (rating p) (rating q) = false)).
Proof.
  cbv zeta. unfold get_top_rated. set (ps := of_category category db).
  set (lt := fun a b : product => fltb (rating a) (rating b)).
  pose proof (list_sort_reverse_perm _ lt ps) as Hperm.
  set (ranking := list_sort_reverse lt ps) in *.
  set (k := if limit <? 0
            then Z.to_nat (Z.of_nat (List.length ranking) + limit)
            else Z.to_nat limit).
  assert (Etop : slice_to limit ranking = firstn k ranking).
  { unfold slice_to, k. now destruct (limit <? 0). }
  rewrite Etop. exists (skipn k ranking).
  split; [now rewrite firstn_skipn|]. split; [|split].
  - rewrite length_firstn, <- (Permutation_length Hperm). unfold k.
    destruct (limit <? 0) eqn:E; [apply Z.ltb_lt in E|]; lia.
  - intros p Hp. apply In_firstn in Hp.
    apply (Permutation_in _ Hperm) in Hp. now apply of_category_In in Hp.
  - intros Hnan.
    assert (Hs : Sorted (fun a b => fltb (rating a) (rating b) = false)
                        ranking).
    { apply (list_sort_reverse_sorted lt).
      - intros a b. apply fltb_asym.
      - now apply (fltb_orders rating). }
    split; [now apply Sorted_firstn|].
    apply (falling_all rating); rewrite firstn_skipn; [|exact Hs].
    rewrite Forall_forall in *. intros p Hp. apply Hnan.
    now apply (Permutation_in _ Hperm).
Qed.

(** ** What [search_products] returns *)

Lemma contains_substring k s : contains k s = true <-> substring k s.
Proof. apply contains_spec. Qed.

Lemma contains_not_substring k s : contains k s = false <-> ~ substring k s.
Proof.
  rewrite <- contains_substring. destruct (contains k s); split; congruence.
Qed.

Lemma truthy_str_given x : truthy_str x = true <-> exists s, given_str x s.
Proof.
  unfold given_str. destruct x as [[|c s]|]; simpl; split;
    try discriminate; try (intros (s0 & H & Hne); congruence).
  intros _. exists (c :: s). split; [reflexivity | discriminate].
Qed.

Lemma truthy_int_given x : truthy_int x = true <-> exists n, given_int x n.
Proof.
  unfold given_int. destruct x as [n|]; simpl.
  - rewrite negb_true_iff, Z.eqb_neq. split.
    + intros H. exists n. auto.
    + intros (m & H & Hne). congruence.
  - split; [discriminate | intros (m & H & _); discriminate].
Qed.

Lemma rebind_In cond keep b p :
  In p (fst (rebind cond keep b))
  <-> In p (fst b) /\ (cond = true -> keep p = true).
Proof.
  unfold rebind. destruct cond; simpl.
  - rewrite filter_In. tauto.
  - split; [intros H; split; [exact H | discriminate] | tauto].
Qed.

Lemma rebind_snd cond keep b :
  snd (rebind cond keep b) = snd b && negb cond.
Proof. unfold rebind. destruct cond; simpl; now rewrite ?andb_false_r, ?andb_true_r. Qed.

Lemma matches_words_spec ws p :
  matches_words ws p = true
  <-> exists w field,
        In w ws
        /\ In field [ name p; description p; MockProductDatabase.category p;
                      brand p; color p ]
        /\ substring w (lower field).
Proof.
  unfold matches_words. rewrite existsb_exists. split.
  - intros (w & Hw & H). exists w.
    repeat (apply orb_true_iff in H as [H | H]);
      apply contains_substring in H;
      [exists (name p) | exists (description p)
       | exists (MockProductDatabase.category p)
       | exists (brand p) | exists (color p)];
      (split; [exact Hw|]); (split; [simpl; tauto | exact H]).
  - intros (w & field & Hw & Hf & H). exists w. split; [exact Hw|].
    apply contains_substring in H. simpl in Hf.
    destruct Hf as [<- | [<- | [<- | [<- | [<- | []]]]]]; rewrite H;
      now rewrite ?orb_true_r.
Qed.

Lemma search_products_sound {S : sorter} query category max_price brand color
      platform db p :
  In p (fst (search_products query category max_price brand color platform db))
  -> In p db
     /\ meets_criteria query category max_price brand color platform p.
Proof.
  unfold search_products. cbn [fst].
  intros H. apply (Permutation_in _ (list_sort_permutes _ _)) in H.
  apply rebind_In in H as [H Kna]. apply rebind_In in H as [H Kq].
  apply rebind_In in H as [H Kpl]. apply rebind_In in H as [H Kcol].
  apply rebind_In in H as [H Kb]. apply rebind_In in H as [H Km].
  apply rebind_In in H as [H Kc].
  simpl in H. split; [exact H|]. unfold meets_criteria, given_str, given_int.
  split; [|split; [|split; [|split; [|split]]]].
  - intros c [-> Hc]. destruct c; [congruence|].
    specialize (Kc eq_refl). now apply str_eqb_eq in Kc.
  - intros m [-> Hm]. apply Z.leb_le, Km. simpl.
    now apply negb_true_iff, Z.eqb_neq.
  - intros b [-> Hb]. destruct b; [congruence|].
    apply contains_substring. exact (Kb eq_refl).
  - intros c [-> Hc]. destruct c; [congruence|].
    apply contains_substring. exact (Kcol eq_refl).
  - intros pl [-> Hpl]. destruct pl; [congruence|].
    specialize (Kpl eq_refl). now apply str_eqb_eq in Kpl.
  - intros q [-> Hq]. destruct q as [|c q]; [congruence|]. split.
    + apply matches_words_spec. exact (Kq eq_refl).
    + intros Hna. apply contains_substring in Hna.
      apply contains_not_substring.
      cbn [truthy_str or_empty andb] in Kna. specialize (Kna Hna).
      now apply negb_true_iff in Kna.
Qed.

Lemma search_products_complete {S : sorter} query category max_price brand
      color platform db p :
  In p db ->
  meets_criteria query category max_price brand color platform p ->
  In p (fst (search_products query category max_price brand color platform db)).
Proof.
  unfold search_products. cbn [fst].
  intros Hin (Hc & Hm & Hb & Hcol & Hpl & Hq).
  apply (Permutation_in _ (Permutation_sym (list_sort_permutes _ _))).
  repeat (apply rebind_In; split); try exact Hin.
  - intros Ht. apply truthy_str_given in Ht as (c & Hg).
    pose proof Hg as [-> _]. apply str_eqb_eq. simpl. now apply Hc.
  - intros Ht. apply truthy_int_given in Ht as (m & Hg).
    pose proof Hg as [-> _]. apply Z.leb_le. now apply Hm.
  - intros Ht. apply truthy_str_given in Ht as (b & Hg).
    pose proof Hg as [-> _]. apply contains_substring. simpl. now apply Hb.
  - intros Ht. apply truthy_str_given in Ht as (c & Hg).
    pose proof Hg as [-> _]. apply contains_substring. simpl. now apply Hcol.
  - intros Ht. apply truthy_str_given in Ht as (pl & Hg).
    pose proof Hg as [-> _]. apply str_eqb_eq. simpl. now apply Hpl.
  - intros Ht. apply truthy_str_given in Ht as (q & Hg).
    pose proof Hg as [-> _]. apply matches_words_spec. simpl.
    now apply (Hq q Hg).
  - intros Ht. apply andb_true_iff in Ht as [Ht Hna].
    apply truthy_str_given in Ht as (q & Hg).
    pose proof Hg as [-> _]. simpl in Hna.
    apply negb_true_iff, contains_not_substring.
    apply (Hq q Hg). now apply contains_substring.
Qed.

(** X4.  [search_products] returns exactly the products of the catalog
    that meet every criterion that counts: the category itself, a price up
    to the ceiling, the brand and the color as substrings and the
    platform as a whole, all three without regard to case, and for the
    query some word of it inside the name, the description, the category,
    the brand or the color, and no ["apple"] in the brand when the query
    has ["non-apple"]. *)
Theorem X4_search_products_exact {S : sorter} query category max_price brand
        color platform db p :
  In p (fst (search_products query category max_price brand color platform db))
  <-> In p db
      /\ meets_criteria query category max_price brand color platform p.
Proof.
  split.
  - apply search_products_sound.
  - intros [Hin Hm]. now apply search_products_complete.
Qed.

(** X5.  Whatever the criteria, where the ratings of the catalog are
    numbers the list [search_products] returns is in the order of its
    sort key, the better rated first and the cheaper first among the
    equally rated; and as soon as one criterion counts, the catalog is
    left exactly as it was. *)
Theorem X5_search_products_order_and_frame {S : sorter} query category
        max_price brand color platform db :
  let found :=
    fst (search_products query category max_price brand color platform db) in
  (Forall (fun p => is_nan (rating p) = false) db ->
   Sorted (in_order sort_key_lt) found /\ Sorted rating_then_price found)
  /\ (some_criterion query category max_price brand color platform = true ->
      snd (search_products query category max_price brand color platform db)
      = db).
Proof.
  cbv zeta. split.
  - intros Hnan.
    assert (Hfound : Forall (fun p => is_nan (rating p) = false)
                       (fst (search_products query category max_price brand
                                             color platform db))).
    { rewrite Forall_forall in *. intros p Hp. apply Hnan.
      exact (search_products_incl _ _ _ _ _ _ _ _ Hp). }
    assert (Hs : Sorted (in_order sort_key_lt)
                   (fst (search_products query category max_price brand color
                                         platform db))).
    { revert Hfound. unfold search_products. cbn [fst]. intros Hfound.
      apply (list_sort_sorted _ sort_key_lt sort_key_lt_asym).
      apply sort_key_lt_orders.
      rewrite Forall_forall in *. intros p Hp. apply Hfound.
      now apply (Permutation_in _ (Permutation_sym (list_sort_permutes _ _))). }
    split; [exact Hs|].
    apply (Sorted_impl_on (fun p => is_nan (rating p) = false)
                          (in_order sort_key_lt)); auto.
    intros a b. apply in_order_rating_then_price.
  - unfold some_criterion, search_products. cbn [snd]. intros H.
    rewrite !rebind_snd. cbn [snd].
    destruct (truthy_str query); [now rewrite ?andb_false_r|].
    destruct (truthy_str category); [now rewrite ?andb_false_r|].
    destruct (truthy_int max_price); [now rewrite ?andb_false_r|].
    destruct (truthy_str brand); [now rewrite ?andb_false_r|].
    destruct (truthy_str color); [now rewrite ?andb_false_r|].
    destruct (truthy_str platform); [now rewrite ?andb_false_r|].
    discriminate.
Qed.

(** ** What the pipeline returns *)

Lemma category_given q a c :
  analyze_budget q = Ok a -> BudgetAnalyzer.category a = Some c ->
  given_str (BudgetAnalyzer.category a) c.
Proof.
  intros Ha Hc. split; [exact Hc|].
  apply analyze_budget_inv in Ha as (_ & _ & _ & Hd & _).
  cbv zeta in Hd. rewrite Hc in Hd. symmetry in Hd.
  apply detect_category_cases in Hd. simpl in Hd.
  destruct Hd as [<- | [<- | [<- | []]]]; discriminate.
Qed.

(** X6.  Every product [process_query] returns is a product of the
    catalog whose price is at most the ceiling of the analysis, whose
    category is the one detected when one was, and which, unless the
    query is the empty string, has some word of the query inside one of
    its five text fields. *)
Theorem X6_results_meet_the_analysis {S : sorter} q db r db' p :
  process_query q db = (Ok r, db') ->
  In p (products r) ->
  exists a m,
    analyze_budget q = Ok a
    /\ max_budget a = Some m
    /\ In p db
    /\ price p <= m
    /\ (forall c, BudgetAnalyzer.category a = Some c ->
                  MockProductDatabase.category p = c)
    /\ (q <> [] ->
        exists w field,
          In w (split (lower q))
          /\ In field [ name p; description p; MockProductDatabase.category p;
                        brand p; color p ]
          /\ substring w (lower field)).
Proof.
  intros H Hin.
  destruct (process_query_products q db r db' p H Hin) as (a & Ha & Hp).
  apply search_products_sound in Hp as [Hdb (Hc & Hm & _ & _ & _ & Hq)].
  pose proof (max_budget_truthy q a Ha) as Ht.
  apply truthy_int_given in Ht as (m & Hg).
  exists a, m. split; [exact Ha|]. split; [apply Hg|]. split; [exact Hdb|].
  split; [now apply Hm|]. split.
  - intros c Hcat. apply Hc. now apply (category_given q a c).
  - intros Hne. apply (Hq q). split; [reflexivity | exact Hne].
Qed.

(** X6 at ["red shoes under 3000"] on the sample catalog: the Nike shoes,
    of the category apparel and at 2499. *)
Lemma X6_results_witness :
  exists r,
    process_query (txt "red shoes under 3000") sample_catalog
    = (Ok r, sample_catalog)
    /\ In nike_air_max (products r)
    /\ exists a m,
         analyze_budget (txt "red shoes under 3000") = Ok a
         /\ max_budget a = Some m
         /\ In nike_air_max sample_catalog
         /\ price nike_air_max <= m
         /\ (forall c, BudgetAnalyzer.category a = Some c ->
                       MockProductDatabase.category nike_air_max = c)
         /\ (txt "red shoes under 3000" <> [] ->
             exists w field,
               In w (split (lower (txt "red shoes under 3000")))
               /\ In field [ name nike_air_max; description nike_air_max;
                             MockProductDatabase.category nike_air_max;
                             brand nike_air_max; color nike_air_max ]
               /\ substring w (lower field)).
Proof.
  eexists. split; [vm_compute; reflexivity|].
  split; [left; reflexivity|].
  refine (X6_results_meet_the_analysis (txt "red shoes under 3000")
            sample_catalog _ sample_catalog nike_air_max _ _).
  - vm_compute. reflexivity.
  - left. reflexivity.
Defined.

Lemma score_all_scores ql a ps scored :
  score_all ql a ps = Ok scored ->
  Forall (fun sp => score_product ql a (snd sp) = Ok (fst sp)) scored.
Proof.
  revert scored. induction ps as [|p ps IH]; intros scored; simpl.
  - intros H. injection H as <-. constructor.
  - intros H. apply bind_Ok in H as (s & Hs & H).
    apply bind_Ok in H as (rest & Hrest & H). injection H as <-.
    constructor; [exact Hs | auto].
Qed.

Lemma Sorted_map {A B} (R : B -> B -> Prop) (f : A -> B) l :
  Sorted (fun a b => R (f a) (f b)) l -> Sorted R (map f l).
Proof.
  induction 1 as [|a l Hs IH Hhd]; simpl; constructor; auto.
  destruct Hhd; simpl; constructor; auto.
Qed.

(** X7.  The list [_filter_and_rank] returns is the list it was given in
    another order, none dropped and none added, and each product in it
    has a score; where the scores are numbers, no score in the list is
    below the next one. *)
Theorem X7_ranked_by_score {S : sorter} ps q a ranked :
  _filter_and_rank ps q a = Ok ranked ->
  Permutation ps ranked
  /\ exists scores,
       Forall2 (fun p s => score_product (lower q) a p = Ok s) ranked scores
       /\ (Forall (fun s => is_nan s = false) scores ->
           Sorted (fun s t => fltb s t = false) scores).
Proof.
  intros H. split; [exact (filter_and_rank_perm ps q a ranked H)|].
  revert H. unfold _filter_and_rank. destruct ps as [|p ps].
  - intros H. injection H as <-. exists []. split; constructor.
  - intros H.
    apply bind_Ok in H as (scored & Hs & H). injection H as <-.
    set (lt := fun x y : float * product => fltb (fst x) (fst y)).
    pose proof (list_sort_reverse_perm _ lt scored) as Hperm.
    set (sorted := list_sort_reverse lt scored) in *.
    exists (map fst sorted). split.
    + apply score_all_scores in Hs.
      assert (Hf : Forall (fun sp => score_product (lower q) a (snd sp)
                                     = Ok (fst sp)) sorted).
      { rewrite Forall_forall in *. intros sp Hsp. apply Hs.
        exact (Permutation_in _ Hperm Hsp). }
      clear - Hf. induction Hf as [|sp l Hsp Hl IH]; simpl; constructor; auto.
    + intros Hnan. apply Sorted_map.
      apply (list_sort_reverse_sorted lt); [intros x y; apply fltb_asym|].
      apply (fltb_orders fst).
      rewrite Forall_forall in *. intros sp Hsp. apply Hnan.
      apply in_map. exact (Permutation_in _ (Permutation_sym Hperm) Hsp).
Qed.

(** X7 on the two laptops of the sample catalog for ["laptop"]. *)
Lemma X7_ranked_witness :
  exists a ranked,
    analyze_budget (txt "laptop") = Ok a
    /\ _filter_and_rank [thinkpad; macbook] (txt "laptop") a = Ok ranked
    /\ ranked = [macbook; thinkpad]
    /\ Permutation [thinkpad; macbook] ranked
    /\ exists scores,
         Forall2 (fun p s => score_product (lower (txt "laptop")) a p = Ok s)
                 ranked scores
         /\ (Forall (fun s => is_nan s = false) scores ->
             Sorted (fun s t => fltb s t = false) scores).
Proof.
  eexists. eexists. split; [vm_compute; reflexivity|].
  split; [vm_compute; reflexivity|]. split; [reflexivity|].
  refine (X7_ranked_by_score [thinkpad; macbook] (txt "laptop") _ _ _).
  vm_compute. reflexivity.
Defined.

(** ** Queries of blanks *)

Lemma lower_char_space c : isspace (lower_char c) = isspace c.
Proof. ascii_cases c; vm_compute; reflexivity. Qed.

Lemma lower_blank q : forallb isspace q = true -> forallb isspace (lower q) = true.
Proof.
  induction q as [|c q IH]; simpl; [reflexivity|].
  intros H. apply andb_true_iff in H as [Hc Hq].
  now rewrite lower_char_space, Hc, IH.
Qed.

Lemma strip_blank s : forallb isspace s = true -> strip s = [].
Proof. intros H. unfold strip. now rewrite (dropwhile_all _ _ H). Qed.

Lemma split_aux_blank s : forallb isspace s = true -> split_aux [] s = [].
Proof.
  induction s as [|c s IH]; simpl; [reflexivity|].
  intros H. apply andb_true_iff in H as [Hc Hs]. now rewrite Hc, IH.
Qed.

Lemma analyze_blank (q : str) :
  forallb isspace q = true -> analyze_budget q = Ok (blank_analysis q).
Proof.
  intros H. unfold analyze_budget.
  rewrite (strip_blank _ (lower_blank q H)). reflexivity.
Qed.

Lemma contains_blank k s :
  forallb isspace s = true -> starts_with isspace k = false -> k <> [] ->
  contains k s = false.
Proof.
  intros Hs Hk Hne. destruct k as [|x k]; [congruence|]. simpl in Hk.
  induction s as [|c s IH]; [reflexivity|].
  simpl in Hs. apply andb_true_iff in Hs as [Hc Hs].
  change (contains (x :: k) (c :: s))
    with (startswith (x :: k) (c :: s) || contains (x :: k) s).
  rewrite (IH Hs), orb_false_r. simpl.
  destruct (ascii_eqb x c) eqn:E; [|reflexivity].
  apply ascii_eqb_eq in E. congruence.
Qed.

Lemma filter_none {A} (l : list A) : filter (fun _ => false) l = [].
Proof. induction l; simpl; auto. Qed.

Lemma search_blank {S : sorter} (q : str) db :
  q <> [] -> forallb isspace q = true ->
  search_products (Some q) None (Some 50000) None None None db = ([], db).
Proof.
  intros Hne Hq. unfold search_products.
  assert (Ht : truthy_str (Some q) = true) by (destruct q; [congruence|reflexivity]).
  rewrite Ht. cbn [truthy_str truthy_int or_empty negb Z.eqb andb].
  unfold split. rewrite (split_aux_blank _ (lower_blank q Hq)).
  assert (Hna : contains (txt "non-apple") (lower q) = false).
  { apply contains_blank; [now apply lower_blank | reflexivity | discriminate]. }
  rewrite Hna. unfold rebind at 1. cbv iota.
  unfold rebind at 1. cbn [fst snd].
  replace (filter (matches_words []) _) with (@nil product)
    by (symmetry; apply filter_none).
  cbv beta iota zeta. cbn [fst snd].
  rewrite list_sort_nil. reflexivity.
Qed.

(** X8.  A query that is not empty and is all blanks finds nothing: the
    answer is a success with no product and [total_found] 0, whatever the
    catalog.  The empty query, for which the word filter is skipped, is
    answered from all the products up to the default ceiling 50000. *)
Theorem X8_blank_and_empty_query {S : sorter} db :
  (forall q : str, q <> [] -> forallb isspace q = true ->
     process_query q db
     = (Ok (Found q (blank_analysis q) [] 0 None (Some 50000)), db))
  /\ (forall r db',
        process_query [] db = (Ok r, db') ->
        success r = true ->
        total_found r
        = Some (List.length (filter (fun p => price p <=? 50000) db))
        /\ (forall p, In p (products r) -> In p db /\ price p <= 50000)).
Proof.
  split.
  - intros q Hne Hq.
    unfold process_query, process_query_with, try_db, bind_db, pure, mock_search.
    rewrite (analyze_blank q Hq).
    change (BudgetAnalyzer.category (blank_analysis q)) with (@None str).
    change (BudgetAnalyzer.max_budget (blank_analysis q)) with (Some 50000).
    rewrite (search_blank q db Hne Hq). reflexivity.
  - intros r db' H Hs.
    unfold process_query, process_query_with, try_db, bind_db, pure, mock_search
      in H.
    rewrite (analyze_blank ([] : str) eq_refl) in H.
    change (BudgetAnalyzer.category (blank_analysis [])) with (@None str) in H.
    change (BudgetAnalyzer.max_budget (blank_analysis [])) with (Some 50000) in H.
    assert (E : search_products (Some (@nil ascii : str)) None (Some 50000) None None None db
                = (list_sort sort_key_lt
                               (filter (fun p => price p <=? 50000) db),
                   db)) by reflexivity.
    rewrite E in H.
    destruct (_filter_and_rank _ [] _) as [ranked|e] eqn:Er;
      injection H as <- <-; [|discriminate].
    cbn [total_found products]. split.
    + now rewrite (Permutation_length (list_sort_permutes _ _)).
    + intros p Hp. apply (In_firstn 3 ranked) in Hp.
      apply filter_and_rank_perm in Er.
      apply (Permutation_in _ (Permutation_sym Er)) in Hp.
      apply (Permutation_in _ (list_sort_permutes _ _)) in Hp.
      apply filter_In in Hp as [Hin Hle]. split; [exact Hin|].
      now apply Z.leb_le.
Qed.

(** ** Categories *)

Lemma any_in_substring ks s :
  any_in ks s = true <-> exists k, In k ks /\ substring k s.
Proof.
  rewrite any_in_spec. unfold substring. split.
  - intros (k & u & v & Hk & H). eauto.
  - intros (k & Hk & u & v & H). eauto.
Qed.

Lemma any_in_no_substring ks s :
  any_in ks s = false <-> ~ exists k, In k ks /\ substring k s.
Proof.
  rewrite <- any_in_substring. destruct (any_in ks s); split; congruence.
Qed.

Lemma detect_category_unfold s :
  _detect_category s
  = if any_in exclusion_phrases s && any_in computer_words s
    then Some (txt "electronics")
    else if any_in (category_keywords "apparel") s then Some (txt "apparel")
    else if any_in (category_keywords "mobiles") s then Some (txt "mobiles")
    else if any_in (category_keywords "electronics") s
    then Some (txt "electronics")
    else None.
Proof. reflexivity. Qed.

Lemma exclusion_case_spec s :
  any_in exclusion_phrases s && any_in computer_words s = true
  <-> exclusion_case s.
Proof.
  unfold exclusion_case. now rewrite andb_true_iff, !any_in_substring.
Qed.

Lemma detect_category_first_match s :
  (exclusion_case s -> _detect_category s = Some (txt "electronics"))
  /\ (~ exclusion_case s ->
      (category_hit "apparel" s -> _detect_category s = Some (txt "apparel"))
      /\ (~ category_hit "apparel" s -> category_hit "mobiles" s ->
          _detect_category s = Some (txt "mobiles"))
      /\ (~ category_hit "apparel" s -> ~ category_hit "mobiles" s ->
          category_hit "electronics" s ->
          _detect_category s = Some (txt "electronics"))
      /\ (~ category_hit "apparel" s -> ~ category_hit "mobiles" s ->
          ~ category_hit "electronics" s ->
          _detect_category s = None)).
Proof.
  rewrite detect_category_unfold. unfold category_hit.
  destruct (any_in exclusion_phrases s && any_in computer_words s) eqn:Ex.
  - apply exclusion_case_spec in Ex. split; [reflexivity | contradiction].
  - assert (Hex : ~ exclusion_case s).
    { rewrite <- exclusion_case_spec. congruence. }
    split; [contradiction|]. intros _.
    destruct (any_in (category_keywords "apparel") s) eqn:E1.
    { apply any_in_substring in E1.
      repeat split; intros; try contradiction; auto. }
    apply any_in_no_substring in E1.
    destruct (any_in (category_keywords "mobiles") s) eqn:E2.
    { apply any_in_substring in E2.
      repeat split; intros; try contradiction; auto. }
    apply any_in_no_substring in E2.
    destruct (any_in (category_keywords "electronics") s) eqn:E3.
    { apply any_in_substring in E3.
      repeat split; intros; try contradiction; auto. }
    apply any_in_no_substring in E3.
    repeat split; intros; try contradiction; auto.
Qed.

Lemma analyze_category q a :
  analyze_budget q = Ok a ->
  BudgetAnalyzer.category a = _detect_category (strip (lower q)).
Proof. intros H. now apply analyze_budget_inv in H as (_ & _ & _ & H & _). Qed.

(** X9.  The category of an analysis is electronics when the normalised
    query has a phrase excluding Apple and a word for a computer inside;
    otherwise it is the first of apparel, mobiles, electronics, in this
    order, with a keyword inside the normalised query, and [None] when
    there is none. *)
Theorem X9_category_first_match q a :
  analyze_budget q = Ok a ->
  let s := strip (lower q) in
  (exclusion_case s -> BudgetAnalyzer.category a = Some (txt "electronics"))
  /\ (~ exclusion_case s ->
      (category_hit "apparel" s ->
       BudgetAnalyzer.category a = Some (txt "apparel"))
      /\ (~ category_hit "apparel" s -> category_hit "mobiles" s ->
          BudgetAnalyzer.category a = Some (txt "mobiles"))
      /\ (~ category_hit "apparel" s -> ~ category_hit "mobiles" s ->
          category_hit "electronics" s ->
          BudgetAnalyzer.category a = Some (txt "electronics"))
      /\ (~ category_hit "apparel" s -> ~ category_hit "mobiles" s ->
          ~ category_hit "electronics" s ->
          BudgetAnalyzer.category a = None)).
Proof.
  intros H s. rewrite (analyze_category q a H). fold s.
  apply detect_category_first_match.
Qed.

(** X9 at ["Not Apple computer shoes"]: the special case wins over the
    apparel keyword ["shoes"]. *)
Lemma X9_category_witness :
  let q := txt "Not Apple computer shoes" in
  let a := {| BudgetAnalyzer.category := Some (txt "electronics");
              max_budget := Some 50000;
              budget_type := txt "low";
              specific_budget := None;
              original_query := q |} in
  analyze_budget q = Ok a
  /\ exclusion_case (strip (lower q))
  /\ category_hit "apparel" (strip (lower q))
  /\ BudgetAnalyzer.category a = Some (txt "electronics").
Proof.
  intros q a.
  assert (Ha : analyze_budget q = Ok a) by (vm_compute; reflexivity).
  assert (Hex : exclusion_case (strip (lower q))).
  { apply exclusion_case_spec. vm_compute. reflexivity. }
  assert (Hap : category_hit "apparel" (strip (lower q))).
  { apply any_in_substring. vm_compute. reflexivity. }
  split; [exact Ha|]. split; [exact Hex|]. split; [exact Hap|].
  exact (proj1 (X9_category_first_match q a Ha) Hex).
Defined.

Lemma substring_trans a b c : substring a b -> substring b c -> substring a c.
Proof.
  intros (u & v & ->) (u' & v' & ->). exists (u' ++ u), (v ++ v').
  now rewrite <- !app_assoc.
Qed.

(** X10.  A query with ["phone"] inside its normalised text, and so one
    with ["headphones"], ["earphones"] or ["smartphone"], is taken for
    mobiles, or for apparel when an apparel keyword is inside too, unless
    the special case applies: the pipeline then returns no product of
    another category, and none of the category electronics. *)
Theorem X10_phone_shadows_electronics {S : sorter} q db r db' p :
  substring (txt "phone") (strip (lower q)) ->
  ~ exclusion_case (strip (lower q)) ->
  process_query q db = (Ok r, db') ->
  In p (products r) ->
  (MockProductDatabase.category p = txt "apparel"
   \/ MockProductDatabase.category p = txt "mobiles")
  /\ MockProductDatabase.category p <> txt "electronics".
Proof.
  intros Hph Hex H Hin.
  destruct (process_query_products q db r db' p H Hin) as (a & Ha & Hp).
  apply search_products_sound in Hp as [_ (Hc & _)].
  pose proof (detect_category_first_match (strip (lower q)))
    as [_ Hfm].
  destruct (Hfm Hex) as (H1 & H2 & _).
  assert (Hm : category_hit "mobiles" (strip (lower q))).
  { exists (txt "phone"). split; [left; reflexivity | exact Hph]. }
  rewrite <- (analyze_category q a Ha) in H1, H2.
  assert (Hcat : BudgetAnalyzer.category a = Some (txt "apparel")
                 \/ BudgetAnalyzer.category a = Some (txt "mobiles")).
  { destruct (any_in (category_keywords "apparel") (strip (lower q))) eqn:E.
    - left. apply H1. now apply any_in_substring.
    - right. apply H2; [|exact Hm]. now apply any_in_no_substring. }
  destruct Hcat as [Hcat | Hcat];
    rewrite (Hc _ (category_given q a _ Ha Hcat));
    (split; [tauto | discriminate]).
Qed.

(** X10 at ["wireless headphones"] on a catalog with headphones of the
    category electronics at 1499 and a phone: the phone alone is
    returned. *)
Lemma X10_phone_witness :
  substring (txt "phone") (strip (lower (txt "wireless headphones")))
  /\ ~ exclusion_case (strip (lower (txt "wireless headphones")))
  /\ exists r,
       process_query (txt "wireless headphones") audio_catalog
       = (Ok r, audio_catalog)
       /\ products r = [wireless_phone]
       /\ (MockProductDatabase.category wireless_phone = txt "apparel"
           \/ MockProductDatabase.category wireless_phone = txt "mobiles")
       /\ MockProductDatabase.category wireless_phone <> txt "electronics".
Proof.
  assert (H1 : substring (txt "phone")
                 (strip (lower (txt "wireless headphones"))))
    by (apply contains_substring; vm_compute; reflexivity).
  assert (H2 : ~ exclusion_case (strip (lower (txt "wireless headphones"))))
    by (rewrite <- exclusion_case_spec; vm_compute; discriminate).
  split; [exact H1|]. split; [exact H2|].
  eexists. split; [vm_compute; reflexivity|]. split; [reflexivity|].
  refine (X10_phone_shadows_electronics (txt "wireless headphones")
            audio_catalog _ audio_catalog wireless_phone H1 H2 _ _).
  - vm_compute. reflexivity.
  - left. reflexivity.
Defined.

(** ** The sign of a price *)

Lemma binary_round_aux_not_negative m e l :
  not_negative (binary_round_aux prec emax false m e l).
Proof.
  unfold binary_round_aux.
  destruct (shr_fexp prec emax m e l) as [mrs e1].
  destruct (shr_fexp prec emax _ e1 loc_Exact) as [mrs2 e2].
  destruct (shr_m mrs2); simpl; auto.
  destruct (e2 <=? 971); simpl; auto.
Qed.

Lemma round_quotient_not_negative n d : not_negative (round_quotient n d).
Proof.
  unfold round_quotient. destruct n; simpl; auto;
    destruct (SFdiv_core_binary prec emax _ 0 d 0) as [[mz ez] lz];
    apply binary_round_aux_not_negative.
Qed.

Lemma binary_normalize_not_negative n :
  0 <= n -> not_negative (nearest_float n).
Proof.
  intros H. unfold nearest_float, binary_normalize.
  destruct n as [|p|p]; simpl; auto; [|lia].
  unfold binary_round. destruct (shl_align p 0 _) as [mz ez].
  apply binary_round_aux_not_negative.
Qed.

Lemma fmul_not_negative x y :
  not_negative x -> not_negative y -> not_negative (fmul x y).
Proof.
  unfold fmul, SFmul.
  destruct x as [sx|sx| |sx mx ex], y as [sy|sy| |sy my ey]; simpl; auto;
    try (intros -> ->; reflexivity); try (intros _ ->; reflexivity);
    try (intros -> _; reflexivity).
  intros -> ->. apply binary_round_aux_not_negative.
Qed.

Lemma int_of_float_not_negative x n :
  not_negative x -> int_of_float x = Ok n -> 0 <= n.
Proof.
  destruct x as [s|s| |s m e]; simpl; try discriminate.
  - intros _ H. injection H as <-. lia.
  - intros -> H. injection H as <-.
    destruct e as [|p|p].
    + rewrite Z.shiftl_0_r. lia.
    + apply Z.shiftl_nonneg. lia.
    + apply Z.shiftr_nonneg. lia.
Qed.

Lemma float_of_str_not_negative s x :
  float_of_str s = Ok x -> not_negative x.
Proof.
  unfold float_of_str. destruct (decimal_parts s) as [[ip fp]|]; [|discriminate].
  intros H. injection H as <-. apply round_quotient_not_negative.
Qed.

Lemma price_of_not_negative query s n : price_of query s = Ok n -> 0 <= n.
Proof.
  unfold price_of. intros H. apply bind_Ok in H as (x & Hx & H).
  apply float_of_str_not_negative in Hx.
  apply (int_of_float_not_negative _ n) in H; [exact H|].
  destruct (_ && _); [|exact Hx].
  apply fmul_not_negative; [exact Hx|].
  apply binary_normalize_not_negative. lia.
Qed.

Lemma extract_loop_not_negative pats query n :
  extract_loop pats query = Ok (Some n) -> 0 <= n.
Proof.
  induction pats as [|[pattern ptype] rest IH]; simpl; [discriminate|].
  destruct (search pattern query) as [m|]; [|exact IH].
  destruct (group _ m) as [g|]; [|discriminate].
  destruct (price_of query (remove_char ","%char g)) as [price|e] eqn:E.
  - intros H. injection H as <-. now apply price_of_not_negative in E.
  - destruct e; try discriminate; exact IH.
Qed.

Lemma extract_price_not_negative query n :
  _extract_price query = Ok (Some n) -> 0 <= n.
Proof.
  unfold _extract_price. destruct (negb _); [discriminate|].
  apply extract_loop_not_negative.
Qed.

(** X11.  The ceiling of an analysis is a positive integer, never [None],
    zero or negative; and an explicit price, when there is one, is not
    negative. *)
Theorem X11_ceiling_is_positive q a :
  analyze_budget q = Ok a ->
  (exists m, max_budget a = Some m /\ 0 < m)
  /\ (forall n, specific_budget a = Some n -> 0 <= n).
Proof.
  intros H. apply analyze_budget_inv in H as (p & Hp & Es & _ & _ & H).
  cbv zeta in Hp.
  assert (Hn : forall n, p = Some n -> 0 <= n).
  { intros n ->. now apply extract_price_not_negative in Hp. }
  split.
  - destruct (truthy_int p) eqn:E.
    + destruct H as [_ ->]. destruct p as [n|]; [|discriminate].
      exists n. split; [reflexivity|].
      simpl in E. apply negb_true_iff, Z.eqb_neq in E.
      specialize (Hn n eq_refl). lia.
    + destruct H as [_ ->]. eexists. split; [reflexivity|].
      apply default_budget_pos.
  - intros n Hs. apply Hn. congruence.
Qed.

(** X11 at ["laptop between 40000 and 80000"]. *)
Lemma X11_ceiling_witness :
  let q := txt "laptop between 40000 and 80000" in
  let a := {| BudgetAnalyzer.category := Some (txt "electronics");
              max_budget := Some 80000;
              budget_type := txt "specific";
              specific_budget := Some 80000;
              original_query := q |} in
  analyze_budget q = Ok a
  /\ (exists m, max_budget a = Some m /\ 0 < m)
  /\ (forall n, specific_budget a = Some n -> 0 <= n).
Proof.
  intros q a.
  assert (Ha : analyze_budget q = Ok a) by (vm_compute; reflexivity).
  split; [exact Ha|]. exact (X11_ceiling_is_positive q a Ha).
Defined.

(** ** Normal forms *)

Lemma dropwhile_fixed p s : starts_with p s = false -> dropwhile p s = s.
Proof. destruct s as [|c s]; simpl; [reflexivity|]. now intros ->. Qed.

Lemma dropwhile_starts p s : starts_with p (dropwhile p s) = false.
Proof.
  induction s as [|c s IH]; simpl; [reflexivity|].
  destruct (p c) eqn:E; [exact IH | simpl; exact E].
Qed.

Lemma dropwhile_suffix p s : exists w, s = w ++ dropwhile p s.
Proof.
  induction s as [|c s [w IH]]; simpl; [now exists []|].
  destruct (p c).
  - exists (c :: w). simpl. now f_equal.
  - now exists [].
Qed.

Lemma starts_with_app_l p a b :
  a <> [] -> starts_with p (a ++ b) = starts_with p a.
Proof. destruct a; [congruence | reflexivity]. Qed.

Lemma strip_starts s : starts_with isspace (strip s) = false.
Proof.
  unfold strip.
  pose proof (dropwhile_starts isspace s) as Hs.
  remember (dropwhile isspace s) as a eqn:Ea. clear Ea.
  destruct (dropwhile_suffix isspace (rev a)) as [w Hw].
  remember (dropwhile isspace (rev a)) as t eqn:Et. clear Et.
  destruct t as [|c t]; [reflexivity|].
  assert (Ha : a = rev (c :: t) ++ rev w).
  { rewrite <- (rev_involutive a), Hw, rev_app_distr. reflexivity. }
  rewrite Ha, starts_with_app_l in Hs; [exact Hs|].
  simpl. intros E. now apply app_eq_nil in E as [_ E].
Qed.

Lemma strip_idem s : strip (strip s) = strip s.
Proof.
  unfold strip at 1. rewrite (dropwhile_fixed _ _ (strip_starts s)).
  unfold strip. rewrite rev_involutive.
  now rewrite (dropwhile_fixed _ _ (dropwhile_starts isspace _)).
Qed.

Lemma normal_form_idem q :
  strip (lower (strip (lower q))) = strip (lower q).
Proof. now rewrite lower_normalised, strip_idem. Qed.

Lemma analyze_budget_normal q1 q2 :
  strip (lower q1) = strip (lower q2) ->
  analyze_budget q2 = bind (analyze_budget q1) (fun a => Ok (with_query q2 a)).
Proof.
  intros E. unfold analyze_budget. rewrite <- E.
  destruct (_detect_budget_type (strip (lower q1))) as [t|e]; [|reflexivity].
  cbn [bind].
  destruct (_extract_price (strip (lower q1))) as [p|e]; reflexivity.
Qed.

(** X12.  An analysis depends on the normalised query alone: two queries
    with the same normalised text, such as one and its upper-case or
    padded spelling, get the same category, ceiling, tier and price, and
    raise alike.  The normalised text is its own normal form, so analysing
    it again changes nothing but [original_query]. *)
Theorem X12_analysis_of_normal_form :
  (forall q1 q2,
     strip (lower q1) = strip (lower q2) ->
     analyze_budget q2
     = bind (analyze_budget q1) (fun a => Ok (with_query q2 a)))
  /\ (forall q,
        strip (lower (strip (lower q))) = strip (lower q)
        /\ analyze_budget (strip (lower q))
           = bind (analyze_budget q)
                  (fun a => Ok (with_query (strip (lower q)) a))).
Proof.
  split.
  - apply analyze_budget_normal.
  - intros q. split; [apply normal_form_idem|].
    apply analyze_budget_normal. symmetry. apply normal_form_idem.
Qed.

(** ** Category suggestions *)

Lemma category_table_lookup c ks :
  In (c, ks) CATEGORY_KEYWORDS -> dict_get CATEGORY_KEYWORDS c = Some ks.
Proof.
  intros H. simpl in H.
  destruct H as [H | [H | [H | []]]]; injection H as <- <-; reflexivity.
Qed.

Lemma dict_get_In_pair {V} (d : list (str * V)) k v :
  dict_get d k = Some v -> In (k, v) d.
Proof.
  induction d as [|[k' v'] d IH]; simpl; [discriminate|].
  destruct (str_eqb k' k) eqn:E.
  - intros H. injection H as ->. apply str_eqb_eq in E. subst. now left.
  - intros H. right. auto.
Qed.

Lemma scored_categories_In ql c s :
  In (c, s) (scored_categories ql)
  <-> s = category_score ql c /\ 0 < s.
Proof.
  unfold scored_categories. rewrite in_flat_map. split.
  - intros ([c' ks] & Hin & H). cbn [fst snd] in H.
    destruct (0 <? keyword_score ks ql) eqn:E; [|contradiction].
    destruct H as [H | []]. injection H as <- <-.
    unfold category_score. rewrite (category_table_lookup _ _ Hin).
    split; [reflexivity | now apply Z.ltb_lt].
  - intros [-> Hpos]. unfold category_score in *.
    destruct (dict_get CATEGORY_KEYWORDS c) as [ks|] eqn:E; [|lia].
    exists (c, ks). split; [now apply dict_get_In_pair|].
    cbn [fst snd]. apply Z.ltb_lt in Hpos. rewrite Hpos. now left.
Qed.

Lemma scored_categories_NoDup ql : NoDup (map fst (scored_categories ql)).
Proof.
  unfold scored_categories.
  assert (Hk : NoDup (map fst CATEGORY_KEYWORDS)).
  { simpl. repeat constructor; simpl; intros H;
      repeat (destruct H as [H | H]; [discriminate|]); exact H. }
  revert Hk. generalize CATEGORY_KEYWORDS. intros tbl.
  induction tbl as [|[c ks] tbl IH]; simpl; [auto|].
  intros H. inversion H as [|? ? Hx Hl]; subst.
  destruct (0 <? keyword_score ks ql); simpl; [|auto].
  constructor; [|auto]. intros Hin. apply Hx.
  apply in_map_iff in Hin as ([c' s] & Hy & Hin). simpl in Hy. subst c'.
  apply in_flat_map in Hin as ([c2 ks2] & Hz & Hin). cbn [fst snd] in Hin.
  destruct (0 <? keyword_score ks2 ql); [|contradiction].
  destruct Hin as [Hin | []]. injection Hin as -> _.
  apply in_map_iff. now exists (c, ks2).
Qed.

(** X13.  [get_category_suggestions] lists exactly the categories with a
    keyword inside the lower-cased query, each once, the one with more
    keywords inside never behind one with fewer. *)
Theorem X13_category_suggestions {S : sorter} q :
  let ql := lower q in
  let suggested := get_category_suggestions q in
  (forall c, In c suggested <-> 0 < category_score ql c)
  /\ NoDup suggested
  /\ Sorted (fun c d => category_score ql d <= category_score ql c) suggested.
Proof.
  cbv zeta. unfold get_category_suggestions. cbv zeta.
  set (ql := lower q).
  set (lt := fun x y : str * Z => snd x <? snd y).
  pose proof (list_sort_reverse_perm _ lt (scored_categories ql)) as Hperm.
  assert (Hsc : Forall (fun cs => snd cs = category_score ql (fst cs))
                       (list_sort_reverse lt (scored_categories ql))).
  { apply Forall_forall. intros [c s] Hin.
    apply (Permutation_in _ Hperm) in Hin.
    now apply scored_categories_In in Hin. }
  split; [|split].
  - intros c. rewrite in_map_iff. split.
    + intros ([c' s] & Hc & Hin). simpl in Hc. subst c'.
      apply (Permutation_in _ Hperm) in Hin.
      apply scored_categories_In in Hin as [-> H]. exact H.
    + intros Hpos. exists (c, category_score ql c). split; [reflexivity|].
      apply (Permutation_in _ (Permutation_sym Hperm)).
      now apply scored_categories_In.
  - apply (Permutation_NoDup (Permutation_map fst (Permutation_sym Hperm))).
    apply scored_categories_NoDup.
  - apply Sorted_map.
    apply (Sorted_impl_on
             (fun cs : str * Z => snd cs = category_score ql (fst cs))
             (fun x y => lt x y = false)); [|exact Hsc|].
    + intros x y Hx Hy H. unfold lt in H. apply Z.ltb_ge in H. lia.
    + apply list_sort_reverse_sorted; [|apply (Zltb_orders snd)].
      intros x y H. unfold lt in *.
      apply Z.ltb_lt in H. apply Z.ltb_ge. lia.
Qed.

(** ** Keywords and the blanks around a query *)

Lemma bool_eq_iff (a b : bool) : (a = true <-> b = true) -> a = b.
Proof.
  destruct a, b; intros [H1 H2]; auto.
  - symmetry. auto.
Qed.

Lemma contains_rev k s : contains (rev k) (rev s) = contains k s.
Proof.
  apply bool_eq_iff. rewrite !contains_spec. split.
  - intros (a & b & H). exists (rev b), (rev a).
    rewrite <- (rev_involutive s), H, !rev_app_distr, rev_involutive.
    now rewrite app_assoc.
  - intros (a & b & ->). exists (rev b), (rev a).
    rewrite !rev_app_distr. now rewrite app_assoc.
Qed.

Lemma contains_dropwhile k s :
  k <> [] -> starts_with isspace k = false ->
  contains k (dropwhile isspace s) = contains k s.
Proof.
  intros Hne Hk. destruct k as [|x k]; [congruence|]. simpl in Hk.
  induction s as [|c s IH]; [reflexivity|].
  cbn [dropwhile]. destruct (isspace c) eqn:Ec; [|reflexivity].
  rewrite IH.
  change (contains (x :: k) (c :: s))
    with (startswith (x :: k) (c :: s) || contains (x :: k) s).
  simpl. destruct (ascii_eqb x c) eqn:E; [|reflexivity].
  apply ascii_eqb_eq in E. congruence.
Qed.

(** A keyword with no blank at either end is inside a text exactly when
    it is inside the stripped text. *)
Lemma contains_strip k s :
  k <> [] -> starts_with isspace k = false ->
  starts_with isspace (rev k) = false ->
  contains k (strip s) = contains k s.
Proof.
  intros Hne H1 H2. unfold strip.
  rewrite <- (rev_involutive k) at 1. rewrite contains_rev.
  rewrite contains_dropwhile; [|destruct k; [congruence|]; simpl;
                                intros E; now apply app_eq_nil in E as [_ E]
                               |exact H2].
  rewrite contains_rev. now apply contains_dropwhile.
Qed.

Lemma clean_keyword_strip k s :
  clean_keyword k = true -> contains k (strip s) = contains k s.
Proof.
  unfold clean_keyword. intros H.
  apply andb_true_iff in H as [H H3]. apply andb_true_iff in H as [H1 H2].
  apply contains_strip.
  - destruct k; [discriminate | discriminate].
  - now apply negb_true_iff.
  - now apply negb_true_iff.
Qed.

Lemma category_keywords_clean :
  forallb (fun ck => forallb clean_keyword (snd ck)) CATEGORY_KEYWORDS = true.
Proof. vm_compute. reflexivity. Qed.

Lemma any_in_strip ks s :
  forallb clean_keyword ks = true -> any_in ks (strip s) = any_in ks s.
Proof.
  unfold any_in. induction ks as [|k ks IH]; simpl; [reflexivity|].
  intros H. apply andb_true_iff in H as [Hk Hks].
  now rewrite (clean_keyword_strip k s Hk), IH.
Qed.

Lemma first_hit_none table s :
  first_hit table s = None <->
  Forall (fun ck => any_in (snd ck) s = false) table.
Proof.
  induction table as [|[c ks] table IH]; simpl.
  - split; [constructor | reflexivity].
  - destruct (any_in ks s) eqn:E.
    + split; [discriminate|]. intros H. inversion H; subst. simpl in *.
      congruence.
    + rewrite IH. split; [now constructor | intros H; now inversion H].
Qed.

Lemma keyword_score_zero ks s : any_in ks s = false -> keyword_score ks s = 0.
Proof.
  unfold keyword_score, any_in. induction ks as [|k ks IH]; simpl; [reflexivity|].
  intros H. apply orb_false_iff in H as [Hk Hks]. rewrite Hk. auto.
Qed.

(** With no category detected there is no category to suggest. *)
Lemma no_category_no_suggestion {S : sorter} q :
  _detect_category (strip (lower q)) = None ->
  get_category_suggestions q = [].
Proof.
  intros H. unfold _detect_category in H.
  destruct (_ && _); [discriminate|].
  apply first_hit_none in H.
  unfold get_category_suggestions. cbv zeta.
  assert (E : scored_categories (lower q) = []).
  { unfold scored_categories.
    pose proof category_keywords_clean as Hclean.
    rewrite forallb_forall in Hclean. rewrite Forall_forall in H.
    induction CATEGORY_KEYWORDS as [|[c ks] tbl IH]; [reflexivity|].
    cbn [flat_map fst snd].
    assert (Hks : any_in ks (lower q) = false).
    { rewrite <- (any_in_strip ks (lower q)).
      - apply (H (c, ks)). now left.
      - apply (Hclean (c, ks)). now left. }
    rewrite (keyword_score_zero ks _ Hks). simpl.
    apply IH.
    - intros x Hx. apply H. now right.
    - intros x Hx. apply Hclean. now right. }
  rewrite E. unfold list_sort_reverse. cbn [rev].
  rewrite list_sort_nil. reflexivity.
Qed.

(** ** [get_suggestions] *)

Lemma search_by_category {S : sorter} c db :
  truthy_str c = true ->
  search_products None c None None None None db
  = (list_sort sort_key_lt (of_category c db), db).
Proof.
  intros H. unfold search_products, of_category. rewrite H. reflexivity.
Qed.

(** X14.  What [get_suggestions] returns never has a category suggested:
    the categories are asked for only when none was detected, and then no
    keyword of any category is inside the query.  Without a category the
    other three fields are empty as well. *)
Theorem X14_suggestions_have_no_categories {S : sorter} list_of_set q db s db' :
  get_suggestions list_of_set q db = (Ok s, db') ->
  categories s = []
  /\ (forall a, analyze_budget q = Ok a ->
                BudgetAnalyzer.category a = None ->
                suggested_range s = None
                /\ popular_brands s = [] /\ sample_products s = []).
Proof.
  unfold get_suggestions, bind_db, pure.
  destruct (analyze_budget q) as [a|e] eqn:Ea; [|discriminate].
  pose proof (analyze_category q a Ea) as Hc.
  destruct (BudgetAnalyzer.category a) as [c|] eqn:Ec.
  - assert (Ht : truthy_str (Some c) = true).
    { destruct (category_given q a c Ea Ec) as [_ Hne].
      destruct c; [congruence | reflexivity]. }
    rewrite Ht. cbn [negb]. rewrite (search_by_category (Some c) db Ht).
    intros H. injection H as <- <-. split; [reflexivity|].
    intros a' Ha'. assert (a' = a) by congruence. subst. congruence.
  - cbn [truthy_str negb]. intros H. injection H as <- <-. cbn [categories].
    split; [apply no_category_no_suggestion; congruence|].
    intros _ _ _. repeat split.
Qed.

(** X14 at ["something random"]: nothing at all is suggested. *)
Lemma X14_suggestions_witness :
  get_suggestions (fun l => l) (txt "something random") sample_catalog
  = (Ok {| categories := []; suggested_range := None;
           popular_brands := []; sample_products := [] |}, sample_catalog)
  /\ categories {| categories := []; suggested_range := None;
                   popular_brands := []; sample_products := [] |} = [].
Proof.
  assert (H : get_suggestions (fun l => l) (txt "something random")
                sample_catalog
              = (Ok {| categories := []; suggested_range := None;
                       popular_brands := []; sample_products := [] |},
                 sample_catalog)) by (vm_compute; reflexivity).
  split; [exact H|].
  exact (proj1 (X14_suggestions_have_no_categories _ _ _ _ _ H)).
Defined.

(** X15.  [get_suggestions] has no handler: it raises what
    [analyze_budget] raises, and otherwise returns; either way the catalog
    is left as it was.  With a category detected, the price range is the
    one of [get_price_range] for that category in INR, the samples are
    the first three products of that category as [list.sort] leaves them,
    which with ratings that are numbers is their stable sort by rating
    then price, and at most five brands are listed. *)
Theorem X15_suggestions_outcome {S : sorter} list_of_set q db :
  snd (get_suggestions list_of_set q db) = db
  /\ (forall e, analyze_budget q = Raise e ->
                fst (get_suggestions list_of_set q db) = Raise e)
  /\ (forall a c,
        analyze_budget q = Ok a -> BudgetAnalyzer.category a = Some c ->
        exists s,
          fst (get_suggestions list_of_set q db) = Ok s
          /\ suggested_range s
             = Some {| currency_min := range_min (get_price_range (Some c) db);
                       currency_max := range_max (get_price_range (Some c) db);
                       currency := txt "INR" |}
          /\ sample_products s
             = firstn 3 (list_sort sort_key_lt (of_category (Some c) db))
          /\ (Forall (fun p => is_nan (rating p) = false) db ->
              sample_products s
              = firstn 3 (stable_sort sort_key_lt (of_category (Some c) db)))
          /\ (forall p, In p (sample_products s) ->
                        In p db /\ MockProductDatabase.category p = c)
          /\ (List.length (sample_products s) <= 3)%nat
          /\ (List.length (popular_brands s) <= 5)%nat).
Proof.
  unfold get_suggestions, bind_db, pure.
  destruct (analyze_budget q) as [a|e] eqn:Ea.
  - destruct (BudgetAnalyzer.category a) as [c|] eqn:Ec.
    + assert (Ht : truthy_str (Some c) = true).
      { destruct (category_given q a c Ea Ec) as [_ Hne].
        destruct c; [congruence | reflexivity]. }
      rewrite Ht. cbn [negb]. rewrite (search_by_category (Some c) db Ht).
      split; [reflexivity|]. split; [discriminate|].
      intros a' c' Ha' Hc'. injection Ha' as <-.
      assert (c' = c) by congruence. subst c'.
      eexists. split; [reflexivity|]. cbn [suggested_range sample_products
                                           popular_brands].
      split; [reflexivity|]. split; [reflexivity|].
      split; [|split; [|split]].
      * intros Hnan. f_equal. apply list_sort_stable, sort_key_lt_orders.
        rewrite Forall_forall in *. intros p Hp. apply Hnan.
        now apply of_category_In in Hp.
      * intros p Hp. apply (In_firstn 3) in Hp.
        apply (Permutation_in _ (list_sort_permutes _ _)) in Hp.
        apply of_category_In in Hp as [Hin Hcat]. split; [exact Hin|].
        specialize (Hcat Ht). congruence.
      * apply firstn_le_length.
      * apply firstn_le_length.
    + cbn [truthy_str negb]. split; [reflexivity|]. split; [discriminate|].
      intros a' c' Ha' Hc'. injection Ha' as <-. congruence.
  - split; [reflexivity|]. split.
    + intros e' H. injection H as <-. reflexivity.
    + discriminate.
Qed.

(** ** The range pattern *)

Lemma first_group_app n a x rest c c1 :
  first_is a (x ++ rest) c (rest, c1) ->
  first_is (Group n a) (x ++ rest) c (rest, (n, x) :: c1).
Proof.
  intros H. pose proof (first_group n _ _ _ _ _ H) as G.
  rewrite length_app, Nat.add_sub in G.
  rewrite firstn_app, firstn_all, Nat.sub_diag in G.
  simpl in G. rewrite app_nil_r in G. exact G.
Qed.

Lemma first_currency_amount g gs rest c :
  is_digits g = true ->
  first_is BudgetAnalyzer.currency (" "%char :: amount_text g gs ++ rest) c
           (amount_text g gs ++ rest, c).
Proof.
  intros Hg. destruct (amount_starts_digit g gs rest Hg) as (d & r & -> & Hd).
  now apply first_currency.
Qed.

(** At ["between " X " and " Y], with [X] and [Y] whole amounts, the range
    pattern matches, its first group is [X] and its second [Y]. *)
Lemma match_range_amounts g1 gs1 g2 gs2 post :
  is_digits g1 = true -> Forall (fun g => is_digits g = true) gs1 ->
  is_digits g2 = true -> Forall (fun g => is_digits g = true) gs2 ->
  amount_ends post = true ->
  match_here range_pattern
    (txt "between " ++ amount_text g1 gs1 ++ txt " and "
     ++ amount_text g2 gs2 ++ post)
  = Some [(2%nat, amount_text g2 gs2); (1%nat, amount_text g1 gs1)].
Proof.
  intros Hg1 Hgs1 Hg2 Hgs2 Hpost.
  assert (H : first_is range_pattern
                (txt "between " ++ amount_text g1 gs1 ++ txt " and "
                 ++ amount_text g2 gs2 ++ post) []
                (post, [(2%nat, amount_text g2 gs2);
                        (1%nat, amount_text g1 gs1)])).
  { unfold range_pattern.
    eapply first_seq.
    { change (txt "between " ++ ?x) with (txt "between" ++ " "%char :: x).
      apply (first_lit (txt "between")). }
    eapply first_seq.
    { now apply first_currency_amount. }
    eapply first_seq.
    { apply first_group_app. apply first_int_amount; auto. }
    eapply first_seq.
    { change (txt " and " ++ ?x) with ([" "%char] ++ txt "and " ++ x).
      apply first_rep_run; [reflexivity | discriminate | reflexivity]. }
    eapply first_seq.
    { change (txt "and " ++ ?x) with (txt "and" ++ " "%char :: x).
      apply (first_lit (txt "and")). }
    eapply first_seq.
    { now apply first_currency_amount. }
    apply first_group_app. now apply first_int_amount. }
  destruct H as [tl H]. unfold match_here. now rewrite H.
Qed.

(** X16.  Let the normalised query read [pre ++ "between " ++ X ++ " and "
    ++ Y ++ post] with [X] and [Y] whole amounts, [Y] ending there and
    worth more than 0 and less than 2^53; let neither of the first two
    patterns match anywhere, nor the range pattern before this
    ["between"].  Then the ceiling is [Y] after the k-shorthand and the
    tier is ['specific']: the lower amount [X] plays no part. *)
Theorem X16_between_takes_upper_amount q pre g1 gs1 g2 gs2 post :
  strip (lower q)
  = pre ++ txt "between " ++ amount_text g1 gs1 ++ txt " and "
    ++ amount_text g2 gs2 ++ post ->
  is_digits g1 = true -> Forall (fun g => is_digits g = true) gs1 ->
  is_digits g2 = true -> Forall (fun g => is_digits g = true) gs2 ->
  amount_ends post = true ->
  Re.search under_pattern (strip (lower q)) = None ->
  Re.search around_pattern (strip (lower q)) = None ->
  earlier_match range_pattern (strip (lower q)) (List.length pre) = false ->
  0 < amount_value g2 gs2 < 2 ^ 53 ->
  exists a,
    analyze_budget q = Ok a
    /\ max_budget a
       = Some (k_shorthand (contains (txt "k") (strip (lower q)))
                           (amount_value g2 gs2))
    /\ specific_budget a = max_budget a
    /\ budget_type a = txt "specific".
Proof.
  unfold amount_value.
  intros Hql Hg1 Hgs1 Hg2 Hgs2 Hpost Hu Ha Hearly Hv.
  set (ql := strip (lower q)) in *.
  assert (Hlow : lower ql = ql) by apply lower_normalised.
  assert (Hp : _extract_price ql
               = Ok (Some (k_shorthand (contains (txt "k") ql)
                             (digits_value (g2 ++ List.concat gs2))))).
  { unfold _extract_price. rewrite Hlow.
    assert (Hkw : any_in budget_keywords ql = true).
    { apply (any_in_intro budget_keywords (txt "between"));
        [simpl; tauto|].
      apply contains_spec.
      exists pre, (" "%char :: amount_text g1 gs1 ++ txt " and "
                   ++ amount_text g2 gs2 ++ post).
      rewrite Hql. reflexivity. }
    rewrite Hkw. cbn [negb].
    assert (Hs : Re.search range_pattern ql
                 = Some [(2%nat, amount_text g2 gs2);
                         (1%nat, amount_text g1 gs1)]).
    { apply (search_leftmost range_pattern (List.length pre));
        [exact Hearly|].
      rewrite Hql, skipn_length_app. now apply match_range_amounts. }
    unfold budget_patterns. cbn [extract_loop]. rewrite Hu, Ha, Hs.
    change (str_eqb (txt "range") (txt "range")) with true. cbv iota.
    cbn [group Nat.eqb].
    rewrite (remove_comma_amount g2 gs2 Hg2 Hgs2).
    destruct (digits_concat g2 gs2 Hg2 Hgs2) as [Hd Hne].
    rewrite (price_of_digits ql _ Hd Hne Hv), Hlow. reflexivity. }
  pose proof (k_shorthand_pos (contains (txt "k") ql)
                (digits_value (g2 ++ List.concat gs2)) (proj1 Hv)) as Hpos.
  set (n := k_shorthand _ _) in *.
  assert (Ht : truthy_int (Some n) = true).
  { simpl. apply negb_true_iff, Z.eqb_neq. lia. }
  unfold analyze_budget, _detect_budget_type. fold ql. rewrite Hp. cbn [bind].
  rewrite Ht. cbn [bind]. eexists. split; [reflexivity|].
  repeat split.
Qed.

(** X16 at ["Laptop between 80,000 and 40000"]: the ceiling is the second
    amount, 40000, though the first is the larger. *)
Lemma X16_between_witness :
  let q := txt "Laptop between 80,000 and 40000" in
  strip (lower q)
  = txt "laptop " ++ txt "between " ++ amount_text (txt "80") [txt "000"]
    ++ txt " and " ++ amount_text (txt "40000") [] ++ []
  /\ amount_value (txt "40000") [] = 40000
  /\ exists a,
       analyze_budget q = Ok a
       /\ max_budget a
          = Some (k_shorthand (contains (txt "k") (strip (lower q)))
                              (amount_value (txt "40000") []))
       /\ specific_budget a = max_budget a
       /\ budget_type a = txt "specific".
Proof.
  split; [reflexivity|]. split; [reflexivity|].
  apply (X16_between_takes_upper_amount
           (txt "Laptop between 80,000 and 40000")
           (txt "laptop ") (txt "80") [txt "000"] (txt "40000") [] []).
  - reflexivity.
  - reflexivity.
  - repeat constructor.
  - reflexivity.
  - constructor.
  - reflexivity.
  - vm_compute. reflexivity.
  - vm_compute. reflexivity.
  - vm_compute. reflexivity.
  - vm_compute. split; reflexivity.
Defined.

(** ** The search endpoint *)

Lemma process_query_returns {S : sorter} q db :
  exists r, process_query q db = (Ok r, db).
Proof.
  pose proof (process_query_frame q db) as Hf.
  unfold process_query in *.
  destruct (process_query_cases mock_search q db)
    as [(e & db1 & _ & H) | (a & found & ranked & db1 & _ & H)];
    rewrite H in Hf; simpl in Hf; subst db1; eauto.
Qed.

(** The view on an acceptable query: the result of the pipeline, handed
    to [jsonify]. *)
Lemma search_answer {S : sorter} field db :
  let query := strip (or_empty field) in
  snd (App.search field db) = db
  /\ (acceptable query = false ->
      exists msg,
        fst (App.search field db) = Ok (400%nat, App.ErrorBody msg))
  /\ (acceptable query = true ->
      exists r,
        process_query query db = (Ok r, db)
        /\ fst (App.search field db)
           = match App.jsonify (App.ResultBody r) with
             | Ok b => Ok (200%nat, b)
             | Raise _ => Ok (500%nat, App.ErrorBody "Internal server error")
             end).
Proof.
  cbv zeta. unfold App.search, acceptable, try_db, bind_db, pure.
  unfold App.min_query_length, App.max_query_length.
  set (query := strip (or_empty field)).
  destruct query as [|c query'] eqn:Eq.
  { split; [reflexivity|]. split; [intros _; eexists; reflexivity | discriminate]. }
  rewrite <- Eq. clear Eq.
  destruct (Z.of_nat (List.length query) <? 2) eqn:E1.
  { split; [reflexivity|]. split; [intros _; eexists; reflexivity|].
    apply Z.ltb_lt in E1. intros H.
    apply andb_true_iff in H as [H _]. apply andb_true_iff in H as [H _].
    apply Z.leb_le in H. lia. }
  destruct (500 <? Z.of_nat (List.length query)) eqn:E2.
  { split; [reflexivity|]. split; [intros _; eexists; reflexivity|].
    apply Z.ltb_lt in E2. intros H.
    apply andb_true_iff in H as [H _]. apply andb_true_iff in H as [_ H].
    apply Z.leb_le in H. lia. }
  destruct (existsb App.isalnum query) eqn:E3; cbn [negb].
  - destruct (process_query_returns query db) as [r Hr]. rewrite Hr.
    unfold App.respond.
    split; [destruct (App.jsonify (App.ResultBody r)); reflexivity|].
    split.
    + apply Z.ltb_ge in E1, E2. intros H.
      apply andb_false_iff in H as [H | H]; [|discriminate].
      apply andb_false_iff in H as [H | H]; apply Z.leb_gt in H; lia.
    + intros _. exists r. split; [reflexivity|].
      destruct (App.jsonify (App.ResultBody r)); reflexivity.
  - split; [reflexivity|]. split; [intros _; eexists; reflexivity|].
    intros H. apply andb_true_iff in H as [_ H]. discriminate.
Qed.

(** ** The size of a float *)

Lemma shr_1_m mrs :
  0 <= shr_m mrs ->
  shr_m (shr_1 mrs) = shr_m mrs / 2 /\ 0 <= shr_m (shr_1 mrs).
Proof.
  destruct mrs as [m r s]. simpl. intros Hm.
  destruct m as [|[p|p|]|p]; simpl; try lia.
  all: split; try lia.
  - reflexivity.
  - apply (Z.div_unique _ 2 (Zpos p) 1); lia.
  - apply (Z.div_unique _ 2 (Zpos p) 0); lia.
  - reflexivity.
Qed.

(** [p] shifts to the right divide the mantissa by [2^p]. *)
Lemma iter_shr_1_m p : forall mrs,
  0 <= shr_m mrs ->
  shr_m (iter_pos shr_1 p mrs) = shr_m mrs / 2 ^ Zpos p
  /\ 0 <= shr_m (iter_pos shr_1 p mrs).
Proof.
  induction p as [p IH|p IH|]; intros mrs Hm; cbn [iter_pos].
  - destruct (shr_1_m mrs Hm) as [E1 H1].
    destruct (IH _ H1) as [E2 H2]. destruct (IH _ H2) as [E3 H3].
    split; [|exact H3]. rewrite E3, E2, E1.
    rewrite !Z.div_div by lia. f_equal.
    replace (Z.pos p~1) with (1 + (Z.pos p + Z.pos p)) by lia.
    rewrite !Z.pow_add_r by lia. reflexivity.
  - destruct (IH _ Hm) as [E2 H2]. destruct (IH _ H2) as [E3 H3].
    split; [|exact H3]. rewrite E3, E2.
    rewrite !Z.div_div by lia. f_equal.
    replace (Z.pos p~0) with (Z.pos p + Z.pos p) by lia.
    rewrite !Z.pow_add_r by lia. reflexivity.
  - destruct (shr_1_m mrs Hm) as [E1 H1]. split; [|exact H1].
    rewrite E1. reflexivity.
Qed.

Lemma shr_record_of_loc_m m l : shr_m (shr_record_of_loc m l) = m.
Proof. destruct l as [|[]]; reflexivity. Qed.

(** What [shr_fexp] leaves of a mantissa that is not negative: the
    exponent goes up to the one the format asks for, and the mantissa is
    divided accordingly. *)
Lemma shr_fexp_spec m e l :
  0 <= m ->
  exists mrs e',
    shr_fexp prec emax m e l = (mrs, e')
    /\ e' = Z.max e (Z.max (Zdigits2 m + e - 53) (-1074))
    /\ shr_m mrs = m / 2 ^ (e' - e).
Proof.
  intros Hm. unfold shr_fexp, shr, fexp, emin, prec, emax.
  change (3 - 1024 - 53) with (-1074).
  set (t := Z.max (Zdigits2 m + e - 53) (-1074)).
  destruct (t - e) as [|p|p] eqn:En.
  - eexists. eexists. split; [reflexivity|].
    split; [lia|]. rewrite shr_record_of_loc_m.
    now rewrite Z.sub_diag, Z.pow_0_r, Z.div_1_r.
  - eexists. eexists. split; [reflexivity|].
    split; [lia|].
    destruct (iter_shr_1_m p (shr_record_of_loc m l)) as [E _];
      [rewrite shr_record_of_loc_m; exact Hm|].
    rewrite E, shr_record_of_loc_m. f_equal. f_equal. lia.
  - eexists. eexists. split; [reflexivity|].
    split; [lia|]. rewrite shr_record_of_loc_m.
    now rewrite Z.sub_diag, Z.pow_0_r, Z.div_1_r.
Qed.

Lemma round_nearest_even_bounds m l :
  m <= round_nearest_even m l <= m + 1.
Proof.
  destruct l as [|[]]; simpl; try lia. destruct (Z.even m); lia.
Qed.

Lemma Zdigits2_upper m : 0 <= m -> m < 2 ^ Zdigits2 m.
Proof.
  destruct m as [|p|p]; [simpl; lia | | lia].
  intros _. apply Zdigits2_bounds.
Qed.

Lemma Zdigits2_lower m : 0 < m -> 2 ^ (Zdigits2 m - 1) <= m.
Proof.
  destruct m as [|p|p]; try lia. intros _. apply Zdigits2_bounds.
Qed.

Lemma Zdigits2_nonneg m : 0 <= Zdigits2 m.
Proof. destruct m; simpl; lia. Qed.

(** A finite float that rounding returns has a mantissa below [2^53] and
    an exponent of at most 971. *)
Lemma binary_round_aux_bounded s m e l s' m' e' :
  0 <= m ->
  binary_round_aux prec emax s m e l = S754_finite s' m' e' ->
  Zpos m' < 2 ^ 53 /\ e' <= 971.
Proof.
  intros Hm. unfold binary_round_aux.
  destruct (shr_fexp_spec m e l Hm) as (mrs1 & e1 & -> & He1 & Hm1).
  set (r := round_nearest_even (shr_m mrs1) (loc_of_shr_record mrs1)).
  assert (Hr : 0 <= r).
  { pose proof (round_nearest_even_bounds (shr_m mrs1)
                  (loc_of_shr_record mrs1)) as Hb.
    assert (0 <= shr_m mrs1) by (rewrite Hm1; apply Z.div_pos; lia).
    unfold r. lia. }
  destruct (shr_fexp_spec r e1 loc_Exact Hr) as (mrs2 & e2 & -> & He2 & Hm2).
  destruct (shr_m mrs2) as [|p|p] eqn:Ep; try discriminate.
  unfold prec, emax. destruct (e2 <=? 1024 - 53) eqn:Ee; [|discriminate].
  intros H. injection H as _ <- <-. apply Z.leb_le in Ee.
  split; [|lia].
  rewrite Hm2.
  pose proof (Zdigits2_upper r Hr) as Hu.
  pose proof (Zdigits2_nonneg r) as Hd.
  assert (Hk : 0 <= e2 - e1) by lia.
  apply Z.div_lt_upper_bound; [lia|].
  rewrite <- Z.pow_add_r by lia.
  assert (2 ^ Zdigits2 r <= 2 ^ (e2 - e1 + 53))
    by (apply Z.pow_le_mono_r; lia).
  lia.
Qed.

(** A mantissa too long for the largest exponent rounds to an
    infinity. *)
Lemma binary_round_aux_overflow s m e l :
  0 < m -> 1025 <= Zdigits2 m + e ->
  binary_round_aux prec emax s m e l = S754_infinity s.
Proof.
  intros Hm Hbig. unfold binary_round_aux.
  destruct (shr_fexp_spec m e l (Z.lt_le_incl _ _ Hm))
    as (mrs1 & e1 & -> & He1 & Hm1).
  pose proof (Zdigits2_lower m Hm) as Hl.
  assert (Hdm : 1 <= Zdigits2 m) by (destruct m; simpl in *; lia).
  assert (H1 : 0 < shr_m mrs1).
  { rewrite Hm1. apply Z.div_str_pos. split; [lia|].
    assert (2 ^ (e1 - e) <= 2 ^ (Zdigits2 m - 1))
      by (apply Z.pow_le_mono_r; lia).
    lia. }
  set (r := round_nearest_even (shr_m mrs1) (loc_of_shr_record mrs1)).
  assert (Hr : 0 < r).
  { pose proof (round_nearest_even_bounds (shr_m mrs1)
                  (loc_of_shr_record mrs1)). unfold r. lia. }
  destruct (shr_fexp_spec r e1 loc_Exact (Z.lt_le_incl _ _ Hr))
    as (mrs2 & e2 & -> & He2 & Hm2).
  pose proof (Zdigits2_lower r Hr) as Hlr.
  assert (Hdr : 1 <= Zdigits2 r) by (destruct r; simpl in *; lia).
  assert (H2 : 0 < shr_m mrs2).
  { rewrite Hm2. apply Z.div_str_pos. split; [lia|].
    assert (2 ^ (e2 - e1) <= 2 ^ (Zdigits2 r - 1))
      by (apply Z.pow_le_mono_r; lia).
    lia. }
  destruct (shr_m mrs2) as [|p|p]; try lia.
  unfold prec, emax. destruct (e2 <=? 1024 - 53) eqn:Ee; [|reflexivity].
  apply Z.leb_le in Ee. lia.
Qed.

Lemma binary_round_aux_in_range s m e l :
  0 <= m -> in_range (binary_round_aux prec emax s m e l).
Proof.
  intros Hm. destruct (binary_round_aux prec emax s m e l) eqn:E; simpl; auto.
  eapply binary_round_aux_bounded; eauto.
Qed.

Lemma div_eucl_fst a b : fst (Z.div_eucl a b) = a / b.
Proof. reflexivity. Qed.

Lemma SFdiv_core_quotient n d :
  0 < n -> 0 < d ->
  exists ez lz q,
    SFdiv_core_binary prec emax n 0 d 0 = (q, ez, lz)
    /\ 0 <= q
    /\ (53 <= Zdigits2 n - Zdigits2 d -> ez = 0 /\ q = n / d).
Proof.
  intros Hn Hd. unfold SFdiv_core_binary.
  set (e' := Z.min _ _).
  assert (He : e' <= 0) by (unfold e'; lia).
  set (m' := match 0 - 0 - e' with Z0 => n | Zpos _ => _ | Zneg _ => 0 end).
  assert (Hm : 0 <= m').
  { unfold m'. destruct (0 - 0 - e'); try lia.
    apply Z.shiftl_nonneg. lia. }
  pose proof (div_eucl_fst m' d) as Hq.
  destruct (Z.div_eucl m' d) as [q r]. simpl in Hq. subst q.
  do 3 eexists. split; [reflexivity|].
  split; [apply Z.div_pos; lia|].
  intros Hbig.
  assert (e' = 0).
  { unfold e', fexp, emin, prec, emax. lia. }
  split; [assumption|]. unfold m'. rewrite H. reflexivity.
Qed.

Lemma round_quotient_in_range n d :
  0 <= n -> 0 < d -> in_range (round_quotient n d).
Proof.
  intros Hn Hd. unfold round_quotient.
  destruct n as [|p|p]; [exact I| |lia].
  destruct (SFdiv_core_quotient (Zpos p) d) as (ez & lz & q & -> & Hq & _);
    [lia|lia|].
  now apply binary_round_aux_in_range.
Qed.

Lemma nearest_float_in_range n : in_range (nearest_float n).
Proof.
  unfold nearest_float, binary_normalize.
  destruct n as [|p|p]; [exact I| |]; unfold binary_round;
    destruct (shl_align p 0 _) as [mz ez];
    apply binary_round_aux_in_range; lia.
Qed.

Lemma fmul_in_range x y : in_range (fmul x y).
Proof.
  unfold fmul, SFmul.
  destruct x as [sx|sx| |sx mx ex], y as [sy|sy| |sy my ey]; try exact I.
  apply binary_round_aux_in_range. lia.
Qed.

(** [int] of a float of binary64 is below [2^1024]. *)
Lemma int_of_float_in_range x n :
  in_range x -> int_of_float x = Ok n -> Z.abs n < 2 ^ 1024.
Proof.
  assert (H0 : 0 < 2 ^ 1024) by (apply Z.pow_pos_nonneg; lia).
  destruct x as [s|s| |s m e]; simpl; try discriminate.
  - intros _ H. injection H as <-. simpl. lia.
  - intros [Hm He] H. injection H as <-.
    assert (Ha : 0 <= match e with
                      | Z.neg p => Z.shiftr (Z.pos m) (Z.pos p)
                      | _ => Z.shiftl (Z.pos m) e
                      end < 2 ^ 1024).
    { destruct e as [|p|p].
      - rewrite Z.shiftl_0_r.
        assert (2 ^ 53 <= 2 ^ 1024) by (apply Z.pow_le_mono_r; lia). lia.
      - rewrite Z.shiftl_mul_pow2 by lia.
        assert (2 ^ Z.pos p <= 2 ^ 971) by (apply Z.pow_le_mono_r; lia).
        assert (0 < 2 ^ Z.pos p) by (apply Z.pow_pos_nonneg; lia).
        replace (2 ^ 1024) with (2 ^ 53 * 2 ^ 971)
          by (rewrite <- Z.pow_add_r by lia; reflexivity).
        nia.
      - rewrite Z.shiftr_div_pow2 by lia.
        assert (0 < 2 ^ Z.pos p) by (apply Z.pow_pos_nonneg; lia).
        assert (2 ^ 53 <= 2 ^ 1024) by (apply Z.pow_le_mono_r; lia).
        split; [apply Z.div_pos; lia|].
        apply Z.le_lt_trans with (Z.pos m); [|lia].
        apply Z.div_le_upper_bound; nia. }
    destruct s; lia.
Qed.

Lemma digits_value_nonneg s : 0 <= digits_value s.
Proof.
  unfold digits_value.
  assert (H : forall acc, 0 <= acc ->
            0 <= fold_left (fun acc c => 10 * acc + digit_value c) s acc).
  { induction s as [|c s IH]; cbn [fold_left]; intros acc Hacc; [exact Hacc|].
    apply IH.
    assert (Hc : 0 <= digit_value c) by apply N2Z.is_nonneg.
    revert Hc. generalize (digit_value c). intros d Hd. lia. }
  apply H. lia.
Qed.

Lemma float_of_str_in_range s x : float_of_str s = Ok x -> in_range x.
Proof.
  unfold float_of_str. destruct (decimal_parts s) as [[ip fp]|]; [|discriminate].
  intros H. injection H as <-. apply round_quotient_in_range.
  - apply digits_value_nonneg.
  - apply Z.pow_pos_nonneg; lia.
Qed.

Lemma price_of_in_range query s n : price_of query s = Ok n -> n < 2 ^ 1024.
Proof.
  unfold price_of. intros H. apply bind_Ok in H as (x & Hx & H).
  apply float_of_str_in_range in Hx.
  apply (int_of_float_in_range _ n) in H; [apply Z.abs_lt in H; apply H|].
  destruct (_ && _); [|exact Hx].
  apply fmul_in_range.
Qed.

Lemma extract_loop_in_range pats query n :
  extract_loop pats query = Ok (Some n) -> n < 2 ^ 1024.
Proof.
  induction pats as [|[pattern ptype] rest IH]; simpl; [discriminate|].
  destruct (search pattern query) as [m|]; [|exact IH].
  destruct (group _ m) as [g|]; [|discriminate].
  destruct (price_of query (remove_char ","%char g)) as [price|e] eqn:E.
  - intros H. injection H as <-. now apply price_of_in_range in E.
  - destruct e; try discriminate; exact IH.
Qed.

Lemma extract_price_in_range query n :
  _extract_price query = Ok (Some n) -> n < 2 ^ 1024.
Proof.
  unfold _extract_price. destruct (negb _); [discriminate|].
  apply extract_loop_in_range.
Qed.

Lemma default_budget_small c t : default_budget c t <= 250000.
Proof.
  unfold default_budget.
  set (row := match c with Some c0 => _ | None => _ end).
  assert (Hrow : row = [] \/ In row (map snd BUDGET_RANGES)).
  { unfold row. destruct c as [c|]; [|now left].
    destruct (dict_get BUDGET_RANGES c) eqn:E; [|now left].
    right. eapply dict_get_In; eauto. }
  destruct (dict_get row t) as [b|] eqn:E; [|lia].
  apply dict_get_In in E.
  destruct Hrow as [-> | Hrow]; [contradiction|].
  simpl in Hrow.
  repeat (destruct Hrow as [<- | Hrow];
          [simpl in E; repeat (destruct E as [<- | E]; [lia|]); contradiction|]).
  contradiction.
Qed.

(** The two amounts of an analysis are below [2^1024], and the ceiling
    is positive. *)
Lemma analysis_in_range q a :
  analyze_budget q = Ok a ->
  (exists m, max_budget a = Some m /\ 0 < m < 2 ^ 1024)
  /\ (forall n, specific_budget a = Some n -> 0 <= n < 2 ^ 1024).
Proof.
  intros H. apply analyze_budget_inv in H as (p & Hp & Es & _ & _ & H).
  cbv zeta in Hp.
  assert (Hn : forall n, p = Some n -> 0 <= n < 2 ^ 1024).
  { intros n ->. split.
    - now apply extract_price_not_negative in Hp.
    - now apply extract_price_in_range in Hp. }
  split.
  - destruct (truthy_int p) eqn:E.
    + destruct H as [_ ->]. destruct p as [n|]; [|discriminate].
      exists n. split; [reflexivity|].
      simpl in E. apply negb_true_iff, Z.eqb_neq in E.
      specialize (Hn n eq_refl). lia.
    + destruct H as [_ ->]. eexists. split; [reflexivity|].
      pose proof (default_budget_pos (BudgetAnalyzer.category a) (budget_type a)).
      pose proof (default_budget_small (BudgetAnalyzer.category a) (budget_type a)).
      assert (2 ^ 18 <= 2 ^ 1024) by (apply Z.pow_le_mono_r; lia).
      change (2 ^ 18) with 262144 in *. lia.
  - intros n Hs. apply Hn. congruence.
Qed.

(** ** A quotient too large for a float *)

Lemma round_quotient_overflow n d :
  0 < d < 2 ^ 1024 -> 2 ^ 2049 <= n ->
  round_quotient n d = S754_infinity false.
Proof.
  intros [Hd Hd'] Hn.
  assert (H0 : 0 < 2 ^ 2049) by (apply Z.pow_pos_nonneg; lia).
  assert (Hn0 : 0 < n) by lia.
  assert (Hdn : 2049 < Zdigits2 n).
  { pose proof (Zdigits2_upper n (Z.lt_le_incl _ _ Hn0)).
    apply (Z.pow_lt_mono_r_iff 2); [lia|apply Zdigits2_nonneg|lia]. }
  assert (Hdd : Zdigits2 d <= 1024).
  { pose proof (Zdigits2_lower d Hd).
    assert (Zdigits2 d - 1 < 1024); [|lia].
    apply (Z.pow_lt_mono_r_iff 2); lia. }
  unfold round_quotient. destruct n as [|p|p]; try lia.
  destruct (SFdiv_core_quotient (Zpos p) d Hn0 Hd)
    as (ez & lz & q & -> & Hq & Hbig).
  destruct Hbig as [-> ->]; [lia|].
  assert (Hq1 : 2 ^ 1024 <= Z.pos p / d).
  { apply Z.div_le_lower_bound; [lia|].
    assert (d * 2 ^ 1024 <= 2 ^ 1024 * 2 ^ 1024).
    { apply Z.mul_le_mono_nonneg_r; lia. }
    rewrite <- Z.pow_add_r in H by lia.
    assert (2 ^ (1024 + 1024) <= 2 ^ 2049) by (apply Z.pow_le_mono_r; lia).
    lia. }
  assert (H1 : 0 < 2 ^ 1024) by (apply Z.pow_pos_nonneg; lia).
  apply binary_round_aux_overflow; [lia|].
  assert (1024 < Zdigits2 (Z.pos p / d)); [|lia].
  pose proof (Zdigits2_upper (Z.pos p / d) Hq).
  apply (Z.pow_lt_mono_r_iff 2); [lia|apply Zdigits2_nonneg|lia].
Qed.

(** The true division of an int by a ceiling returns only when the int
    is below [2^2049]. *)
Lemma int_truediv_in_range n d x :
  0 < d < 2 ^ 1024 -> int_truediv n d = Ok x -> Z.abs n < 2 ^ 2049.
Proof.
  intros Hd. unfold int_truediv.
  destruct (d =? 0) eqn:E; [discriminate|].
  destruct (Z_lt_le_dec (Z.abs n) (2 ^ 2049)) as [Hlt | Hge]; [auto|].
  replace (Z.abs d) with d by lia.
  rewrite round_quotient_overflow by assumption. discriminate.
Qed.

Lemma score_product_price ql a p mb s :
  max_budget a = Some mb -> 0 < mb < 2 ^ 1024 ->
  score_product ql a p = Ok s -> Z.abs (price p) < 2 ^ 2049.
Proof.
  intros Hmb Hr. unfold score_product. rewrite Hmb.
  replace (negb (mb =? 0)) with true
    by (symmetry; apply negb_true_iff, Z.eqb_neq; lia).
  intros H. apply bind_Ok in H as (sc & H & _).
  apply bind_Ok in H as (ratio & H & _).
  eapply int_truediv_in_range; eauto.
Qed.

Lemma score_all_prices ql a ps mb scored :
  max_budget a = Some mb -> 0 < mb < 2 ^ 1024 ->
  score_all ql a ps = Ok scored ->
  Forall (fun p => Z.abs (price p) < 2 ^ 2049) ps.
Proof.
  intros Hmb Hr. revert scored.
  induction ps as [|p ps IH]; intros scored; simpl; [constructor|].
  intros H. apply bind_Ok in H as (s & Hs & H).
  apply bind_Ok in H as (rest & Hrest & _).
  constructor; eauto using score_product_price.
Qed.

Lemma small_int_repr_ok n : Z.abs n < 2 ^ 2049 -> App.int_repr_ok n = true.
Proof.
  intros H. unfold App.int_repr_ok, App.int_max_str_digits.
  apply Z.ltb_lt. eapply Z.lt_le_trans; [exact H|].
  apply Z.leb_le. vm_compute. reflexivity.
Qed.

Section SearchBody.
Context {S : sorter}.

Lemma filter_and_rank_prices ps q a mb ranked :
  max_budget a = Some mb -> 0 < mb < 2 ^ 1024 ->
  _filter_and_rank ps q a = Ok ranked ->
  Forall (fun p => Z.abs (price p) < 2 ^ 2049) ranked.
Proof.
  intros Hmb Hr H.
  pose proof H as Hp. apply filter_and_rank_perm in Hp.
  apply (Permutation_Forall Hp).
  unfold _filter_and_rank in H. destruct ps as [|p ps]; [constructor|].
  apply bind_Ok in H as (scored & Hs & _).
  eapply score_all_prices; eauto.
Qed.

(** Every int of a result of the pipeline is one [jsonify] writes. *)
Lemma process_query_serialisable q db r db' :
  process_query q db = (Ok r, db') ->
  App.jsonify (App.ResultBody r) = Ok (App.ResultBody r).
Proof.
  unfold process_query.
  destruct (process_query_cases mock_search q db)
    as [(e & db1 & _ & H) | (a & found & ranked & db1 & (Ha & _ & Hk) & H)];
    rewrite H; intros E; injection E as <- _; [reflexivity|].
  destruct (analysis_in_range _ _ Ha) as [(mb & Hmb & Hr) Hs].
  unfold App.jsonify.
  replace (forallb App.int_repr_ok _) with true; [reflexivity|].
  symmetry. apply forallb_forall. intros n Hn.
  apply small_int_repr_ok.
  assert (Hw : 2 ^ 1024 <= 2 ^ 2049) by (apply Z.pow_le_mono_r; lia).
  cbn [App.body_ints] in Hn. rewrite Hmb in Hn.
  rewrite !in_app_iff in Hn.
  destruct Hn as [Hn | [Hn | [Hn | Hn]]].
  - simpl in Hn. destruct Hn as [<- | []]. lia.
  - destruct (specific_budget a) as [sb|] eqn:Esb; [|contradiction].
    simpl in Hn. destruct Hn as [<- | []].
    specialize (Hs sb eq_refl). lia.
  - apply in_map_iff in Hn as (p & <- & Hp).
    apply (In_firstn 3 ranked) in Hp.
    pose proof Hk as Hall.
    eapply filter_and_rank_prices in Hall; [|exact Hmb|exact Hr].
    rewrite Forall_forall in Hall. now apply Hall.
  - simpl in Hn. destruct Hn as [<- | []]. lia.
Qed.
End SearchBody.

(** X17.  The search endpoint answers every request whose ['query'] is a
    string, or is missing, with the status 200 or 400 and never 500, and
    leaves the catalog as it was.  It answers 200 exactly when the
    stripped query is acceptable, and the body is then what
    [process_query] returns for the stripped query, a failure of the
    pipeline included: [jsonify] writes every such body, as the ints of
    one are the two amounts of the analysis, below [2^1024], and the
    prices of products the ranking has divided by the ceiling, below
    [2^2049].  Otherwise it answers 400 with an error message. *)
Theorem X17_search_endpoint {S : sorter} field db :
  let query := strip (or_empty field) in
  snd (App.search field db) = db
  /\ (acceptable query = true ->
      exists r,
        process_query query db = (Ok r, db)
        /\ App.jsonify (App.ResultBody r) = Ok (App.ResultBody r)
        /\ fst (App.search field db) = Ok (200%nat, App.ResultBody r))
  /\ (acceptable query = false ->
      exists msg,
        fst (App.search field db) = Ok (400%nat, App.ErrorBody msg)).
Proof.
  cbv zeta. destruct (search_answer field db) as (Hdb & H400 & H200).
  cbv zeta in H400, H200.
  split; [exact Hdb|]. split; [|exact H400].
  intros Hacc. destruct (H200 Hacc) as (r & Hr & Hans).
  exists r. pose proof Hr as Hj. apply process_query_serialisable in Hj.
  rewrite Hj in Hans. auto.
Qed.

(** The answer to a query with an amount beyond the floats is 200, with
    the failure of the pipeline as its body. *)
Example search_overflow_is_200 :
  fst (App.search (Some huge_query) sample_catalog)
  = Ok (200%nat,
        App.ResultBody
          (Failed "cannot convert float infinity to integer" huge_query [])).
Proof. vm_compute. reflexivity. Qed.

(** A product at a price of 5001 digits is above every ceiling and is
    not found; at the negative of that price it is found, and its
    division by the ceiling fails the pipeline.  The answer is 200 both
    times. *)
Example search_huge_price_is_200 :
  fst (App.search (Some (txt "laptop"))
                  [with_price huge_price thinkpad; macbook])
  = Ok (200%nat,
        App.ResultBody
          (Found (txt "laptop")
                 {| BudgetAnalyzer.category := Some (txt "electronics");
                    max_budget := Some 250000;
                    budget_type := txt "high";
                    specific_budget := None;
                    original_query := txt "laptop" |}
                 [macbook] 1 (Some (txt "electronics")) (Some 250000)))
  /\ fst (App.search (Some (txt "laptop"))
                     [with_price (- huge_price) thinkpad; macbook])
     = Ok (200%nat,
           App.ResultBody
             (Failed "integer division result too large for a float"
                     (txt "laptop") [])).
Proof. split; vm_compute; reflexivity. Qed.

(** ** The suggestions endpoint *)

Lemma get_suggestions_cases {S : sorter} list_of_set q db :
  (forall e, analyze_budget q = Raise e ->
             get_suggestions list_of_set q db = (Raise e, db))
  /\ (forall a, analyze_budget q = Ok a ->
                exists s, get_suggestions list_of_set q db = (Ok s, db)).
Proof.
  unfold get_suggestions, bind_db, pure.
  destruct (analyze_budget q) as [a|e] eqn:Ea.
  - split; [discriminate|]. intros a' Ha'. injection Ha' as <-.
    destruct (truthy_str (BudgetAnalyzer.category a)) eqn:Ht; cbn [negb].
    + rewrite (search_by_category _ db Ht). eexists. reflexivity.
    + eexists. reflexivity.
  - split; [|discriminate]. intros e' H. injection H as <-. reflexivity.
Qed.

(** The ints of what [get_suggestions] returns are prices of the catalog,
    or the two zeros of an empty price range. *)
Lemma suggestions_ints {S : sorter} list_of_set q db s db' :
  get_suggestions list_of_set q db = (Ok s, db') ->
  Forall (fun n => n = 0 \/ In n (map price db))
         (App.body_ints (App.SuggestionsBody s)).
Proof.
  unfold get_suggestions, bind_db, pure.
  destruct (analyze_budget q) as [a|e] eqn:Ea; [|discriminate].
  destruct (truthy_str (BudgetAnalyzer.category a)) eqn:Ht; cbn [negb].
  - rewrite (search_by_category _ db Ht).
    intros H. injection H as <- <-.
    cbn [App.body_ints suggested_range sample_products currency_min
         currency_max].
    assert (Hof : forall n, In n (map price
                                      (of_category (BudgetAnalyzer.category a) db))
                            -> In n (map price db)).
    { intros n Hn. apply in_map_iff in Hn as (p & <- & Hp).
      apply in_map. now apply of_category_In in Hp. }
    assert (Hr : (range_min (get_price_range (BudgetAnalyzer.category a) db) = 0
                  \/ In (range_min (get_price_range (BudgetAnalyzer.category a) db))
                        (map price db))
                 /\ (range_max (get_price_range (BudgetAnalyzer.category a) db) = 0
                     \/ In (range_max (get_price_range
                                         (BudgetAnalyzer.category a) db))
                           (map price db))).
    { unfold get_price_range.
      destruct (map price (of_category (BudgetAnalyzer.category a) db))
        as [|x prices] eqn:E; cbn [range_min range_max]; [auto|].
      split; right; apply Hof.
      - apply py_min_spec.
      - apply py_max_spec. }
    destruct Hr as [Hmin Hmax].
    constructor; [exact Hmin|]. constructor; [exact Hmax|].
    apply Forall_forall. intros n Hn. right.
    apply in_map_iff in Hn as (p & <- & Hp). apply in_map.
    apply (In_firstn 3 (list_sort sort_key_lt
                          (of_category (BudgetAnalyzer.category a) db))) in Hp.
    apply (Permutation_in _ (list_sort_permutes _ _)) in Hp.
    now apply of_category_In in Hp.
  - intros H. injection H as <- <-. constructor.
Qed.

(** X18.  The suggestions endpoint leaves the catalog as it was.  It
    answers 400 exactly when the stripped query is empty, and 500 with
    the text of the exception when [analyze_budget] raises on the
    stripped query: no length or content check stands before the
    analysis.  Otherwise [get_suggestions] returns, and the answer is 200
    with what it returned when [jsonify] can write its ints, as it can
    when no price of the catalog has more than 4300 digits, and 500 with
    the text of the digit limit when it cannot. *)
Theorem X18_suggestions_endpoint {S : sorter} list_of_set arg db :
  let query := strip (or_empty arg) in
  let answer := App.suggestions list_of_set arg db in
  snd answer = db
  /\ (query = [] ->
      fst answer = Ok (400%nat, App.ErrorBody "Query parameter required"))
  /\ (forall e, query <> [] -> analyze_budget query = Raise e ->
        fst answer = Ok (500%nat, App.ErrorBody (exn_message e)))
  /\ (forall a, query <> [] -> analyze_budget query = Ok a ->
        exists s,
          get_suggestions list_of_set query db = (Ok s, db)
          /\ (forallb App.int_repr_ok (App.body_ints (App.SuggestionsBody s))
              = true ->
              fst answer = Ok (200%nat, App.SuggestionsBody s))
          /\ (forallb App.int_repr_ok (App.body_ints (App.SuggestionsBody s))
              = false ->
              fst answer
              = Ok (500%nat, App.ErrorBody (exn_message App.digit_limit)))
          /\ (Forall (fun p => App.int_repr_ok (price p) = true) db ->
              fst answer = Ok (200%nat, App.SuggestionsBody s))).
Proof.
  cbv zeta. unfold App.suggestions, try_db, bind_db, pure.
  set (query := strip (or_empty arg)).
  destruct query as [|c query'] eqn:Eq.
  { split; [reflexivity|]. split; [reflexivity|].
    split; intros ? Hne; contradiction Hne; reflexivity. }
  rewrite <- Eq.
  destruct (get_suggestions_cases list_of_set query db) as [Hraise Hok].
  destruct (analyze_budget query) as [a|e] eqn:Ea.
  - destruct (Hok a eq_refl) as [s Hs]. rewrite Hs.
    pose proof (suggestions_ints list_of_set query db s db Hs) as Hints.
    unfold App.respond, App.jsonify.
    destruct (forallb App.int_repr_ok
                      (App.body_ints (App.SuggestionsBody s))) eqn:Ej;
      cbn [bind fst snd].
    + split; [reflexivity|]. split; [rewrite Eq; discriminate|].
      split; [discriminate|].
      intros a' _ _. exists s. split; [reflexivity|].
      split; [reflexivity|]. split; [congruence | reflexivity].
    + split; [reflexivity|]. split; [rewrite Eq; discriminate|].
      split; [discriminate|].
      intros a' _ _. exists s. split; [reflexivity|].
      split; [congruence|]. split; [reflexivity|].
      intros Hdb. exfalso.
      assert (Hall : forallb App.int_repr_ok
                             (App.body_ints (App.SuggestionsBody s)) = true).
      { apply forallb_forall. intros n Hn.
        rewrite Forall_forall in Hints, Hdb.
        destruct (Hints n Hn) as [-> | Hin]; [reflexivity|].
        apply in_map_iff in Hin as (p & <- & Hp). now apply Hdb. }
      congruence.
  - rewrite (Hraise e eq_refl).
    split; [reflexivity|]. split; [rewrite Eq; discriminate|].
    split; [|discriminate].
    intros e' _ H. injection H as <-. reflexivity.
Qed.

(** A query with an amount beyond the floats, which the search endpoint
    answers with 200, gets 500 here, with Python's message. *)
Example suggestions_overflow_is_500 :
  fst (App.suggestions (fun l => l) (Some huge_query) sample_catalog)
  = Ok (500%nat, App.ErrorBody "cannot convert float infinity to integer").
Proof. vm_compute. reflexivity. Qed.

(** The sample of a category at a price of 5001 digits is a body
    [jsonify] does not write: the answer is 500, with the message of the
    [ValueError]. *)
Example suggestions_huge_price_is_500 :
  fst (App.suggestions (fun l => l) (Some (txt "laptop"))
                       [with_price huge_price thinkpad; macbook])
  = Ok (500%nat, App.ErrorBody (exn_message App.digit_limit)).
Proof. vm_compute. reflexivity. Qed.

(** ** The words and the currency marks of the first two patterns *)

Lemma digit_not_dot d :
  isdigit d = true -> ascii_eqb (lower_char "."%char) (lower_char d) = false.
Proof. ascii_cases d; vm_compute; congruence. Qed.

Lemma first_blank_digit d r c :
  isdigit d = true ->
  first_is (Rep isspace 0) (" "%char :: d :: r) c (d :: r, c).
Proof.
  intros Hd. pose proof (digit_not_space d Hd) as Hs.
  pose proof (first_rep isspace 0 (" "%char :: d :: r) c) as H.
  change (" "%char :: d :: r) with ([" "%char] ++ d :: r) in H.
  rewrite (takewhile_app isspace [" "%char] (d :: r)) in H by auto.
  apply H. simpl. lia.
Qed.

(** Behind the word, one blank and any of the marks lead to the amount. *)
Lemma first_currency_mark mark d r c :
  In mark currency_marks -> isdigit d = true ->
  first_is BudgetAnalyzer.currency (" "%char :: mark ++ d :: r) c (d :: r, c).
Proof.
  intros Hm Hd. pose proof (digit_not_space d Hd) as Hs.
  assert (Hdot : run (Lit (txt ".")) (d :: r) c = []).
  { cbn [run lit_match txt list_ascii_of_string].
    rewrite (digit_not_dot d Hd). reflexivity. }
  simpl in Hm.
  destruct Hm as [<- | [<- | [<- | [<- | [<- | []]]]]].
  - now apply first_currency.
  - eapply first_seq; [|eapply first_seq].
    + apply (first_rep_run isspace [" "%char] (txt "rs" ++ d :: r));
        [reflexivity | discriminate | reflexivity].
    + apply first_opt_take, first_alt_l. eapply first_seq.
      * apply first_lit.
      * apply first_opt_skip. exact Hdot.
    + apply first_rep0_none. exact Hs.
  - eapply first_seq; [|eapply first_seq].
    + apply (first_rep_run isspace [" "%char] (txt "rs." ++ d :: r));
        [reflexivity | discriminate | reflexivity].
    + apply first_opt_take, first_alt_l. eapply first_seq.
      * apply (first_lit (txt "rs") ("."%char :: d :: r)).
      * apply first_opt_take. apply (first_lit (txt ".") (d :: r)).
    + apply first_rep0_none. exact Hs.
  - eapply first_seq; [|eapply first_seq].
    + apply (first_rep_run isspace [" "%char] (txt "rs " ++ d :: r));
        [reflexivity | discriminate | reflexivity].
    + apply first_opt_take, first_alt_l. eapply first_seq.
      * apply (first_lit (txt "rs") (" "%char :: d :: r)).
      * apply first_opt_skip. reflexivity.
    + now apply first_blank_digit.
  - eapply first_seq; [|eapply first_seq].
    + apply (first_rep_run isspace [" "%char] (txt "rs. " ++ d :: r));
        [reflexivity | discriminate | reflexivity].
    + apply first_opt_take, first_alt_l. eapply first_seq.
      * apply (first_lit (txt "rs") ("."%char :: " "%char :: d :: r)).
      * apply first_opt_take. apply (first_lit (txt ".") (" "%char :: d :: r)).
    + now apply first_blank_digit.
Qed.

(** A pattern [words currency (amount)] matches at a word of its, a blank,
    a mark and a whole amount; its group is the amount. *)
Lemma match_phrase_amount words w mark g gs post :
  (forall rest c, first_is words (w ++ rest) c (rest, c)) ->
  In mark currency_marks ->
  is_digits g = true -> Forall (fun g => is_digits g = true) gs ->
  amount_ends post = true ->
  match_here (Seq words (Seq BudgetAnalyzer.currency (Group 1 dec_amount)))
             (w ++ txt " " ++ mark ++ amount_text g gs ++ post)
  = Some [(1%nat, amount_text g gs)].
Proof.
  intros Hw Hm Hg Hgs Hpost.
  assert (H : first_is
                (Seq words (Seq BudgetAnalyzer.currency (Group 1 dec_amount)))
                (w ++ txt " " ++ mark ++ amount_text g gs ++ post) []
                (post, [(1%nat, amount_text g gs)])).
  { destruct (amount_starts_digit g gs post Hg) as (d & r & Hdr & Hd).
    eapply first_seq; [|eapply first_seq].
    - apply Hw.
    - rewrite Hdr. change (txt " " ++ mark ++ d :: r)
        with (" "%char :: mark ++ d :: r).
      now apply first_currency_mark.
    - rewrite <- Hdr.
      pose proof (first_group 1 _ _ _ _ _
                    (first_dec_amount g gs post [] Hg Hgs Hpost)) as H.
      rewrite length_app, Nat.add_sub in H.
      rewrite firstn_app, firstn_all, Nat.sub_diag in H.
      simpl in H. rewrite app_nil_r in H. exact H. }
  destruct H as [tl H]. unfold match_here. now rewrite H.
Qed.

Lemma first_under_word w rest c :
  In w under_words ->
  first_is (Alt (Lit (txt "under"))
                (Alt (Lit (txt "below"))
                     (Alt (Lit (txt "less than")) (Lit (txt "upto")))))
           (w ++ rest) c (rest, c).
Proof.
  intros Hw. simpl in Hw. destruct Hw as [<- | [<- | [<- | [<- | []]]]].
  - apply first_alt_l, first_lit.
  - apply first_alt_r; [reflexivity|]. apply first_alt_l, first_lit.
  - apply first_alt_r; [reflexivity|]. apply first_alt_r; [reflexivity|].
    apply first_alt_l, first_lit.
  - apply first_alt_r; [reflexivity|]. apply first_alt_r; [reflexivity|].
    apply first_alt_r; [reflexivity|]. apply first_lit.
Qed.

Lemma first_around_word w rest c :
  In w around_words ->
  first_is (Alt (Lit (txt "around")) (Lit (txt "about"))) (w ++ rest) c
           (rest, c).
Proof.
  intros Hw. simpl in Hw. destruct Hw as [<- | [<- | []]].
  - apply first_alt_l, first_lit.
  - apply first_alt_r; [reflexivity|]. apply first_lit.
Qed.

Lemma phrase_word_keyword w : 
  In w under_words \/ In w around_words -> In w budget_keywords.
Proof.
  unfold under_words, around_words, budget_keywords. simpl.
  intros [H | H]; tauto.
Qed.

(** X19.  Let the normalised query read [pre ++ w ++ " " ++ mark ++ N ++
    post], with [w] one of under, below, less than, upto, around, about,
    [mark] nothing or ["rs"] or ["rs."] with or without a blank behind,
    and [N] a whole amount that ends there, worth more than 0 and less
    than 2^53; and let this phrase be the one taken: the pattern of [w]
    matches nowhere before it, and for around and about the first
    pattern matches nowhere.  Then the ceiling and the explicit price
    are [N] after the k-shorthand, and the tier is ['specific']. *)
Theorem X19_amount_phrase q w mark pre g gs post :
  strip (lower q) = pre ++ w ++ txt " " ++ mark ++ amount_text g gs ++ post ->
  In mark currency_marks ->
  is_digits g = true -> Forall (fun x => is_digits x = true) gs ->
  amount_ends post = true ->
  phrase_taken w (strip (lower q)) (List.length pre) ->
  0 < amount_value g gs < 2 ^ 53 ->
  exists a,
    analyze_budget q = Ok a
    /\ max_budget a
       = Some (k_shorthand (contains (txt "k") (strip (lower q)))
                           (amount_value g gs))
    /\ specific_budget a = max_budget a
    /\ budget_type a = txt "specific".
Proof.
  unfold amount_value.
  intros Hql Hm Hg Hgs Hpost Htaken Hv.
  set (ql := strip (lower q)) in *.
  assert (Hlow : lower ql = ql) by apply lower_normalised.
  assert (Hp : _extract_price ql
               = Ok (Some (k_shorthand (contains (txt "k") ql)
                             (digits_value (g ++ List.concat gs))))).
  { unfold _extract_price. rewrite Hlow.
    assert (Hkw : any_in budget_keywords ql = true).
    { apply (any_in_intro budget_keywords w).
      - apply phrase_word_keyword. destruct Htaken as [[H _] | [H _]]; auto.
      - apply contains_spec.
        exists pre, (txt " " ++ mark ++ amount_text g gs ++ post).
        exact Hql. }
    rewrite Hkw. cbn [negb].
    destruct (digits_concat g gs Hg Hgs) as [Hd Hne].
    destruct Htaken as [[Hw Hearly] | (Hw & Hu & Hearly)].
    - assert (Hs : Re.search under_pattern ql
                   = Some [(1%nat, amount_text g gs)]).
      { apply (search_leftmost under_pattern (List.length pre));
          [exact Hearly|].
        rewrite Hql, skipn_length_app.
        apply match_phrase_amount; auto.
        intros rest c. now apply first_under_word. }
      unfold budget_patterns. cbn [extract_loop]. rewrite Hs.
      change (str_eqb (txt "under") (txt "range")) with false. cbv iota.
      cbn [group Nat.eqb].
      rewrite (remove_comma_amount g gs Hg Hgs).
      rewrite (price_of_digits ql _ Hd Hne Hv), Hlow. reflexivity.
    - assert (Hs : Re.search around_pattern ql
                   = Some [(1%nat, amount_text g gs)]).
      { apply (search_leftmost around_pattern (List.length pre));
          [exact Hearly|].
        rewrite Hql, skipn_length_app.
        apply match_phrase_amount; auto.
        intros rest c. now apply first_around_word. }
      unfold budget_patterns. cbn [extract_loop]. rewrite Hu, Hs.
      change (str_eqb (txt "around") (txt "range")) with false. cbv iota.
      cbn [group Nat.eqb].
      rewrite (remove_comma_amount g gs Hg Hgs).
      rewrite (price_of_digits ql _ Hd Hne Hv), Hlow. reflexivity. }
  pose proof (k_shorthand_pos (contains (txt "k") ql)
                (digits_value (g ++ List.concat gs)) (proj1 Hv)) as Hpos.
  set (n := k_shorthand _ _) in *.
  assert (Ht : truthy_int (Some n) = true).
  { simpl. apply negb_true_iff, Z.eqb_neq. lia. }
  unfold analyze_budget, _detect_budget_type. fold ql. rewrite Hp. cbn [bind].
  rewrite Ht. cbn [bind]. eexists. split; [reflexivity|].
  repeat split.
Qed.

(** X19 at ["Phone about Rs. 15,000"]: the ceiling is 15000. *)
Lemma X19_amount_phrase_witness :
  let q := txt "Phone about Rs. 15,000" in
  strip (lower q)
  = txt "phone " ++ txt "about" ++ txt " " ++ txt "rs. "
    ++ amount_text (txt "15") [txt "000"] ++ []
  /\ phrase_taken (txt "about") (strip (lower q)) 6
  /\ amount_value (txt "15") [txt "000"] = 15000
  /\ exists a,
       analyze_budget q = Ok a
       /\ max_budget a
          = Some (k_shorthand (contains (txt "k") (strip (lower q)))
                              (amount_value (txt "15") [txt "000"]))
       /\ specific_budget a = max_budget a
       /\ budget_type a = txt "specific".
Proof.
  assert (Ht : phrase_taken (txt "about")
                 (strip (lower (txt "Phone about Rs. 15,000"))) 6).
  { right. split; [simpl; tauto|]. split; vm_compute; reflexivity. }
  split; [reflexivity|]. split; [exact Ht|]. split; [reflexivity|].
  apply (X19_amount_phrase
           (txt "Phone about Rs. 15,000")
           (txt "about") (txt "rs. ") (txt "phone ")
           (txt "15") [txt "000"] []).
  - reflexivity.
  - simpl. tauto.
  - reflexivity.
  - repeat constructor.
  - reflexivity.
  - exact Ht.
  - vm_compute. split; reflexivity.
Defined.
